(** * gourmet-support: the avatar pipeline (point-cloud loader, calibration,
      rigging, pose solver, splat viewer)

    A shallow embedding of
      - src/gvrm-format/ply.ts        (PLYLoader)
      - auto-calibration.ts           (AutoCalibration)
      - src/gvrm-format/gs.ts         (GSViewer.updateLatentTile)
      - vrm.ts                        (VRMManager)
      - gvrm.ts                       (GVRM.loadAssets, GVRM.updateLipSync)

    The TypeScript code computes with JavaScript numbers.  Every definition
    below is written once, over an interface [JSNumber] of the operations the
    code uses, and the interface has two implementations:
      - [ExactNumber]: exact rational arithmetic (no rounding) extended with
        the infinities and NaN, with the transcendental functions of [Math]
        left as parameters;
      - [F64Number]: IEEE-754 binary64 as the kernel's primitive floats, with
        float32 rounding for typed-array stores.
    Structural properties are proved for every implementation of the
    interface; properties of the arithmetic are proved for the exact one,
    and those that rest on comparisons, [Math.min] and [Math.max] for
    binary64 with its NaN, infinities, signed zeros and rounding. *)

From Stdlib Require Import ZArith QArith Qround Qcanon Floats SpecFloat.
From Stdlib Require Import Strings.String Strings.Ascii Strings.Byte.
From Stdlib Require Import List Permutation Sorted Lia.
From stdpp Require Import base option list sorting gmap.

Set Default Proof Using "Type".
Local Open Scope Z_scope.

(* ===================================================================== *)
(** * JavaScript numbers *)
(* ===================================================================== *)

(** The operations on [number] that the pipeline uses.  [lit q] is the
    numeric literal (or integer) whose mathematical value is [q]. *)
Class JSNumber (num : Type) := {
  lit : Q -> num;
  Infinity : num;
  add : num -> num -> num;
  sub : num -> num -> num;
  mul : num -> num -> num;
  div : num -> num -> num;
  neg : num -> num;
  ltb : num -> num -> bool;               (* a < b *)
  leb : num -> num -> bool;               (* a <= b *)
  NaN : num;                              (* what [undefined] converts to *)
  isNaN : num -> bool;
  isFinite : num -> bool;
  Math_PI : num;
  Math_abs : num -> num;
  Math_sqrt : num -> num;
  Math_sin : num -> num;
  Math_cos : num -> num;
  Math_min : num -> num -> num;
  Math_max : num -> num -> num;
  floorZ : num -> Z;                      (* Math.floor, as an array index *)
  fround : num -> num;                    (* the rounding of a Float32Array store *)
  f32_of_bits : Z -> num                  (* the float32 with this bit pattern *)
}.

Declare Scope js_scope.
Delimit Scope js_scope with js.
Notation "x + y" := (add x y) : js_scope.
Notation "x - y" := (sub x y) : js_scope.
Notation "x * y" := (mul x y) : js_scope.
Notation "x / y" := (div x y) : js_scope.
Notation "- x" := (neg x) : js_scope.
Notation "x <? y" := (ltb x y) : js_scope.
Notation "x <=? y" := (leb x y) : js_scope.
Notation "x >? y" := (ltb y x) : js_scope.
Notation "x >=? y" := (leb y x) : js_scope.

(** Decimal literals: [dec n k] is [n / 10^k], e.g. [dec 170 2] for [1.70]. *)
Definition dec {num : Type} `{!JSNumber num} (n : Z) (k : nat) : num :=
  lit (n # Pos.of_nat (10 ^ k)).
(** An integer used as a number (array lengths, loop counters). *)
Definition ofZ {num : Type} `{!JSNumber num} (n : Z) : num := lit (inject_Z n).
(** [Math.pow(x, 2)] and [x ** 2]. *)
Definition sq {num : Type} `{!JSNumber num} (x : num) : num := (x * x)%js.

(* --------------------------------------------------------------------- *)
(** ** Exact arithmetic with the special values *)

(** A number is a rational, an infinity or NaN.  Finite values are computed
    exactly (no rounding, no overflow, one zero); the special values follow
    IEEE-754: [x / 0] is an infinity or NaN, [Infinity - Infinity] and
    [0 * Infinity] are NaN, NaN compares false with everything, and
    [Math.min] and [Math.max] return NaN when an argument is NaN. *)
Inductive ExNum : Type :=
  | Fin (q : Qc)
  | PInf
  | NInf
  | Nan.

Definition Qc_ltb (a b : Qc) : bool :=
  match (a ?= b)%Qc with Lt => true | _ => false end.
Definition Qc_leb (a b : Qc) : bool :=
  match (a ?= b)%Qc with Gt => false | _ => true end.

Definition Ex_neg (a : ExNum) : ExNum :=
  match a with
  | Fin q => Fin (- q)%Qc
  | PInf => NInf
  | NInf => PInf
  | Nan => Nan
  end.

Definition Ex_add (a b : ExNum) : ExNum :=
  match a, b with
  | Nan, _ | _, Nan => Nan
  | Fin x, Fin y => Fin (x + y)%Qc
  | PInf, NInf | NInf, PInf => Nan
  | PInf, _ | _, PInf => PInf
  | NInf, _ | _, NInf => NInf
  end.

Definition Ex_sub (a b : ExNum) : ExNum := Ex_add a (Ex_neg b).

(** The infinity with the sign of [q], NaN for [q = 0]. *)
Definition Ex_signed_inf (positive : bool) (q : Qc) : ExNum :=
  match (q ?= 0)%Qc with
  | Eq => Nan
  | Gt => if positive then PInf else NInf
  | Lt => if positive then NInf else PInf
  end.

Definition Ex_mul (a b : ExNum) : ExNum :=
  match a, b with
  | Nan, _ | _, Nan => Nan
  | Fin x, Fin y => Fin (x * y)%Qc
  | PInf, Fin q | Fin q, PInf => Ex_signed_inf true q
  | NInf, Fin q | Fin q, NInf => Ex_signed_inf false q
  | PInf, PInf | NInf, NInf => PInf
  | PInf, NInf | NInf, PInf => NInf
  end.

Definition Ex_div (a b : ExNum) : ExNum :=
  match a, b with
  | Nan, _ | _, Nan => Nan
  | Fin x, Fin y =>
      match (y ?= 0)%Qc with
      | Eq => Ex_signed_inf true x
      | _ => Fin (x / y)%Qc
      end
  | Fin _, _ => Fin 0%Qc
  | PInf, Fin q => if Qc_ltb q 0%Qc then NInf else PInf
  | NInf, Fin q => if Qc_ltb q 0%Qc then PInf else NInf
  | _, _ => Nan
  end.

Definition Ex_ltb (a b : ExNum) : bool :=
  match a, b with
  | Nan, _ | _, Nan => false
  | Fin x, Fin y => Qc_ltb x y
  | NInf, NInf | PInf, _ => false
  | NInf, _ | _, PInf => true
  | _, NInf => false
  end.

Definition Ex_leb (a b : ExNum) : bool :=
  match a, b with
  | Nan, _ | _, Nan => false
  | Fin x, Fin y => Qc_leb x y
  | NInf, _ | _, PInf => true
  | _, _ => false
  end.

Definition Ex_isNaN (a : ExNum) : bool :=
  match a with Nan => true | _ => false end.
Definition Ex_isFinite (a : ExNum) : bool :=
  match a with Fin _ => true | _ => false end.

Definition Ex_abs (a : ExNum) : ExNum :=
  match a with
  | Fin q => Fin (if Qc_ltb q 0%Qc then (- q)%Qc else q)
  | Nan => Nan
  | _ => PInf
  end.

Definition Ex_min (a b : ExNum) : ExNum :=
  match a, b with
  | Nan, _ | _, Nan => Nan
  | _, _ => if Ex_leb a b then a else b
  end.
Definition Ex_max (a b : ExNum) : ExNum :=
  match a, b with
  | Nan, _ | _, Nan => Nan
  | _, _ => if Ex_leb a b then b else a
  end.

(** A function of [Math] on the reals, lifted: NaN outside its domain. *)
Definition Ex_sqrt (qsqrt : Qc -> Qc) (a : ExNum) : ExNum :=
  match a with
  | Fin q => if Qc_ltb q 0%Qc then Nan else Fin (qsqrt q)
  | PInf => PInf
  | _ => Nan
  end.
Definition Ex_trig (f : Qc -> Qc) (a : ExNum) : ExNum :=
  match a with
  | Fin q => Fin (f q)
  | _ => Nan
  end.

Definition Ex_floorZ (a : ExNum) : Z :=
  match a with Fin q => Qfloor (this q) | _ => 0 end.

(** The value of a float32 bit pattern. *)
Definition Ex_of_f32_bits (bits : Z) : ExNum :=
  let s := Z.testbit bits 31 in
  let e := Z.land (Z.shiftr bits 23) 255 in
  let m := Z.land bits 8388607 in
  if e =? 255 then
    (if m =? 0 then (if s then NInf else PInf) else Nan)
  else
    let mag : Q :=
      if e =? 0 then (inject_Z m * (1 # Pos.pow 2 149))%Q
      else if e <? 150
      then (inject_Z (8388608 + m) * (1 # Pos.pow 2 (Z.to_pos (150 - e))))%Q
      else inject_Z ((8388608 + m) * 2 ^ (e - 150)) in
    Fin (Q2Qc (if s then Qopp mag else mag)).

(** [Math.PI], [Math.sqrt], [Math.sin] and [Math.cos] are not rational:
    their values are parameters of the exact implementation. *)
Definition ExactNumber (qpi : Qc) (qsqrt qsin qcos : Qc -> Qc) : JSNumber ExNum := {|
  lit := fun q => Fin (Q2Qc q);
  Infinity := PInf;
  add := Ex_add; sub := Ex_sub; mul := Ex_mul; div := Ex_div; neg := Ex_neg;
  ltb := Ex_ltb; leb := Ex_leb;
  NaN := Nan;
  isNaN := Ex_isNaN;
  isFinite := Ex_isFinite;
  Math_PI := Fin qpi;
  Math_abs := Ex_abs;
  Math_sqrt := Ex_sqrt qsqrt; Math_sin := Ex_trig qsin; Math_cos := Ex_trig qcos;
  Math_min := Ex_min; Math_max := Ex_max;
  floorZ := Ex_floorZ;
  fround := fun x => x;
  f32_of_bits := Ex_of_f32_bits
|}.

(* --------------------------------------------------------------------- *)
(** ** IEEE-754 binary64 *)

Definition F64_isNaN (x : float) : bool := negb (PrimFloat.eqb x x).
Definition F64_isFinite (x : float) : bool :=
  negb (F64_isNaN x) && negb (PrimFloat.eqb (PrimFloat.abs x) infinity).

(** Rounding to the nearest float32 (ties to even), as [Math.fround]. *)
Definition F64_fround (x : float) : float :=
  match Prim2SF x with
  | S754_finite s m e =>
      SF2Prim (binary_normalize 24 128 (if s then Z.neg m else Z.pos m) e s)
  | _ => x
  end.

Definition F64_of_Z (n : Z) : float :=
  match n with
  | Z0 => PrimFloat.zero
  | Zpos p => SF2Prim (binary_normalize 53 1024 (Z.pos p) 0 false)
  | Zneg p => SF2Prim (binary_normalize 53 1024 (Z.neg p) 0 true)
  end.

(** A literal denotes the double nearest to its decimal value; for the
    literals of this program numerator and denominator are exact doubles, so
    the correctly rounded quotient is that double. *)
Definition F64_lit (q : Q) : float :=
  PrimFloat.div (F64_of_Z (Qnum q)) (F64_of_Z (Z.pos (Qden q))).

(** [Math.min] and [Math.max] return NaN when an argument is NaN and order
    -0 below +0. *)
Definition F64_min (a b : float) : float :=
  if F64_isNaN a then a else if F64_isNaN b then b
  else if PrimFloat.ltb a b then a else if PrimFloat.ltb b a then b
  else if PrimFloat.ltb (PrimFloat.div PrimFloat.one a) PrimFloat.zero then a else b.
Definition F64_max (a b : float) : float :=
  if F64_isNaN a then a else if F64_isNaN b then b
  else if PrimFloat.ltb a b then b else if PrimFloat.ltb b a then a
  else if PrimFloat.ltb (PrimFloat.div PrimFloat.one a) PrimFloat.zero then b else a.

Definition F64_floorZ (x : float) : Z :=
  match Prim2SF x with
  | S754_finite s m e =>
      let v := if s then Z.neg m else Z.pos m in
      if 0 <=? e then v * 2 ^ e else v / 2 ^ (- e)
  | _ => 0
  end.

Definition F64_of_f32_bits (bits : Z) : float :=
  let s := Z.testbit bits 31 in
  let e := Z.land (Z.shiftr bits 23) 255 in
  let m := Z.land bits 8388607 in
  if e =? 255 then
    (if m =? 0 then (if s then neg_infinity else infinity) else nan)
  else if e =? 0 then
    (match m with
     | Zpos p => SF2Prim (S754_finite s p (-149))
     | _ => if s then PrimFloat.opp PrimFloat.zero else PrimFloat.zero
     end)
  else SF2Prim (S754_finite s (Z.to_pos (8388608 + m)) (e - 150)).

Definition F64Number (fsin fcos : float -> float) : JSNumber float := {|
  lit := F64_lit;
  Infinity := infinity;
  add := PrimFloat.add; sub := PrimFloat.sub; mul := PrimFloat.mul;
  div := PrimFloat.div; neg := PrimFloat.opp;
  ltb := PrimFloat.ltb; leb := PrimFloat.leb;
  NaN := nan;
  isNaN := F64_isNaN;
  isFinite := F64_isFinite;
  Math_PI := 0x1.921fb54442d18p+1%float;
  Math_abs := PrimFloat.abs;
  Math_sqrt := PrimFloat.sqrt; Math_sin := fsin; Math_cos := fcos;
  Math_min := F64_min; Math_max := F64_max;
  floorZ := F64_floorZ;
  fround := F64_fround;
  f32_of_bits := F64_of_f32_bits
|}.

(* ===================================================================== *)
(** * Arrays, objects and exceptions *)
(* ===================================================================== *)

(** A thrown exception. *)
Inductive JSError : Type :=
  | TypeError
  | RangeError
  | Error (message : string).

(** The outcome of a computation that may throw. *)
Inductive result (A : Type) : Type :=
  | Ok (a : A)
  | Throw (e : JSError).
Arguments Ok {A} a.
Arguments Throw {A} e.

#[global] Instance result_ret : MRet result := fun A a => Ok a.
#[global] Instance result_bind : MBind result := fun A B f r =>
  match r with
  | Ok a => f a
  | Throw e => Throw e
  end.

(** [for (let i = 0; i < n; i++) body(i)], collecting what each round
    produces; the first exception ends the loop. *)
Fixpoint for_each {A B : Type} (body : A -> result B) (l : list A) : result (list B) :=
  match l with
  | [] => Ok []
  | i :: l' =>
      match body i with
      | Throw e => Throw e
      | Ok b => match for_each body l' with
                | Throw e => Throw e
                | Ok bs => Ok (b :: bs)
                end
      end
  end.

(** An object whose keys are array indices ([Record<number, T>]): JavaScript
    enumerates such keys in ascending numeric order, whatever the order of
    the assignments.  The entries are kept in that order. *)
Definition IntObject (T : Type) : Type := list (Z * T).

Fixpoint obj_set {T : Type} (k : Z) (v : T) (o : IntObject T) : IntObject T :=
  match o with
  | [] => [(k, v)]
  | (k', v') :: o' =>
      if k <? k' then (k, v) :: (k', v') :: o'
      else if k =? k' then (k, v) :: o'
      else (k', v') :: obj_set k v o'
  end.

Fixpoint obj_get {T : Type} (k : Z) (o : IntObject T) : option T :=
  match o with
  | [] => None
  | (k', v') :: o' => if k =? k' then Some v' else obj_get k o'
  end.

Definition Object_entries {T : Type} (o : IntObject T) : list (Z * T) := o.

(** [l.sort(cmp)]: a stable sort; [a] stays ahead of a later [b] unless
    [cmp(b, a) < 0].  This is the order the language prescribes for a
    comparator that orders its arguments consistently; when [cmp] returns
    NaN (a NaN or two equal infinities among the keys) the language leaves
    the order to the engine, and this definition treats NaN as "not
    less". *)
Section Array_sort.
Context {num : Type} `{!JSNumber num} {A : Type} (cmp : A -> A -> num).

Fixpoint sort_insert (x : A) (l : list A) : list A :=
  match l with
  | [] => [x]
  | e :: l' =>
      if (cmp e x <? lit 0)%js then e :: sort_insert x l' else x :: e :: l'
  end.

Fixpoint Array_sort (l : list A) : list A :=
  match l with
  | [] => []
  | x :: l' => sort_insert x (Array_sort l')
  end.
End Array_sort.

(* ===================================================================== *)
(** * Strings *)
(* ===================================================================== *)

Local Open Scope string_scope.

(** [s.startsWith(p)] *)
Fixpoint startsWith (p s : string) : bool :=
  match p, s with
  | EmptyString, _ => true
  | String a p', String b s' => if Ascii.eqb a b then startsWith p' s' else false
  | String _ _, EmptyString => false
  end.

(** [s.indexOf(needle)]: the first position of [needle], or [-1]. *)
Fixpoint indexOf (needle s : string) : Z :=
  if startsWith needle s then 0
  else match s with
       | EmptyString => -1
       | String _ s' => let r := indexOf needle s' in if (r <? 0)%Z then -1 else r + 1
       end.

Fixpoint string_drop (n : nat) (s : string) : string :=
  match n, s with
  | O, _ => s
  | S n', String _ s' => string_drop n' s'
  | S _, EmptyString => EmptyString
  end.

(** The class [\d] of a regular expression without the [u] flag. *)
Definition is_digit (c : ascii) : bool :=
  let n := N_of_ascii c in (48 <=? n)%N && (n <=? 57)%N.

(** The longest run of digits at the start of [s]: what [(\d+)] captures. *)
Fixpoint leading_digits (s : string) : string :=
  match s with
  | String c s' => if is_digit c then String c (leading_digits s') else EmptyString
  | EmptyString => EmptyString
  end.

(** A match of [/element vertex (\d+)/] starting at the first character:
    the capture group. *)
Definition match_vertex_here (s : string) : option string :=
  if startsWith "element vertex " s then
    match leading_digits (string_drop 15 s) with
    | EmptyString => None
    | digits => Some digits
    end
  else None.

(** [s.match(/element vertex (\d+)/)]: the capture group of the leftmost
    match, [None] for [null]. *)
Fixpoint match_vertex (s : string) : option string :=
  match match_vertex_here s with
  | Some digits => Some digits
  | None => match s with
            | EmptyString => None
            | String _ s' => match_vertex s'
            end
  end.

(** [parseInt] of a run of digits. *)
Definition parseInt (digits : string) : Z :=
  fold_left (fun acc c => 10 * acc + (Z.of_N (N_of_ascii c) - 48))
            (list_ascii_of_string digits) 0.

(** [s.split(sep)] for a one-character separator. *)
Fixpoint split (sep : ascii) (s : string) : list string :=
  match s with
  | EmptyString => [EmptyString]
  | String c s' =>
      if Ascii.eqb c sep then EmptyString :: split sep s'
      else match split sep s' with
           | w :: ws => String c w :: ws
           | [] => [String c EmptyString]
           end
  end.

Definition is_space (c : ascii) : bool :=
  let n := N_of_ascii c in ((9 <=? n)%N && (n <=? 13)%N) || (n =? 32)%N.

Fixpoint trimStart (s : string) : string :=
  match s with
  | String c s' => if is_space c then trimStart s' else s
  | EmptyString => EmptyString
  end.

Fixpoint trimEnd (s : string) : string :=
  match s with
  | EmptyString => EmptyString
  | String c s' =>
      match trimEnd s' with
      | EmptyString => if is_space c then EmptyString else String c EmptyString
      | t => String c t
      end
  end.

(** [s.trim()] *)
Definition trim (s : string) : string := trimEnd (trimStart s).

(** [a.indexOf(x)] on an array of strings. *)
Fixpoint Array_indexOf (x : string) (a : list string) : Z :=
  match a with
  | [] => -1
  | y :: a' =>
      if String.eqb x y then 0
      else let r := Array_indexOf x a' in if (r <? 0)%Z then -1 else r + 1
  end.

(** [new TextDecoder().decode(bytes)] on a header written in ASCII: one
    character per byte, so that an index into the text is a byte offset.
    A byte from 0x80 on, which the UTF-8 decoder would merge with its
    neighbours or replace, is kept as one character that is not ASCII; the
    ASCII text of the header, its [element vertex] line included, reads the
    same either way. *)
Definition TextDecoder_decode (bytes : list byte) : string :=
  string_of_list_ascii (map ascii_of_byte bytes).

(** The names of the [property float <name>] lines, in order. *)
Definition header_props (headerText : string) : list string :=
  map (fun l => trim (List.last (split " " l) EmptyString))
      (List.filter (fun l => startsWith "property float" l) (split "010" headerText)).

Local Close Scope string_scope.

(* ===================================================================== *)
(** * THREE.Vector3, and a typed array of positions *)
(* ===================================================================== *)

Section Pipeline.
Context {num : Type} `{!JSNumber num}.
Local Open Scope js_scope.

Record Vector3 : Type := mkVector3 { vx : num; vy : num; vz : num }.

Definition Vector3_add (a b : Vector3) : Vector3 :=
  mkVector3 (vx a + vx b) (vy a + vy b) (vz a + vz b).
Definition Vector3_multiplyScalar (a : Vector3) (s : num) : Vector3 :=
  mkVector3 (vx a * s) (vy a * s) (vz a * s).
Definition Vector3_divideScalar (a : Vector3) (s : num) : Vector3 :=
  Vector3_multiplyScalar a (lit 1 / s).

(** A [Float32Array] of positions holds [x, y, z] of point [i] at
    [3i, 3i+1, 3i+2].  Reading past the end gives [undefined]. *)
Fixpoint points_of (positions : list num) : list Vector3 :=
  match positions with
  | x :: y :: z :: rest => mkVector3 x y z :: points_of rest
  | [x; y] => [mkVector3 x y NaN]
  | [x] => [mkVector3 x NaN NaN]
  | [] => []
  end.

Fixpoint positions_of (points : list Vector3) : list num :=
  match points with
  | [] => []
  | p :: rest => vx p :: vy p :: vz p :: positions_of rest
  end.

(* =================================================================== *)
(** * AutoCalibration *)
(* =================================================================== *)

Record BoundingBox : Type := mkBoundingBox {
  bb_min : Vector3;
  bb_max : Vector3;
  bb_center : Vector3;
  bb_size : Vector3
}.

(** One round of the loop of [computeBoundingBox]. *)
Definition bbox_step (mm : Vector3 * Vector3) (p : Vector3) : Vector3 * Vector3 :=
  let '(mn, mx) := mm in
  (mkVector3 (Math_min (vx mn) (vx p)) (Math_min (vy mn) (vy p)) (Math_min (vz mn) (vz p)),
   mkVector3 (Math_max (vx mx) (vx p)) (Math_max (vy mx) (vy p)) (Math_max (vz mx) (vz p))).

Definition computeBoundingBox (positions : list num) : BoundingBox :=
  let min0 := mkVector3 Infinity Infinity Infinity in
  let max0 := mkVector3 (- Infinity) (- Infinity) (- Infinity) in
  let '(mn, mx) := fold_left bbox_step (points_of positions) (min0, max0) in
  let center := mkVector3 ((vx mn + vx mx) / lit 2)
                          ((vy mn + vy mx) / lit 2)
                          ((vz mn + vz mx) / lit 2) in
  let size := mkVector3 (vx mx - vx mn) (vy mx - vy mn) (vz mx - vz mn) in
  mkBoundingBox mn mx center size.

Record ScaleInfo : Type := mkScaleInfo {
  scaleFactor : num;
  normalizedHeight : num
}.

Definition computeAdaptiveScale (bbox : BoundingBox) (targetHeight : num) : ScaleInfo :=
  let rawHeight := vy (bb_size bbox) in
  mkScaleInfo (targetHeight / rawHeight) targetHeight.

(** Pass 2 of [PLYLoader.load]: scale, centre on X and Z, floor on Y. *)
Definition normalizePoint (bbox : BoundingBox) (scale : num) (p : Vector3) : Vector3 :=
  mkVector3 (fround ((vx p - vx (bb_center bbox)) * scale))
            (fround ((vy p - vy (bb_min bbox)) * scale))
            (fround ((vz p - vz (bb_center bbox)) * scale)).

Definition normalizePositions (rawPositions : list num) (bbox : BoundingBox)
    (scale : num) : list num :=
  positions_of (map (normalizePoint bbox scale) (points_of rawPositions)).

(* =================================================================== *)
(** * PLYLoader: bone detection, template points, rigging *)
(* =================================================================== *)

Record TemplatePoint : Type := mkTemplatePoint {
  tx : num; ty : num; tz : num; bone : Z
}.

Record BonePosition : Type := mkBonePosition {
  position : Vector3;
  radius : num
}.

Inductive Axis : Type := AxisX | AxisY | AxisZ.
Definition coord (axis : Axis) (p : Vector3) : num :=
  match axis with AxisX => vx p | AxisY => vy p | AxisZ => vz p end.

Definition array_length {A : Type} (l : list A) : Z := Z.of_nat (length l).

(** [getPointsInRange(minY, maxY)]; the calls of this program pass no Z
    range. *)
Definition getPointsInRange (points : list Vector3) (minY maxY : num) : list Vector3 :=
  List.filter (fun p => (vy p >=? minY) && (vy p <=? maxY)) points.

Definition computeCentroid (pts : list Vector3) : Vector3 :=
  if array_length pts =? 0 then mkVector3 (lit 0) (lit 0) (lit 0)
  else
    let sum := fold_left Vector3_add pts (mkVector3 (lit 0) (lit 0) (lit 0)) in
    Vector3_divideScalar sum (ofZ (array_length pts)).

Definition computeStdDev (pts : list Vector3) (axis : Axis) : num :=
  if array_length pts =? 0 then dec 1 1
  else
    let n := ofZ (array_length pts) in
    let mean := fold_left (fun sum p => sum + coord axis p) pts (lit 0) / n in
    let variance :=
      fold_left (fun sum p => sum + sq (coord axis p - mean)) pts (lit 0) / n in
    Math_sqrt variance.

(** The band of a trunk bone: centroid, and the spread on X floored. *)
Definition bandBone (points : list Vector3) (minY maxY minRadius : num) : BonePosition :=
  let pts := getPointsInRange points minY maxY in
  mkBonePosition (computeCentroid pts) (Math_max (computeStdDev pts AxisX) minRadius).

Definition jawRegionPoints (points : list Vector3) (neckCenter : Vector3) : list Vector3 :=
  List.filter (fun p =>
    let isInYRange := (vy p >=? vy neckCenter) && (vy p <=? vy neckCenter + dec 8 2) in
    let isInFront := vz p >? vz neckCenter + dec 2 2 in
    let isNearCenter := Math_abs (vx p - vx neckCenter) <? dec 8 2 in
    isInYRange && isInFront && isNearCenter) points.

Definition jawCandidates (points : list Vector3) (neckCenter : Vector3) : list Vector3 :=
  let sortedJawPoints :=
    Array_sort (fun a b => vy a - vy b) (jawRegionPoints points neckCenter) in
  take (Z.to_nat (Z.max 10 (floorZ (ofZ (array_length sortedJawPoints) * dec 2 1))))
       sortedJawPoints.

Definition jawBone (points : list Vector3) (neckCenter : Vector3) : BonePosition :=
  let candidates := jawCandidates points neckCenter in
  let jawCenter := computeCentroid candidates in
  if (array_length candidates <? 5)%Z || (vy jawCenter <? vy neckCenter)
  then mkBonePosition
         (mkVector3 (vx neckCenter) (vy neckCenter + dec 5 2) (vz neckCenter + dec 8 2))
         (dec 4 2)
  else mkBonePosition jawCenter (dec 4 2).

Definition shoulderPoints (points : list Vector3) (shoulderHeight : num) : list Vector3 :=
  Array_sort (fun a b => vx a - vx b)
    (getPointsInRange points (shoulderHeight - dec 5 2) (shoulderHeight + dec 5 2)).

Definition leftShoulderPoints (sortedByX : list Vector3) : list Vector3 :=
  drop (Z.to_nat (floorZ (ofZ (array_length sortedByX) * dec 8 1))) sortedByX.
Definition rightShoulderPoints (sortedByX : list Vector3) : list Vector3 :=
  take (Z.to_nat (floorZ (ofZ (array_length sortedByX) * dec 2 1))) sortedByX.

Definition detectBonePositions (positions : list num) (bbox : BoundingBox)
    : IntObject BonePosition :=
  let points := points_of positions in
  let height := vy (bb_size bbox) in
  let result : IntObject BonePosition := [] in
  (* 1. Hips (root) *)
  let hips := bandBone points (dec 50 2 * height) (dec 65 2 * height) (dec 12 2) in
  let result := obj_set 0 hips result in
  (* 2. Spine1 *)
  let spine1 := bandBone points (dec 60 2 * height) (dec 75 2 * height) (dec 14 2) in
  let result := obj_set 3 spine1 result in
  (* 3. Chest (Spine3) *)
  let chest := bandBone points (dec 75 2 * height) (dec 88 2 * height) (dec 15 2) in
  let result := obj_set 9 chest result in
  (* 4. Neck *)
  let neck := bandBone points (dec 88 2 * height) (dec 93 2 * height) (dec 6 2) in
  let result := obj_set 12 neck result in
  (* 5. Head *)
  let head := bandBone points (dec 90 2 * height) (dec 10 1 * height) (dec 10 2) in
  let result := obj_set 15 head result in
  (* 6. Jaw *)
  let result := obj_set 22 (jawBone points (position neck)) result in
  (* 7. Shoulders *)
  let sortedByX := shoulderPoints points (vy (position chest)) in
  let result :=
    obj_set 16 (mkBonePosition (computeCentroid (leftShoulderPoints sortedByX)) (dec 6 2))
            result in
  let result :=
    obj_set 17 (mkBonePosition (computeCentroid (rightShoulderPoints sortedByX)) (dec 6 2))
            result in
  result.

(** The counters [0, 1, ..., density] of the two nested loops of
    [addSphere]. *)
Definition upto (density : Z) : list Z := map Z.of_nat (seq 0 (S (Z.to_nat density))).

Definition addSphere (boneIdx : Z) (center : Vector3) (radius : num) (density : Z)
    : list TemplatePoint :=
  if boneIdx =? 22 then
    (* the jaw: a half shell turned to the front *)
    i ← upto density;
    j ← upto density;
    let phi := (ofZ i / ofZ density) * Math_PI - Math_PI / lit 2 in
    let theta := (ofZ j / ofZ density) * Math_PI - Math_PI / lit 2 in
    let x := vx center + radius * Math_cos phi * Math_sin (theta + Math_PI / lit 2) in
    let y := vy center + radius * Math_sin phi in
    let z := vz center + radius * Math_cos phi * Math_cos (theta + Math_PI / lit 2) in
    [mkTemplatePoint x y z boneIdx]
  else
    let phi := Math_PI / lit 4 in
    let theta := Math_PI / lit 3 in
    i ← upto density;
    j ← upto density;
    let p := ofZ i / ofZ density * phi in
    let t := ofZ j / ofZ density * theta * lit 2 in
    let x := vx center + radius * Math_sin p * Math_cos t in
    let y := vy center + radius * Math_cos p in
    let z := vz center + radius * Math_sin p * Math_sin t in
    [mkTemplatePoint x y z boneIdx].

Definition generateTemplatePoints (bonePositions : IntObject BonePosition)
    : list TemplatePoint :=
  '(boneIdx, b) ← Object_entries bonePositions;
  let density := if boneIdx =? 22 then 8 else if boneIdx =? 15 then 5 else 4 in
  addSphere boneIdx (position b) (radius b) density.

(** The nearest-template search of pass 3: one round of the inner loop on
    the pair [(bestBone, minDistSq)]. *)
Definition nearest_step (x y z : num) (best : Z * num) (tp : TemplatePoint) : Z * num :=
  let distSq := sq (x - tx tp) + sq (y - ty tp) + sq (z - tz tp) in
  if distSq <? snd best then (bone tp, distSq) else best.

Definition bestBone (templatePoints : list TemplatePoint) (p : Vector3) : Z :=
  fst (fold_left (nearest_step (vx p) (vy p) (vz p)) templatePoints (0, Infinity)).

(** Passes 2 and 3 of [PLYLoader.load] on the raw positions: the bone of
    each point, in the order of the points. *)
Record Rigged : Type := mkRigged {
  rig_bbox : BoundingBox;
  rig_scaleInfo : ScaleInfo;
  rig_positions : list num;
  rig_templates : list TemplatePoint;
  rig_bones : list Z
}.

(** Calibration and pass 2: the normalized positions. *)
Definition normalizedCloud (rawPositions : list num) : list num :=
  let bbox := computeBoundingBox rawPositions in
  let scaleInfo := computeAdaptiveScale bbox (dec 170 2) in
  normalizePositions rawPositions bbox (scaleFactor scaleInfo).

(** Bone detection and template generation on the normalized positions. *)
Definition cloudTemplates (normalizedPositions : list num) : list TemplatePoint :=
  let normalizedBbox := computeBoundingBox normalizedPositions in
  let bonePositions := detectBonePositions normalizedPositions normalizedBbox in
  generateTemplatePoints bonePositions.

Definition rig (rawPositions : list num) : Rigged :=
  let bbox := computeBoundingBox rawPositions in
  let scaleInfo := computeAdaptiveScale bbox (dec 170 2) in
  let normalizedPositions := normalizedCloud rawPositions in
  let templatePoints := cloudTemplates normalizedPositions in
  mkRigged bbox scaleInfo normalizedPositions templatePoints
           (map (bestBone templatePoints) (points_of normalizedPositions)).

(* =================================================================== *)
(** * PLYLoader.load *)
(* =================================================================== *)

(** [new DataView(buffer, byteOffset)]: a [RangeError] when the offset is
    past the end of the buffer. *)
Definition DataView (buffer : list byte) (byteOffset : Z) : result (list byte) :=
  if (array_length buffer <? byteOffset)%Z then Throw RangeError
  else Ok (drop (Z.to_nat byteOffset) buffer).

Definition byte_at (view : list byte) (i : Z) : Z :=
  match view !! Z.to_nat i with
  | Some b => Z.of_N (Byte.to_N b)
  | None => 0
  end.

(** [view.getFloat32(byteOffset, true)]: little-endian; a [RangeError]
    when the four bytes are not all inside the view. *)
Definition getFloat32 (view : list byte) (byteOffset : Z) : result num :=
  if (byteOffset <? 0)%Z || (array_length view <? byteOffset + 4)%Z then Throw RangeError
  else Ok (f32_of_bits (byte_at view byteOffset
                        + 256 * byte_at view (byteOffset + 1)
                        + 65536 * byte_at view (byteOffset + 2)
                        + 16777216 * byte_at view (byteOffset + 3))%Z).

Record PLYData : Type := mkPLYData {
  positions : list num;
  colors : list num;
  boneIndices : list num;
  boneWeights : list num;
  scales : list num;
  calibration : BoundingBox * ScaleInfo;
  boneStats : IntObject Z
}.

(** The rows [0 .. vertexCount-1] of a [for] loop. *)
Definition rows (vertexCount : Z) : list Z := map Z.of_nat (seq 0 (Z.to_nat vertexCount)).

(** Pass 1: the raw position of row [i]. *)
Definition readPosition (view : list byte) (props : list string) (stride i : Z)
    : result Vector3 :=
  let b := (i * stride)%Z in
  x ← getFloat32 view (b + Array_indexOf "x" props * 4)%Z;
  y ← getFloat32 view (b + Array_indexOf "y" props * 4)%Z;
  z ← getFloat32 view (b + Array_indexOf "z" props * 4)%Z;
  Ok (mkVector3 x y z).

(** [read(n)] of pass 3: an absent property reads as 0. *)
Definition readProp (view : list byte) (props : list string) (b : Z) (n : string)
    : result num :=
  let idx := Array_indexOf n props in
  if (idx =? -1)%Z then Ok (lit 0) else getFloat32 view (b + idx * 4)%Z.

(** Pass 3, the attributes of row [i]: colours and scaled scales. *)
Definition readAttributes (view : list byte) (props : list string) (stride : Z)
    (scale : num) (i : Z) : result (list num * list num) :=
  let b := (i * stride)%Z in
  c0 ← readProp view props b "f_dc_0";
  c1 ← readProp view props b "f_dc_1";
  c2 ← readProp view props b "f_dc_2";
  s0 ← readProp view props b "scale_0";
  s1 ← readProp view props b "scale_1";
  s2 ← readProp view props b "scale_2";
  Ok ([c0; c1; c2], [fround (s0 * scale); fround (s1 * scale); fround (s2 * scale)]).

Definition countBone (stats : IntObject Z) (b : Z) : IntObject Z :=
  obj_set b (default 0%Z (obj_get b stats) + 1)%Z stats.

Definition initialBoneStats : IntObject Z :=
  fold_left (fun st idx => obj_set idx 0%Z st) [0; 3; 9; 12; 15; 16; 17; 22]%Z [].

(** [buffer.slice(begin, end)] for [0 <= begin <= end]. *)
Definition ArrayBuffer_slice (buffer : list byte) (begin_ end_ : Z) : list byte :=
  take (Z.to_nat (end_ - begin_)) (drop (Z.to_nat begin_) buffer).

(** [PLYLoader.load], from the bytes that [fetch] delivered.  The size
    limits of typed-array allocation are not modelled. *)
Definition load (buffer : list byte) : result PLYData :=
  let headerText := TextDecoder_decode (ArrayBuffer_slice buffer 0 5000) in
  let headerEndIdx := (indexOf "end_header" headerText + 10)%Z in
  match match_vertex headerText with
  | None => Throw TypeError          (* [null![1]] *)
  | Some digits =>
      let vertexCount := parseInt digits in
      let props := header_props headerText in
      let stride := (array_length props * 4)%Z in
      dataView ← DataView buffer (headerEndIdx + 1)%Z;
      (* pass 1 *)
      rawPoints ← for_each (readPosition dataView props stride) (rows vertexCount);
      (* calibration, pass 2, bone detection and nearest template point *)
      let r := rig (positions_of rawPoints) in
      (* pass 3 *)
      attrs ← for_each (readAttributes dataView props stride
                          (scaleFactor (rig_scaleInfo r))) (rows vertexCount);
      Ok {| positions := rig_positions r;
            colors := concat (map fst attrs);
            boneIndices :=
              concat (map (fun b => [ofZ b; lit 0; lit 0; lit 0]) (rig_bones r));
            boneWeights :=
              concat (map (fun _ => [lit 1; lit 0; lit 0; lit 0]) (rig_bones r));
            scales := concat (map snd attrs);
            calibration := (rig_bbox r, rig_scaleInfo r);
            boneStats := fold_left countBone (rig_bones r) initialBoneStats |}
  end.

(* =================================================================== *)
(** * GSViewer.updateLatentTile *)
(* =================================================================== *)

Inductive LogEntry : Type :=
  | ConsoleError (text : string) (value : Z)
  | ConsoleLog (text : string).

(** A [THREE.BufferAttribute]: the array and its item size. *)
Record BufferAttribute : Type := mkBufferAttribute {
  attr_array : list num;
  attr_itemSize : Z
}.

Record GSViewer : Type := mkGSViewer {
  vertexCount : Z;
  latentData : list num;
  geometry : gmap string BufferAttribute;
  console : list LogEntry
}.

(** What one source slot contributes to the tile.  [latentData] is a
    [Float32Array]: its elements are float32 values, which the store into
    the [Float32Array] tile keeps as they are. *)
Definition tileValue (latent : list num) (srcIdx : Z) : num :=
  if (array_length latent <=? srcIdx)%Z then lit 0
  else
    let value := default NaN (latent !! Z.to_nat srcIdx) in
    if isNaN value then lit 0
    else if negb (isFinite value) then lit 0
    else value.

Definition latentTile (v : GSViewer) (tileIndex : Z) : list num :=
  let startCh := (tileIndex * 4)%Z in
  i ← rows (vertexCount v);
  c ← [0; 1; 2; 3]%Z;
  [tileValue (latentData v) (i * 32 + startCh + c)%Z].

Definition updateLatentTile (v : GSViewer) (tileIndex : Z) : GSViewer :=
  if (tileIndex <? 0)%Z || (8 <=? tileIndex)%Z then
    mkGSViewer (vertexCount v) (latentData v) (geometry v)
      (console v ++ [ConsoleError "[GSViewer] Invalid tileIndex, must be 0-7" tileIndex])
  else
    let tile := latentTile v tileIndex in
    mkGSViewer (vertexCount v) (latentData v)
      (<["latentTile"%string := mkBufferAttribute tile 4]> (geometry v))
      (if (tileIndex =? 0)%Z then console v ++ [ConsoleLog "[GSViewer] Tile 0"]
       else console v).

(* =================================================================== *)
(** * THREE.Euler and THREE.Matrix4 *)
(* =================================================================== *)

Record Euler : Type := mkEuler { ex : num; ey : num; ez : num }.

(** A matrix by its entries [m_row_col]; [elements] lists them by
    columns. *)
Record Matrix4 : Type := mkMatrix4 {
  m11 : num; m12 : num; m13 : num; m14 : num;
  m21 : num; m22 : num; m23 : num; m24 : num;
  m31 : num; m32 : num; m33 : num; m34 : num;
  m41 : num; m42 : num; m43 : num; m44 : num
}.

Definition elements (m : Matrix4) : list num :=
  [m11 m; m21 m; m31 m; m41 m;  m12 m; m22 m; m32 m; m42 m;
   m13 m; m23 m; m33 m; m43 m;  m14 m; m24 m; m34 m; m44 m].

Definition Matrix4_identity : Matrix4 :=
  mkMatrix4 (lit 1) (lit 0) (lit 0) (lit 0)
            (lit 0) (lit 1) (lit 0) (lit 0)
            (lit 0) (lit 0) (lit 1) (lit 0)
            (lit 0) (lit 0) (lit 0) (lit 1).

Definition makeTranslation (x y z : num) : Matrix4 :=
  mkMatrix4 (lit 1) (lit 0) (lit 0) x
            (lit 0) (lit 1) (lit 0) y
            (lit 0) (lit 0) (lit 1) z
            (lit 0) (lit 0) (lit 0) (lit 1).

(** [makeRotationFromEuler] for the default order XYZ. *)
Definition makeRotationFromEuler (euler : Euler) : Matrix4 :=
  let a := Math_cos (ex euler) in let b := Math_sin (ex euler) in
  let c := Math_cos (ey euler) in let d := Math_sin (ey euler) in
  let e := Math_cos (ez euler) in let f := Math_sin (ez euler) in
  let ae := a * e in let af := a * f in let be := b * e in let bf := b * f in
  mkMatrix4 (c * e)       (- c * f)      d          (lit 0)
            (af + be * d) (ae - bf * d)  (- b * c)  (lit 0)
            (bf - ae * d) (be + af * d)  (a * c)    (lit 0)
            (lit 0)       (lit 0)        (lit 0)    (lit 1).

(** [a.multiply(b)], that is [multiplyMatrices(a, b)]. *)
Definition multiply (a b : Matrix4) : Matrix4 :=
  mkMatrix4
    (m11 a * m11 b + m12 a * m21 b + m13 a * m31 b + m14 a * m41 b)
    (m11 a * m12 b + m12 a * m22 b + m13 a * m32 b + m14 a * m42 b)
    (m11 a * m13 b + m12 a * m23 b + m13 a * m33 b + m14 a * m43 b)
    (m11 a * m14 b + m12 a * m24 b + m13 a * m34 b + m14 a * m44 b)
    (m21 a * m11 b + m22 a * m21 b + m23 a * m31 b + m24 a * m41 b)
    (m21 a * m12 b + m22 a * m22 b + m23 a * m32 b + m24 a * m42 b)
    (m21 a * m13 b + m22 a * m23 b + m23 a * m33 b + m24 a * m43 b)
    (m21 a * m14 b + m22 a * m24 b + m23 a * m34 b + m24 a * m44 b)
    (m31 a * m11 b + m32 a * m21 b + m33 a * m31 b + m34 a * m41 b)
    (m31 a * m12 b + m32 a * m22 b + m33 a * m32 b + m34 a * m42 b)
    (m31 a * m13 b + m32 a * m23 b + m33 a * m33 b + m34 a * m43 b)
    (m31 a * m14 b + m32 a * m24 b + m33 a * m34 b + m34 a * m44 b)
    (m41 a * m11 b + m42 a * m21 b + m43 a * m31 b + m44 a * m41 b)
    (m41 a * m12 b + m42 a * m22 b + m43 a * m32 b + m44 a * m42 b)
    (m41 a * m13 b + m42 a * m23 b + m43 a * m33 b + m44 a * m43 b)
    (m41 a * m14 b + m42 a * m24 b + m43 a * m34 b + m44 a * m44 b).

(** [m.toArray(array, offset)] into a [Float32Array]. *)
Definition toArray (m : Matrix4) (array : list num) (offset : Z) : list num :=
  list_inserts (Z.to_nat offset) (map fround (elements m)) array.

(* =================================================================== *)
(** * VRMManager *)
(* =================================================================== *)

Definition SKELETON_POS (boneIndex : Z) : option Vector3 :=
  if (boneIndex =? 0)%Z then Some (mkVector3 (lit 0) (dec 105 2) (lit 0))
  else if (boneIndex =? 3)%Z then Some (mkVector3 (lit 0) (dec 125 2) (lit 0))
  else if (boneIndex =? 6)%Z then Some (mkVector3 (lit 0) (dec 135 2) (lit 0))
  else if (boneIndex =? 9)%Z then Some (mkVector3 (lit 0) (dec 145 2) (lit 0))
  else if (boneIndex =? 12)%Z then Some (mkVector3 (lit 0) (dec 155 2) (lit 0))
  else if (boneIndex =? 15)%Z then Some (mkVector3 (lit 0) (dec 165 2) (dec 5 2))
  else if (boneIndex =? 16)%Z then Some (mkVector3 (dec 22 2) (dec 142 2) (lit 0))
  else if (boneIndex =? 17)%Z then Some (mkVector3 (dec (-22) 2) (dec 142 2) (lit 0))
  else if (boneIndex =? 22)%Z then Some (mkVector3 (lit 0) (dec 160 2) (dec 8 2))
  else None.

Definition HIERARCHY (boneIndex : Z) : option Z :=
  if (boneIndex =? 3)%Z then Some 0%Z
  else if (boneIndex =? 6)%Z then Some 3%Z
  else if (boneIndex =? 9)%Z then Some 6%Z
  else if (boneIndex =? 12)%Z then Some 9%Z
  else if (boneIndex =? 15)%Z then Some 12%Z
  else if (boneIndex =? 22)%Z then Some 15%Z
  else if (boneIndex =? 16)%Z then Some 9%Z
  else if (boneIndex =? 17)%Z then Some 9%Z
  else None.

Record VRMManager : Type := mkVRMManager {
  matrices : list num;
  lipSyncLevel : num;
  localRotations : gmap Z Euler
}.

Definition zeroEuler : Euler := mkEuler (lit 0) (lit 0) (lit 0).

(** One round of the loop of [resetPose]. *)
Definition resetPose_step (st : list num * gmap Z Euler) (i : Z) : list num * gmap Z Euler :=
  (toArray Matrix4_identity (fst st) (i * 16)%Z, <[i := zeroEuler]> (snd st)).

Definition resetPose (m : VRMManager) : VRMManager :=
  let '(mats, rots) := fold_left resetPose_step (rows 64) (matrices m, localRotations m) in
  mkVRMManager mats (lipSyncLevel m) rots.

(** [new VRMManager()] *)
Definition VRMManager_new : VRMManager :=
  resetPose (mkVRMManager (replicate (16 * 64) (lit 0)) (lit 0) ∅).

Definition setLipSync (m : VRMManager) (level : num) : VRMManager :=
  mkVRMManager (matrices m) level (localRotations m).

Definition getPivotMatrix (boneIndex : Z) (rotation : Euler) : Matrix4 :=
  let pivot := default (mkVector3 (lit 0) (lit 0) (lit 0)) (SKELETON_POS boneIndex) in
  let m := makeTranslation (vx pivot) (vy pivot) (vz pivot) in
  let r := makeRotationFromEuler rotation in
  let m := multiply m r in
  let tInv := makeTranslation (- vx pivot) (- vy pivot) (- vz pivot) in
  multiply m tInv.

Definition SOLVED_BONES : list Z := [0; 3; 6; 9; 12; 15; 16; 17; 22]%Z.

(** The global matrix of bone [idx], given the ones computed so far. *)
Definition globalMatrix (rots : gmap Z Euler) (globalMatrices : gmap Z Matrix4)
    (idx : Z) : Matrix4 :=
  let rot := default zeroEuler (rots !! idx) in
  let localMat := getPivotMatrix idx rot in
  match HIERARCHY idx with
  | Some parentIdx =>
      match globalMatrices !! parentIdx with
      | Some parent => multiply parent localMat
      | None => localMat
      end
  | None => localMat
  end.

(** One round of the loop of [solveHierarchy], on [globalMatrices] and
    [this.matrices]. *)
Definition solve_step (rots : gmap Z Euler) (st : gmap Z Matrix4 * list num) (idx : Z)
    : gmap Z Matrix4 * list num :=
  let '(globalMatrices, mats) := st in
  let g := globalMatrix rots globalMatrices idx in
  (<[idx := g]> globalMatrices, toArray g mats (idx * 16)%Z).

Definition solveHierarchy (m : VRMManager) : VRMManager :=
  let '(_, mats) := fold_left (solve_step (localRotations m)) SOLVED_BONES (∅, matrices m) in
  mkVRMManager mats (lipSyncLevel m) (localRotations m).

(** [update()], with the clock's elapsed time as an input: the manager
    after the tick and the returned copy of the matrices. *)
Definition update (m : VRMManager) (time : num) : VRMManager * list num :=
  let rots := localRotations m in
  let rots := <[0%Z := mkEuler (lit 0) (lit 0) (lit 0)]> rots in
  let rots := <[9%Z := mkEuler (Math_sin (time * dec 15 1) * dec 15 3) (lit 0) (lit 0)]> rots in
  let rots := <[15%Z := mkEuler (Math_sin (time * dec 4 1) * dec 1 2)
                                (Math_sin (time * dec 25 2) * dec 1 2) (lit 0)]> rots in
  let rots := <[22%Z := mkEuler (lipSyncLevel m * dec 5 1) (lit 0) (lit 0)]> rots in
  let rots := <[16%Z := mkEuler (dec 1 1) (lit 0) (dec (-12) 1)]> rots in
  let rots := <[17%Z := mkEuler (dec 1 1) (lit 0) (dec 12 1)]> rots in
  let m' := solveHierarchy (mkVRMManager (matrices m) (lipSyncLevel m) rots) in
  (m', matrices m').

(* =================================================================== *)
(** * GVRM *)
(* =================================================================== *)

(** What [loadAssets] gets from outside: the bytes [fetch] delivers for
    the point cloud; the part of the [try] block between [PLYLoader.load]
    and [this.viewer = new GSViewer(...)] (model initialisation, feature
    extraction, vertex mapping), which may throw; and the removal of the
    loading indicators from the page after [isReady] is set. *)
Record Assets : Type := mkAssets {
  fetchPly : result (list byte);
  buildViewer : PLYData -> result GSViewer;
  removeIndicators : result unit
}.

Record GVRM : Type := mkGVRM {
  vrm : VRMManager;
  viewer : option GSViewer;
  isReady : bool
}.

(** The [try] block of [loadAssets] up to the construction of the
    viewer. *)
Definition loadAssets_try (env : Assets) : result GSViewer :=
  buffer ← fetchPly env;
  data ← load buffer;
  buildViewer env data.

(** [loadAssets(plyUrl)]: the instance afterwards and the returned
    boolean; the [catch] returns [false]. *)
Definition loadAssets (g : GVRM) (env : Assets) : GVRM * bool :=
  match loadAssets_try env with
  | Throw _ => (g, false)
  | Ok v =>
      let g' := mkGVRM (vrm g) (Some v) true in
      match removeIndicators env with
      | Ok _ => (g', true)
      | Throw _ => (g', false)
      end
  end.

Definition updateLipSync (g : GVRM) (level : num) : GVRM :=
  mkGVRM (setLipSync (vrm g) level) (viewer g) (isReady g).

(** How far the jaw is open after the next tick: the X angle of the local
    rotation of bone 22. *)
Definition jawAngle (g : GVRM) (time : num) : option num :=
  ex <$> localRotations (fst (update (vrm g) time)) !! 22%Z.
End Pipeline.

Arguments Vector3 num : clear implicits.
Arguments BoundingBox num : clear implicits.
Arguments ScaleInfo num : clear implicits.
Arguments TemplatePoint num : clear implicits.
Arguments BonePosition num : clear implicits.
Arguments Rigged num : clear implicits.
Arguments PLYData num : clear implicits.
Arguments BufferAttribute num : clear implicits.
Arguments GSViewer num : clear implicits.
Arguments Euler num : clear implicits.
Arguments Matrix4 num : clear implicits.
Arguments VRMManager num : clear implicits.
Arguments Assets num : clear implicits.
Arguments GVRM num : clear implicits.

(* ===================================================================== *)
(** * Rational stand-ins for [Math], to run the exact implementation *)
(* ===================================================================== *)

(** Rounding to twelve decimals. *)
Definition round12 (q : Qc) : Qc :=
  Q2Qc (Qfloor (this q * inject_Z (10 ^ 12) + (1 # 2)) # Pos.pow 10 12).

Definition PI_12 : Qc := Q2Qc (3141592653590 # Pos.pow 10 12).

(** The Taylor series of sine ([i = 1], first term [x]) and cosine ([i = 0],
    first term 1) in fixed point with sixteen decimals:
    [term_{k+1} = - term_k * x^2 / ((i+1)(i+2))], [i] advancing by 2. *)
Definition fixed_one : Z := 10 ^ 16.

Fixpoint taylor (n : nat) (x2 term i : Z) : Z :=
  match n with
  | O => 0
  | S n' => term + taylor n' x2 (- term * x2 / (fixed_one * ((i + 1) * (i + 2)))) (i + 2)
  end.

Definition to_fixed (x : Qc) : Z := Qfloor (this x * inject_Z fixed_one).
Definition of_fixed (v : Z) : Qc := Q2Qc ((v + 5000) / 10000 # Pos.pow 10 12).

Definition sin_12 (x : Qc) : Qc :=
  let X := to_fixed x in of_fixed (taylor 16 (X * X / fixed_one) X 1).
Definition cos_12 (x : Qc) : Qc :=
  let X := to_fixed x in of_fixed (taylor 16 (X * X / fixed_one) fixed_one 0).

(** Heron's iteration from [1 + q], rounded. *)
Fixpoint heron (n : nat) (q x : Qc) : Qc :=
  match n with
  | O => x
  | S n' => heron n' q (round12 ((x + q / x) / Q2Qc 2))%Qc
  end.
Definition sqrt_12 (q : Qc) : Qc :=
  if Qc_leb q 0%Qc then 0%Qc else heron 60 q (1 + q)%Qc.

Definition Exact12 : JSNumber ExNum := ExactNumber PI_12 sqrt_12 sin_12 cos_12.

(* ===================================================================== *)
(** * The latent tile of the viewer *)
(* ===================================================================== *)

Section ViewerFacts.
Context {num : Type} `{!JSNumber num}.

Lemma length_rows (n : Z) : length (rows n) = Z.to_nat n.
Proof. unfold rows. by rewrite length_map, length_seq. Qed.

Lemma lookup_rows (n : Z) (k : nat) :
  (k < Z.to_nat n)%nat -> rows n !! k = Some (Z.of_nat k).
Proof.
  intros Hk. unfold rows. rewrite list_lookup_fmap, lookup_seq_lt by done. done.
Qed.

(** A loop that emits four values per round: the value at [4k + c]. *)
Lemma lookup_bind_four {A B : Type} (f : A -> list B) (l : list A) (k c : nat) (x : A) :
  (forall a, length (f a) = 4%nat) ->
  l !! k = Some x -> (c < 4)%nat ->
  (l ≫= f) !! (4 * k + c)%nat = f x !! c.
Proof.
  intros Hf. revert k. induction l as [|a l IH]; intros k Hk Hc; [done|].
  rewrite bind_cons. destruct k as [|k]; simpl in Hk.
  - injection Hk as ->. rewrite lookup_app_l by (rewrite Hf; lia). by rewrite Nat.add_0_l.
  - rewrite lookup_app_r by (rewrite Hf; lia). rewrite Hf.
    replace (4 * S k + c - 4)%nat with (4 * k + c)%nat by lia. by apply IH.
Qed.

Lemma length_bind_four {A B : Type} (f : A -> list B) (l : list A) :
  (forall a, length (f a) = 4%nat) -> length (l ≫= f) = (4 * length l)%nat.
Proof.
  intros Hf. induction l as [|a l IH]; [done|].
  rewrite bind_cons, length_app, Hf, IH. simpl. lia.
Qed.

Definition tileRow (latent : list num) (tileIndex i : Z) : list num :=
  c ← [0; 1; 2; 3]%Z; [tileValue latent (i * 32 + tileIndex * 4 + c)%Z].

Lemma latentTile_rows (v : GSViewer num) (tileIndex : Z) :
  latentTile v tileIndex = rows (vertexCount v) ≫= tileRow (latentData v) tileIndex.
Proof. done. Qed.

Lemma length_latentTile (v : GSViewer num) (tileIndex : Z) :
  length (latentTile v tileIndex) = (4 * Z.to_nat (vertexCount v))%nat.
Proof.
  rewrite latentTile_rows, length_bind_four by done. by rewrite length_rows.
Qed.

Lemma lookup_latentTile (v : GSViewer num) (tileIndex : Z) (k c : nat) :
  (k < Z.to_nat (vertexCount v))%nat -> (c < 4)%nat ->
  latentTile v tileIndex !! (4 * k + c)%nat
  = Some (tileValue (latentData v)
            (Z.of_nat k * 32 + tileIndex * 4 + Z.of_nat c)%Z).
Proof.
  intros Hk Hc. rewrite latentTile_rows.
  rewrite (lookup_bind_four _ _ k c (Z.of_nat k)); [|done|by apply lookup_rows|done].
  unfold tileRow.
  destruct c as [|[|[|[|c]]]]; try lia; done.
Qed.

(** The three ways a tile value arises. *)
Lemma tileValue_cases (latent : list num) (srcIdx : Z) :
  (0 <= srcIdx)%Z ->
  (Z.to_nat srcIdx >= length latent)%nat /\ tileValue latent srcIdx = lit 0
  \/ exists value, latent !! Z.to_nat srcIdx = Some value /\
       ((isNaN value = true \/ isFinite value = false) /\ tileValue latent srcIdx = lit 0
        \/ (isNaN value = false /\ isFinite value = true) /\ tileValue latent srcIdx = value).
Proof.
  intros Hs. unfold tileValue, array_length.
  destruct (Z.leb_spec (Z.of_nat (length latent)) srcIdx) as [Hge|Hlt].
  - left. split; [lia|done].
  - right. destruct (lookup_lt_is_Some_2 latent (Z.to_nat srcIdx)) as [value Hv]; [lia|].
    exists value. split; [done|]. rewrite Hv. simpl.
    destruct (isNaN value) eqn:Hn; [left; auto|].
    destruct (isFinite value) eqn:Hf; simpl; [right; auto|left; auto].
Qed.

Lemma tileValue_finite (latent : list num) (srcIdx : Z) :
  isFinite (lit 0) = true -> isFinite (tileValue latent srcIdx) = true.
Proof.
  intros H0. unfold tileValue.
  destruct (array_length latent <=? srcIdx)%Z; [done|].
  destruct (isNaN _); [done|].
  destruct (isFinite (default NaN (latent !! Z.to_nat srcIdx))) eqn:Hf; done.
Qed.

Lemma latentTile_finite (v : GSViewer num) (tileIndex : Z) :
  isFinite (lit 0) = true ->
  Forall (fun e => isFinite e = true) (latentTile v tileIndex).
Proof.
  intros H0. rewrite latentTile_rows. apply Forall_bind, Forall_forall. intros i _.
  unfold tileRow. simpl. repeat constructor; by apply tileValue_finite.
Qed.

(** The call was turned away: an error went to the console. *)
Definition rejected (v : GSViewer num) (tileIndex : Z) : Prop :=
  exists text, console (updateLatentTile v tileIndex)
               = console v ++ [ConsoleError text tileIndex].

Lemma console_no_error (log : list LogEntry) (text : string) (i : Z) :
  log <> log ++ [ConsoleError text i].
Proof.
  intros H. apply (f_equal length) in H. rewrite length_app in H. simpl in H. lia.
Qed.

(** Entry [4k + c] of the tile, against the latent vector: the value at
    [32k + 4i + c], or 0 where the vector ends before that index or holds
    NaN or an infinity there. *)
Lemma latentTile_entry (v : GSViewer num) (i : Z) (k c : nat) :
  (0 <= i)%Z -> (Z.of_nat k < vertexCount v)%Z -> (c < 4)%nat ->
  exists e, latentTile v i !! (4 * k + c)%nat = Some e /\
    match latentData v !! (32 * k + 4 * Z.to_nat i + c)%nat with
    | None => e = lit 0
    | Some value =>
        if isNaN value || negb (isFinite value) then e = lit 0 else e = value
    end.
Proof.
  intros Hi Hk Hc. set (srcIdx := (32 * k + 4 * Z.to_nat i + c)%nat).
  eexists. split; [apply lookup_latentTile; lia|].
  replace (Z.of_nat k * 32 + i * 4 + Z.of_nat c)%Z with (Z.of_nat srcIdx)
    by (unfold srcIdx; lia).
  unfold tileValue, array_length.
  destruct (Z.leb_spec (Z.of_nat (length (latentData v))) (Z.of_nat srcIdx)) as [Hge|Hlt].
  - rewrite lookup_ge_None_2 by lia. done.
  - rewrite Nat2Z.id.
    destruct (lookup_lt_is_Some_2 (latentData v) srcIdx) as [value Hv]; [lia|].
    rewrite Hv. simpl.
    destruct (isNaN value); simpl; [done|]. by destruct (isFinite value).
Qed.

(** C4.  For every integer [i], [updateLatentTile(i)] succeeds exactly when
    [0 <= i <= 7], and then the [latentTile] attribute it installs is the
    [i]-th four-channel slice of the latent vector: four entries for each
    vertex, entry [4k + c] being the latent value at [32k + 4i + c] (0
    where the vector ends before that index or holds NaN or an infinity).
    Outside that range the call logs an error and changes nothing else:
    geometry (so the tile installed before), latent data and vertex count
    are what they were. *)
Theorem updateLatentTile_accepts_0_to_7 (v : GSViewer num) (i : Z) :
  ((0 <= i <= 7)%Z <->
     (exists tile : list num,
        geometry (updateLatentTile v i)
        = <["latentTile"%string := mkBufferAttribute tile 4]> (geometry v)
        /\ length tile = (4 * Z.to_nat (vertexCount v))%nat
        /\ forall k c : nat, (Z.of_nat k < vertexCount v)%Z -> (c < 4)%nat ->
             exists e, tile !! (4 * k + c)%nat = Some e /\
               match latentData v !! (32 * k + 4 * Z.to_nat i + c)%nat with
               | None => e = lit 0
               | Some value =>
                   if isNaN value || negb (isFinite value) then e = lit 0 else e = value
               end)
     /\ ~ rejected v i)
  /\ (~ (0 <= i <= 7)%Z <->
        rejected v i
        /\ geometry (updateLatentTile v i) = geometry v
        /\ latentData (updateLatentTile v i) = latentData v
        /\ vertexCount (updateLatentTile v i) = vertexCount v).
Proof.
  assert (Hin : (0 <= i <= 7)%Z ->
            exists tile : list num,
              geometry (updateLatentTile v i)
              = <["latentTile"%string := mkBufferAttribute tile 4]> (geometry v)
              /\ length tile = (4 * Z.to_nat (vertexCount v))%nat
              /\ forall k c : nat, (Z.of_nat k < vertexCount v)%Z -> (c < 4)%nat ->
                   exists e, tile !! (4 * k + c)%nat = Some e /\
                     match latentData v !! (32 * k + 4 * Z.to_nat i + c)%nat with
                     | None => e = lit 0
                     | Some value =>
                         if isNaN value || negb (isFinite value)
                         then e = lit 0 else e = value
                     end).
  { intros Hi. exists (latentTile v i). split; [|split].
    - unfold updateLatentTile.
      destruct (Z.ltb_spec i 0); [lia|]. by destruct (Z.leb_spec 8 i); [lia|].
    - apply length_latentTile.
    - intros k c Hk Hc. apply latentTile_entry; [lia|done|done]. }
  unfold rejected in *. unfold updateLatentTile.
  destruct (Z.ltb_spec i 0) as [Hneg|Hnn]; simpl.
  - split; split; try lia.
    + intros [_ Hrej]. destruct Hrej. by eexists.
    + intros _. split; [by eexists|done].
  - destruct (Z.leb_spec 8 i) as [Hbig|Hsmall]; simpl.
    + split; split; try lia.
      * intros [_ Hrej]. destruct Hrej. by eexists.
      * intros _. split; [by eexists|done].
    + assert (Hno : ~ (exists text,
                (if (i =? 0)%Z then console v ++ [ConsoleLog "[GSViewer] Tile 0"]
                 else console v) = console v ++ [ConsoleError text i])).
      { intros [text Ht]. destruct (i =? 0)%Z.
        - apply app_inv_head in Ht. discriminate.
        - by apply console_no_error in Ht. }
      split; split; try lia.
      * intros _. split; [|exact Hno].
        destruct Hin as (tile & Hg & Hl & He); [lia|].
        exists tile. split; [|done].
        unfold updateLatentTile in Hg.
        destruct (Z.ltb_spec i 0); [lia|]. by destruct (Z.leb_spec 8 i); [lia|].
      * intros [Hrej _]. by destruct Hno.
Qed.

(** C9.  For a tile index in [0, 7] and any latent buffer, the installed
    tile has [4 * vertexCount] entries, every one of them finite: entry
    [4k + c] is 0 when the source index [32k + 4i + c] is past the end of
    the latent buffer or the source value is NaN or not finite, and the
    source value otherwise. *)
Theorem updateLatentTile_tile_is_finite (v : GSViewer num) (i : Z)
    (Hi : (0 <= i <= 7)%Z) (Hn : (0 <= vertexCount v)%Z)
    (Hzero : isFinite (lit 0) = true) :
  exists tile,
    geometry (updateLatentTile v i) !! "latentTile"%string
    = Some (mkBufferAttribute tile 4)
    /\ Z.of_nat (length tile) = (vertexCount v * 4)%Z
    /\ Forall (fun e => isFinite e = true) tile
    /\ forall k c : nat, (Z.of_nat k < vertexCount v)%Z -> (c < 4)%nat ->
         let srcIdx := (32 * k + 4 * Z.to_nat i + c)%nat in
         exists e, tile !! (4 * k + c)%nat = Some e /\
           match latentData v !! srcIdx with
           | None => e = lit 0
           | Some value =>
               if isNaN value || negb (isFinite value) then e = lit 0 else e = value
           end.
Proof.
  exists (latentTile v i). split; [|split; [|split]].
  - unfold updateLatentTile.
    destruct (Z.ltb_spec i 0); [lia|]. destruct (Z.leb_spec 8 i); [lia|]. simpl.
    by rewrite lookup_insert_eq.
  - rewrite length_latentTile. lia.
  - by apply latentTile_finite.
  - intros k c Hk Hc srcIdx.
    eexists. split; [apply lookup_latentTile; lia|].
    replace (Z.of_nat k * 32 + i * 4 + Z.of_nat c)%Z with (Z.of_nat srcIdx)
      by (unfold srcIdx; lia).
    unfold tileValue, array_length.
    destruct (Z.leb_spec (Z.of_nat (length (latentData v))) (Z.of_nat srcIdx)) as [Hge|Hlt].
    + rewrite lookup_ge_None_2 by lia. done.
    + rewrite Nat2Z.id.
      destruct (lookup_lt_is_Some_2 (latentData v) srcIdx) as [value Hv]; [lia|].
      rewrite Hv. simpl.
      destruct (isNaN value); simpl; [done|]. by destruct (isFinite value).
Qed.
End ViewerFacts.

(* ===================================================================== *)
(** * The pose solver *)
(* ===================================================================== *)

Section PoseFacts.
Context {num : Type} `{!JSNumber num}.

(** The sixteen floats of slot [k] of a matrix table. *)
Definition slot (table : list num) (k : Z) : list num :=
  take 16 (drop (Z.to_nat (k * 16)) table).

Lemma lookup_slot (table : list num) (k : Z) (i : nat) :
  (i < 16)%nat -> slot table k !! i = table !! (Z.to_nat (k * 16) + i)%nat.
Proof. intros Hi. unfold slot. by rewrite lookup_take_lt, lookup_drop. Qed.

Lemma length_elements (m : Matrix4 num) : length (elements m) = 16%nat.
Proof. done. Qed.

Lemma length_toArray (g : Matrix4 num) (table : list num) (offset : Z) :
  length (toArray g table offset) = length table.
Proof. unfold toArray. by rewrite length_inserts. Qed.

Lemma slot_toArray_other (g : Matrix4 num) (table : list num) (j k : Z) :
  (0 <= j)%Z -> (0 <= k)%Z -> j <> k ->
  slot (toArray g table (k * 16)) j = slot table j.
Proof.
  intros Hj Hk Hjk. unfold slot, toArray.
  apply list_eq. intros i.
  destruct (decide (i < 16)%nat) as [Hi|Hi].
  - rewrite !lookup_take_lt, !lookup_drop by done.
    destruct (decide (j < k)%Z).
    + rewrite list_lookup_inserts_lt by lia. done.
    + rewrite list_lookup_inserts_ge by (rewrite length_map, length_elements; lia). done.
  - rewrite !lookup_take_ge by lia. done.
Qed.

Lemma slot_toArray_same (g : Matrix4 num) (table : list num) (k : Z) :
  (0 <= k)%Z -> (Z.to_nat (k * 16) + 16 <= length table)%nat ->
  slot (toArray g table (k * 16)) k = map fround (elements g).
Proof.
  intros Hk Hlen. unfold slot, toArray.
  apply list_eq. intros i.
  destruct (decide (i < 16)%nat) as [Hi|Hi].
  - rewrite lookup_take_lt, lookup_drop by done.
    rewrite list_lookup_inserts by (rewrite ?length_map, ?length_elements; lia).
    f_equal. lia.
  - rewrite lookup_take_ge by lia.
    symmetry. apply lookup_ge_None_2. rewrite length_map, length_elements. lia.
Qed.

Lemma fold_left_step {A B : Type} (f : A -> B -> A) (x : B) (l : list B) (a : A) :
  fold_left f (x :: l) a = fold_left f l (f a x).
Proof. done. Qed.

Lemma snd_solve_step (rots : gmap Z (Euler num)) (gm : gmap Z (Matrix4 num))
    (mats : list num) (idx : Z) :
  snd (solve_step rots (gm, mats) idx)
  = toArray (globalMatrix rots gm idx) mats (idx * 16).
Proof. done. Qed.

(** [solveHierarchy] writes the slots of the bones it solves and no
    other. *)
Lemma solve_fold_length (rots : gmap Z (Euler num)) (bones : list Z)
    (st : gmap Z (Matrix4 num) * list num) :
  length (snd (fold_left (solve_step rots) bones st)) = length (snd st).
Proof.
  revert st. induction bones as [|b bones IH]; intros [gm mats]; [done|].
  rewrite fold_left_step, IH, snd_solve_step. by rewrite length_toArray.
Qed.

Lemma solve_fold_other (rots : gmap Z (Euler num)) (bones : list Z)
    (st : gmap Z (Matrix4 num) * list num) (j : Z) :
  (0 <= j)%Z -> Forall (fun b => (0 <= b)%Z) bones -> j ∉ bones ->
  slot (snd (fold_left (solve_step rots) bones st)) j = slot (snd st) j.
Proof.
  intros Hj. revert st. induction bones as [|b bones IH]; intros [gm mats] Hpos Hnot; [done|].
  apply Forall_cons in Hpos as [Hb Hpos]. apply not_elem_of_cons in Hnot as [Hjb Hnot].
  rewrite fold_left_step, IH, snd_solve_step by done. by apply slot_toArray_other.
Qed.

Lemma solveHierarchy_rotations (m : VRMManager num) :
  localRotations (solveHierarchy m) = localRotations m.
Proof. unfold solveHierarchy. by destruct (fold_left _ _ _). Qed.

Lemma solveHierarchy_lipSync (m : VRMManager num) :
  lipSyncLevel (solveHierarchy m) = lipSyncLevel m.
Proof. unfold solveHierarchy. by destruct (fold_left _ _ _). Qed.

Lemma solveHierarchy_matrices (m : VRMManager num) :
  matrices (solveHierarchy m)
  = snd (fold_left (solve_step (localRotations m)) SOLVED_BONES (∅, matrices m)).
Proof. unfold solveHierarchy. by destruct (fold_left _ _ _). Qed.

Lemma SOLVED_BONES_nonneg : Forall (fun b => (0 <= b)%Z) SOLVED_BONES.
Proof. unfold SOLVED_BONES. repeat constructor; lia. Qed.

Lemma solveHierarchy_length (m : VRMManager num) :
  length (matrices (solveHierarchy m)) = length (matrices m).
Proof. rewrite solveHierarchy_matrices. apply solve_fold_length. Qed.

Lemma solveHierarchy_other (m : VRMManager num) (j : Z) :
  (0 <= j)%Z -> j ∉ SOLVED_BONES ->
  slot (matrices (solveHierarchy m)) j = slot (matrices m) j.
Proof.
  intros Hj Hnot. rewrite solveHierarchy_matrices.
  apply solve_fold_other; [done|apply SOLVED_BONES_nonneg|done].
Qed.

Lemma globalMatrix_root (rots : gmap Z (Euler num)) (gm : gmap Z (Matrix4 num)) :
  globalMatrix rots gm 0 = getPivotMatrix 0 (default zeroEuler (rots !! 0%Z)).
Proof. done. Qed.

(** The root is solved first, has no parent, and no later round writes
    its slot. *)
Lemma solveHierarchy_root (m : VRMManager num) :
  (16 <= length (matrices m))%nat ->
  slot (matrices (solveHierarchy m)) 0
  = map fround (elements (getPivotMatrix 0 (default zeroEuler (localRotations m !! 0%Z)))).
Proof.
  intros Hlen. rewrite solveHierarchy_matrices.
  unfold SOLVED_BONES. rewrite fold_left_step, solve_fold_other.
  - rewrite snd_solve_step, globalMatrix_root.
    apply (slot_toArray_same _ _ 0); [done|simpl; lia].
  - done.
  - repeat constructor; lia.
  - intros Hin. repeat (apply elem_of_cons in Hin as [Hin|Hin]; [discriminate|]).
    by apply elem_of_nil in Hin.
Qed.

(** The rotations that one tick installs. *)
Lemma update_rotation_root (m : VRMManager num) (time : num) :
  localRotations (fst (update m time)) !! 0%Z = Some (mkEuler (lit 0) (lit 0) (lit 0)).
Proof.
  unfold update. simpl fst. rewrite solveHierarchy_rotations. simpl.
  repeat (rewrite lookup_insert_ne by done). by rewrite lookup_insert_eq.
Qed.

Lemma update_rotation_jaw (m : VRMManager num) (time : num) :
  localRotations (fst (update m time)) !! 22%Z
  = Some (mkEuler (mul (lipSyncLevel m) (dec 5 1)) (lit 0) (lit 0)).
Proof.
  unfold update. simpl fst. rewrite solveHierarchy_rotations. simpl.
  repeat (rewrite lookup_insert_ne by done). by rewrite lookup_insert_eq.
Qed.

Lemma update_root_slot (m : VRMManager num) (time : num) :
  (16 <= length (matrices m))%nat ->
  slot (snd (update m time)) 0
  = map fround (elements (getPivotMatrix 0 (mkEuler (lit 0) (lit 0) (lit 0)))).
Proof.
  intros Hlen. unfold update. cbv zeta. cbn [snd].
  rewrite solveHierarchy_root by exact Hlen.
  cbn [localRotations].
  repeat (rewrite lookup_insert_ne by done). by rewrite lookup_insert_eq.
Qed.

Lemma update_output (m : VRMManager num) (time : num) :
  snd (update m time) = matrices (fst (update m time)).
Proof. done. Qed.

(** The table of a new manager: sixty-four identity matrices. *)
Lemma VRMManager_new_matrices :
  matrices VRMManager_new
  = mjoin (replicate 64 (map fround (elements Matrix4_identity))).
Proof. vm_compute. reflexivity. Qed.

Lemma slot_join_replicate (n : nat) (row : list num) (k : Z) :
  length row = 16%nat -> (0 <= k)%Z -> (Z.to_nat k < n)%nat ->
  slot (mjoin (replicate n row)) k = row.
Proof.
  intros Hrow Hk. revert k Hk. induction n as [|n IH]; intros k Hk Hn; [lia|].
  unfold slot in *.
  change (mjoin (replicate (S n) row)) with (row ++ mjoin (replicate n row)).
  destruct (decide (k = 0)) as [->|Hk0].
  - change (Z.to_nat (0 * 16)) with 0%nat. rewrite drop_0. by apply take_app_length'.
  - replace (Z.to_nat (k * 16)) with (length row + Z.to_nat ((k - 1) * 16))%nat by lia.
    rewrite drop_app_add'; [|done]. apply IH; lia.
Qed.

(** The managers the program can reach: a new one, then calls of
    [setLipSync] and [update]. *)
Inductive reachable : VRMManager num -> Prop :=
  | reach_new : reachable VRMManager_new
  | reach_setLipSync m level : reachable m -> reachable (setLipSync m level)
  | reach_update m time : reachable m -> reachable (fst (update m time)).

Definition identitySlot : list num := map fround (elements Matrix4_identity).

Lemma reachable_table (m : VRMManager num) :
  reachable m ->
  length (matrices m) = 1024%nat
  /\ forall j, (0 <= j < 64)%Z -> j ∉ SOLVED_BONES -> slot (matrices m) j = identitySlot.
Proof.
  induction 1 as [|m level _ IH|m time _ [IHlen IHslot]].
  - rewrite VRMManager_new_matrices. split; [done|].
    intros j Hj _. apply slot_join_replicate; [done|lia|lia].
  - exact IH.
  - unfold update. simpl fst. split.
    + by rewrite solveHierarchy_length.
    + intros j Hj Hnot. rewrite solveHierarchy_other by (done || lia). by apply IHslot.
Qed.
End PoseFacts.

(* ===================================================================== *)
(** * Exact arithmetic: basic facts *)
(* ===================================================================== *)

(** Two canonical rationals with the same value are equal. *)
Ltac qc_compute := apply Qc_is_canon; vm_compute; reflexivity.
Ltac fin_compute := apply (f_equal Fin); qc_compute.

Section ExactPose.
Variables (qpi : Qc) (qsqrt qsin qcos : Qc -> Qc).
#[local] Abbreviation Exact := (ExactNumber qpi qsqrt qsin qcos).
#[local] Hint Extern 0 (JSNumber ExNum) => exact Exact : typeclass_instances.

Lemma Exact_fround_elements (g : Matrix4 ExNum) :
  map (fround (JSNumber := Exact)) (elements g) = elements g.
Proof. done. Qed.

(** Turning by the zero angles about the pivot of the root is the
    identity. *)
Lemma getPivotMatrix_root_identity :
  qsin 0%Qc = 0%Qc -> qcos 0%Qc = 1%Qc ->
  getPivotMatrix (JSNumber0 := Exact) 0 (mkEuler (lit 0) (lit 0) (lit 0))
  = Matrix4_identity (JSNumber0 := Exact).
Proof.
  intros Hsin Hcos.
  unfold getPivotMatrix, makeRotationFromEuler, makeTranslation, multiply,
    Matrix4_identity.
  cbn [ex ey ez m11 m12 m13 m14 m21 m22 m23 m24 m31 m32 m33 m34 m41 m42 m43 m44
       Math_sin Math_cos ExactNumber lit Ex_trig].
  change (Q2Qc 0) with 0%Qc. rewrite Hsin, Hcos.
  f_equal; vm_compute; fin_compute.
Qed.

(** C8.  Every tick of a manager the program can reach returns a table of
    1024 floats, sixty-four 4x4 matrices, in which every slot outside the
    solved bones 0, 3, 6, 9, 12, 15, 16, 17, 22 is the identity matrix,
    and the slot of the root (bone 0) is the identity matrix as well. *)
Theorem update_unsolved_slots_and_root_are_identity
    (Hsin : qsin 0%Qc = 0%Qc) (Hcos : qcos 0%Qc = 1%Qc)
    (m : VRMManager ExNum) (time : ExNum)
    (Hm : reachable (JSNumber0 := Exact) m) :
  let out := snd (update (JSNumber0 := Exact) m time) in
  length out = 1024%nat
  /\ (forall j, (0 <= j < 64)%Z -> j ∉ SOLVED_BONES ->
        slot out j = elements (Matrix4_identity (JSNumber0 := Exact)))
  /\ slot out 0 = elements (Matrix4_identity (JSNumber0 := Exact)).
Proof.
  intros out.
  destruct (reachable_table _ (reach_update _ time Hm)) as [Hlen Hslots].
  destruct (reachable_table _ Hm) as [Hlen0 _].
  split; [exact Hlen|]. split.
  - intros j Hj Hnot. unfold out. rewrite update_output. by rewrite Hslots.
  - unfold out. rewrite update_root_slot by lia.
    rewrite Exact_fround_elements. by rewrite getPivotMatrix_root_identity.
Qed.

Lemma jawAngle_exact (g : GVRM ExNum) (level time : ExNum) :
  jawAngle (JSNumber0 := Exact) (updateLipSync g level) time
  = Some (mul (JSNumber := Exact) level (dec 5 1)).
Proof. unfold jawAngle. by rewrite update_rotation_jaw. Qed.
End ExactPose.

(** C3.  After [updateLipSync(1.0)] the next tick turns the jaw (bone 22) by
    0.5 rad about X, and after [updateLipSync(0.0)] by 0 rad: exactly so in
    exact arithmetic, and exactly so in binary64, where [1.0 * 0.5] and
    [0.0 * 0.5] are computed without rounding.  The state before the call
    and the time of the tick do not matter. *)
Theorem updateLipSync_then_tick_jaw_angle :
  (forall qpi qsqrt qsin qcos (g : GVRM ExNum) (time : ExNum),
      let exact := ExactNumber qpi qsqrt qsin qcos in
      jawAngle (updateLipSync g (lit 1)) time = Some (Fin (Q2Qc (1 # 2)))
      /\ jawAngle (updateLipSync g (lit 0)) time = Some (Fin 0%Qc))
  /\ (forall fsin fcos (g : GVRM float) (time : float),
        let f64 := F64Number fsin fcos in
        jawAngle (updateLipSync g (lit 1)) time = Some 0.5%float
        /\ jawAngle (updateLipSync g (lit 0)) time = Some 0%float).
Proof.
  split.
  - intros qpi qsqrt qsin qcos g time exact. subst exact.
    rewrite !jawAngle_exact. split; apply (f_equal Some); vm_compute; fin_compute.
  - intros fsin fcos g time f64. subst f64. unfold jawAngle.
    rewrite !update_rotation_jaw. split; reflexivity.
Qed.

(* ===================================================================== *)
(** * The header of the point-cloud file *)
(* ===================================================================== *)

Section HeaderFacts.
Local Open Scope string_scope.

(** The header has a vertex-count token: somewhere in it stands
    [element vertex ] with a digit right after. *)
Definition has_vertex_token (headerText : string) : Prop :=
  exists (pre : string) (d : ascii) (rest : string),
    headerText = pre ++ "element vertex " ++ String d rest /\ is_digit d = true.

Lemma append_cons (c : ascii) (s t : string) : String c s ++ t = String c (s ++ t).
Proof. done. Qed.
Lemma append_nil (t : string) : "" ++ t = t.
Proof. done. Qed.

Lemma startsWith_spec (p s : string) :
  startsWith p s = true <-> exists rest, s = p ++ rest.
Proof.
  revert s. induction p as [|a p IH]; intros s; simpl.
  - split; [intros _; by exists s|done].
  - destruct s as [|b s].
    + split; [done|]. intros [rest Hr]. discriminate.
    + destruct (Ascii.eqb_spec a b) as [->|Hab].
      * rewrite IH. split; intros [rest Hr]; exists rest;
          rewrite append_cons in *; congruence.
      * split; [done|]. intros [rest Hr]. rewrite append_cons in Hr. congruence.
Qed.

Lemma string_drop_app (p s : string) : string_drop (String.length p) (p ++ s) = s.
Proof. induction p; [done|]. rewrite append_cons. simpl. auto. Qed.

Lemma leading_digits_empty (s : string) :
  leading_digits s = "" <-> ~ exists d rest, s = String d rest /\ is_digit d = true.
Proof.
  destruct s as [|c s]; simpl.
  - split; [|done]. intros _ (d & rest & Hs & _). discriminate.
  - destruct (is_digit c) eqn:Hc.
    + split; [done|]. intros Hno. destruct Hno. by exists c, s.
    + split; [|done]. intros _ (d & rest & Hs & Hd). congruence.
Qed.

Lemma match_vertex_here_None (s : string) :
  match_vertex_here s = None
  <-> ~ exists d rest, s = "element vertex " ++ String d rest /\ is_digit d = true.
Proof.
  unfold match_vertex_here.
  destruct (startsWith "element vertex " s) eqn:Hp.
  - apply startsWith_spec in Hp as [r ->].
    change 15%nat with (String.length "element vertex ").
    rewrite string_drop_app.
    destruct (leading_digits r) eqn:Hd.
    + split; [|done]. intros _ (d & rest & Hs & Hdig).
      apply leading_digits_empty in Hd. apply Hd. exists d, rest.
      split; [|done]. apply (f_equal (string_drop 15)) in Hs.
      change 15%nat with (String.length "element vertex ") in Hs.
      by rewrite !string_drop_app in Hs.
    + split; [done|]. intros Hno.
      assert (Hne : leading_digits r <> "") by (rewrite Hd; done).
      destruct Hne. apply leading_digits_empty. intros (d & rest & -> & Hdig).
      apply Hno. by exists d, rest.
  - split; [|done]. intros _ (d & rest & Hs & _).
    assert (startsWith "element vertex " s = true) as Ht; [|congruence].
    apply startsWith_spec. by exists (String d rest).
Qed.

(** The pattern fails to match exactly on the headers without the
    token. *)
Lemma match_vertex_None (s : string) :
  match_vertex s = None <-> ~ has_vertex_token s.
Proof.
  unfold has_vertex_token. induction s as [|c s IH].
  - simpl. split; [|done]. intros _ (pre & d & rest & Hs & _).
    destruct pre; discriminate.
  - change (match_vertex (String c s)) with
      (match match_vertex_here (String c s) with
       | Some digits => Some digits
       | None => match_vertex s
       end).
    destruct (match_vertex_here (String c s)) eqn:Hhere.
    + split; [done|]. intros Hno.
      assert (Hne : match_vertex_here (String c s) <> None) by (rewrite Hhere; done).
      destruct Hne. apply match_vertex_here_None. intros (d & rest & Hs & Hd).
      apply Hno. by exists "", d, rest.
    + rewrite IH. apply match_vertex_here_None in Hhere.
      split.
      * intros Hno (pre & d & rest & Hs & Hd). destruct pre as [|c' pre].
        -- apply Hhere. by exists d, rest.
        -- apply Hno. exists pre, d, rest. split; [|done].
           rewrite append_cons in Hs. congruence.
      * intros Hno (pre & d & rest & Hs & Hd). apply Hno.
        exists (String c pre), d, rest. split; [|done].
        rewrite append_cons. congruence.
Qed.
End HeaderFacts.

Section LoadFacts.
Context {num : Type} `{!JSNumber num}.

(** C5, amended.  The loader looks for the vertex-count token in the first
    5000 bytes of the file decoded as text: the header and, when the
    header is shorter, the binary payload behind it.  When these bytes hold
    no vertex-count token, parsing throws a [TypeError] - it returns no
    point set, in particular not an empty one - and [loadAssets], handed
    this buffer, catches the error and returns [false], leaving the
    instance as it was. *)
Theorem load_without_vertex_count_fails (buffer : list byte)
    (Hno : ~ has_vertex_token (TextDecoder_decode (ArrayBuffer_slice buffer 0 5000))) :
  load buffer = Throw TypeError
  /\ (forall data : PLYData num, load buffer <> Ok data)
  /\ forall (g : GVRM num) (env : Assets num),
       fetchPly env = Ok buffer -> loadAssets g env = (g, false).
Proof.
  apply match_vertex_None in Hno.
  assert (Hload : load (num := num) buffer = Throw TypeError).
  { unfold load. rewrite Hno. reflexivity. }
  split; [exact Hload|]. split.
  - intros data. by rewrite Hload.
  - intros g env Hfetch. unfold loadAssets, loadAssets_try.
    rewrite Hfetch. simpl. by rewrite Hload.
Qed.
End LoadFacts.

(* ===================================================================== *)
(** * Rigging: every point gets one of the eight bones *)
(* ===================================================================== *)

Section RigFacts.
Context {num : Type} `{!JSNumber num}.

(** The bones that bone detection knows. *)
Definition BONES : list Z := [0; 3; 9; 12; 15; 16; 17; 22]%Z.

Lemma points_of_positions_of (points : list (Vector3 num)) :
  points_of (positions_of points) = points.
Proof.
  induction points as [|[x y z] points IH]; [done|].
  simpl. by rewrite IH.
Qed.

Lemma length_positions_of (points : list (Vector3 num)) :
  length (positions_of points) = (3 * length points)%nat.
Proof. induction points as [|p points IH]; simpl; lia. Qed.

Lemma detectBonePositions_keys (positions : list num) (bbox : BoundingBox num) :
  map fst (detectBonePositions positions bbox) = BONES.
Proof. reflexivity. Qed.

Lemma addSphere_bone (boneIdx : Z) (center : Vector3 num) (r : num) (density : Z) :
  Forall (fun tp => bone tp = boneIdx) (addSphere boneIdx center r density).
Proof.
  unfold addSphere. destruct (boneIdx =? 22)%Z.
  - apply Forall_bind, Forall_forall. intros i _.
    apply Forall_bind, Forall_forall. intros j _. by constructor.
  - apply Forall_bind, Forall_forall. intros i _.
    apply Forall_bind, Forall_forall. intros j _. by constructor.
Qed.

Lemma generateTemplatePoints_bones (bonePositions : IntObject (BonePosition num)) :
  Forall (fun tp => bone tp ∈ map fst bonePositions)
         (generateTemplatePoints bonePositions).
Proof.
  unfold generateTemplatePoints, Object_entries.
  apply Forall_bind, Forall_forall. intros [k b] Hin. simpl.
  eapply Forall_impl; [apply addSphere_bone|].
  intros tp ->. apply list_elem_of_fmap. by exists (k, b).
Qed.

(** The search keeps bone 0 or takes the bone of a template point. *)
Lemma bestBone_from_templates (templatePoints : list (TemplatePoint num))
    (p : Vector3 num) :
  bestBone templatePoints p = 0%Z \/ bestBone templatePoints p ∈ map bone templatePoints.
Proof.
  unfold bestBone.
  assert (H : forall best,
    fst (fold_left (nearest_step (vx p) (vy p) (vz p)) templatePoints best) = fst best
    \/ fst (fold_left (nearest_step (vx p) (vy p) (vz p)) templatePoints best)
       ∈ map bone templatePoints).
  { induction templatePoints as [|tp tps IH]; intros best; [by left|].
    rewrite fold_left_step.
    destruct (IH (nearest_step (vx p) (vy p) (vz p) best tp)) as [Heq|Hin].
    - rewrite Heq. unfold nearest_step.
      destruct (ltb _ _); [right; simpl; by left|by left].
    - right. simpl. by right. }
  destruct (H (0%Z, Infinity)) as [Heq|Hin]; [left; exact Heq|by right].
Qed.

Lemma rig_bones_eq (rawPositions : list num) :
  rig_bones (rig rawPositions)
  = map (bestBone (cloudTemplates (normalizedCloud rawPositions)))
        (points_of (normalizedCloud rawPositions)).
Proof. done. Qed.

Lemma rig_positions_eq (rawPositions : list num) :
  rig_positions (rig rawPositions) = normalizedCloud rawPositions.
Proof. done. Qed.

Lemma points_of_normalizedCloud (rawPoints : list (Vector3 num)) :
  points_of (normalizedCloud (positions_of rawPoints))
  = map (normalizePoint (computeBoundingBox (positions_of rawPoints))
           (scaleFactor (computeAdaptiveScale
                           (computeBoundingBox (positions_of rawPoints)) (dec 170 2))))
        rawPoints.
Proof.
  unfold normalizedCloud, normalizePositions. cbv zeta.
  by rewrite !points_of_positions_of.
Qed.

Lemma cloudTemplates_bones (normalizedPositions : list num) :
  Forall (fun tp => bone tp ∈ BONES) (cloudTemplates normalizedPositions).
Proof.
  unfold cloudTemplates. cbv zeta.
  eapply Forall_impl; [apply generateTemplatePoints_bones|].
  intros tp Htp. by rewrite detectBonePositions_keys in Htp.
Qed.

Lemma rig_bones_in_BONES (rawPositions : list num) :
  Forall (fun b => b ∈ BONES) (rig_bones (rig rawPositions)).
Proof.
  rewrite rig_bones_eq. apply Forall_fmap, Forall_forall. intros p _. simpl.
  destruct (bestBone_from_templates (cloudTemplates (normalizedCloud rawPositions)) p)
    as [H0|Hin].
  - rewrite H0. unfold BONES. by left.
  - apply list_elem_of_fmap in Hin as (tp & -> & Htp).
    pose proof (cloudTemplates_bones (normalizedCloud rawPositions)) as Hall.
    rewrite Forall_forall in Hall. by apply Hall.
Qed.

Lemma length_rig_bones (rawPoints : list (Vector3 num)) :
  length (rig_bones (rig (positions_of rawPoints))) = length rawPoints.
Proof. by rewrite rig_bones_eq, length_map, points_of_normalizedCloud, length_map. Qed.

Lemma length_rig_positions (rawPoints : list (Vector3 num)) :
  length (rig_positions (rig (positions_of rawPoints))) = (3 * length rawPoints)%nat.
Proof.
  rewrite rig_positions_eq. unfold normalizedCloud, normalizePositions. cbv zeta.
  by rewrite length_positions_of, points_of_positions_of, length_map.
Qed.

Lemma for_each_length {A B : Type} (body : A -> result B) (l : list A) (bs : list B) :
  for_each body l = Ok bs -> length bs = length l.
Proof.
  revert bs. induction l as [|a l IH]; intros bs; simpl.
  - by intros [= <-].
  - destruct (body a); [|done]. destruct (for_each body l); [|done].
    intros [= <-]. simpl. f_equal. by apply IH.
Qed.

(** What a successful [load] returns, in terms of [rig]. *)
Lemma load_Ok (buffer : list byte) (data : PLYData num) :
  load buffer = Ok data ->
  exists rawPoints : list (Vector3 num),
    positions data = rig_positions (rig (positions_of rawPoints))
    /\ boneIndices data
       = concat (map (fun b => [ofZ b; lit 0; lit 0; lit 0])
                    (rig_bones (rig (positions_of rawPoints))))
    /\ boneWeights data
       = concat (map (fun _ : Z => [lit 1; lit 0; lit 0; lit 0])
                    (rig_bones (rig (positions_of rawPoints)))).
Proof.
  unfold load. destruct (match_vertex _); [|done].
  destruct (DataView _ _) as [view|]; [|done]. cbn [mbind result_bind].
  destruct (for_each (readPosition _ _ _) _) as [rawPoints|]; [|done].
  cbn [mbind result_bind].
  match goal with
  | |- context [for_each (readAttributes ?v ?p ?st ?sc) ?rs] =>
      destruct (for_each (readAttributes v p st sc) rs) as [attrs|]; [|done]
  end.
  cbn [mbind result_bind]. intros [= <-]. by exists rawPoints.
Qed.

Lemma lookup_join_four {A B : Type} (f : A -> list B) (l : list A) (k c : nat) (x : A) :
  (forall a, length (f a) = 4%nat) ->
  l !! k = Some x -> (c < 4)%nat ->
  concat (map f l) !! (4 * k + c)%nat = f x !! c.
Proof.
  intros Hf Hk Hc. rewrite <- (lookup_bind_four f l k c x) by done.
  f_equal. clear Hk. induction l as [|a l IH]; [done|].
  rewrite bind_cons. simpl. by rewrite IH.
Qed.

(** C1.  A loaded point cloud has, for each of its points [i], one bone
    index from the fixed set 0 (hips), 3 (spine1), 9 (chest), 12 (neck),
    15 (head), 16 and 17 (shoulders), 22 (jaw) in [boneIndices[4i]], with
    weight 1.0 in [boneWeights[4i]]; the other three index and weight
    slots of the point are 0.  Both arrays have four entries for each
    point: none is left out. *)
Theorem load_assigns_every_point_one_bone (buffer : list byte) (data : PLYData num)
    (Hload : load buffer = Ok data) :
  exists n : nat,
    length (positions data) = (3 * n)%nat
    /\ length (boneIndices data) = (4 * n)%nat
    /\ length (boneWeights data) = (4 * n)%nat
    /\ forall i : nat, (i < n)%nat ->
         exists b : Z,
           b ∈ BONES
           /\ take 4 (drop (4 * i) (boneIndices data)) = [ofZ b; lit 0; lit 0; lit 0]
           /\ take 4 (drop (4 * i) (boneWeights data)) = [lit 1; lit 0; lit 0; lit 0].
Proof.
  destruct (load_Ok _ _ Hload) as (rawPoints & Hpos & Hidx & Hw).
  set (bones := rig_bones (rig (positions_of rawPoints))) in *.
  assert (Hlen : length bones = length rawPoints) by apply length_rig_bones.
  assert (Hall : Forall (fun b => b ∈ BONES) bones) by apply rig_bones_in_BONES.
  exists (length rawPoints).
  assert (Hfour : forall (f : Z -> list num), (forall b, length (f b) = 4%nat) ->
            length (concat (map f bones)) = (4 * length rawPoints)%nat).
  { intros f Hf. rewrite <- Hlen. clear -Hf.
    induction bones as [|b bones IH]; [done|].
    simpl. rewrite length_app, Hf, IH. lia. }
  split; [by rewrite Hpos, length_rig_positions|].
  split; [rewrite Hidx; by apply Hfour|].
  split; [rewrite Hw; by apply Hfour|].
  intros i Hi.
  destruct (lookup_lt_is_Some_2 bones i) as [b Hb]; [lia|].
  exists b. split; [by eapply Forall_lookup_1 in Hall|].
  assert (Hslice : forall (f : Z -> list num), (forall b, length (f b) = 4%nat) ->
            take 4 (drop (4 * i) (concat (map f bones))) = f b).
  { intros f Hf. apply list_eq. intros c.
    destruct (decide (c < 4)%nat) as [Hc|Hc].
    - rewrite lookup_take_lt, lookup_drop by done. by apply lookup_join_four.
    - rewrite lookup_take_ge by lia. symmetry. apply lookup_ge_None_2. rewrite Hf. lia. }
  split; [rewrite Hidx|rewrite Hw]; by apply Hslice.
Qed.
End RigFacts.

(* ===================================================================== *)
(** * Exact arithmetic: point clouds with real coordinates *)
(* ===================================================================== *)

Lemma Qc_leb_le (a b : Qc) : Qc_leb a b = true <-> (a <= b)%Qc.
Proof.
  unfold Qc_leb. rewrite Qcle_alt.
  destruct (a ?= b)%Qc; split; (done || intros H; by destruct H).
Qed.

Lemma Qc_ltb_lt (a b : Qc) : Qc_ltb a b = true <-> (a < b)%Qc.
Proof. unfold Qc_ltb. rewrite Qclt_alt. destruct (a ?= b)%Qc; split; done. Qed.

Lemma Qc_leb_gt (a b : Qc) : Qc_leb a b = false <-> (b < a)%Qc.
Proof.
  split.
  - intros H. apply Qcnot_le_lt. intros Hle. apply Qc_leb_le in Hle. congruence.
  - intros H. destruct (Qc_leb a b) eqn:E; [|done].
    apply Qc_leb_le in E. by apply Qcle_not_lt in E.
Qed.

Lemma Qc_ltb_ge (a b : Qc) : Qc_ltb a b = false <-> (b <= a)%Qc.
Proof.
  split.
  - intros H. apply Qcnot_lt_le. intros Hlt. apply Qc_ltb_lt in Hlt. congruence.
  - intros H. destruct (Qc_ltb a b) eqn:E; [|done].
    apply Qc_ltb_lt in E. by apply Qcle_not_lt in H.
Qed.

(** A point cloud with real coordinates, as the loader holds it. *)
Definition RealPoint : Type := Qc * Qc * Qc.
Definition px (p : RealPoint) : Qc := fst (fst p).
Definition py (p : RealPoint) : Qc := snd (fst p).
Definition pz (p : RealPoint) : Qc := snd p.

Definition finitePoint (p : RealPoint) : Vector3 ExNum :=
  mkVector3 (Fin (px p)) (Fin (py p)) (Fin (pz p)).
Definition finiteCloud (cloud : list RealPoint) : list ExNum :=
  positions_of (map finitePoint cloud).

(** The corners of the bounding box of real points, computed on the
    rationals. *)
Definition Qc_min (a b : Qc) : Qc := if Qc_leb a b then a else b.
Definition Qc_max (a b : Qc) : Qc := if Qc_leb a b then b else a.
Definition corner_step (mm : RealPoint * RealPoint) (p : RealPoint) : RealPoint * RealPoint :=
  let '(mn, mx) := mm in
  ((Qc_min (px mn) (px p), Qc_min (py mn) (py p), Qc_min (pz mn) (pz p)),
   (Qc_max (px mx) (px p), Qc_max (py mx) (py p), Qc_max (pz mx) (pz p))).
Definition corners (p : RealPoint) (rest : list RealPoint) : RealPoint * RealPoint :=
  fold_left corner_step rest (p, p).

Section Corners.
Local Open Scope Qc_scope.

Lemma Qc_min_le_l (a b : Qc) : Qc_min a b <= a.
Proof.
  unfold Qc_min. destruct (Qc_leb a b) eqn:E; [apply Qcle_refl|].
  apply Qc_leb_gt in E. by apply Qclt_le_weak.
Qed.
Lemma Qc_min_le_r (a b : Qc) : Qc_min a b <= b.
Proof.
  unfold Qc_min. destruct (Qc_leb a b) eqn:E; [by apply Qc_leb_le|apply Qcle_refl].
Qed.
Lemma Qc_min_cases (a b : Qc) : Qc_min a b = a \/ Qc_min a b = b.
Proof. unfold Qc_min. destruct (Qc_leb a b); auto. Qed.
Lemma Qc_max_ge_l (a b : Qc) : a <= Qc_max a b.
Proof.
  unfold Qc_max. destruct (Qc_leb a b) eqn:E; [by apply Qc_leb_le|apply Qcle_refl].
Qed.
Lemma Qc_max_ge_r (a b : Qc) : b <= Qc_max a b.
Proof.
  unfold Qc_max. destruct (Qc_leb a b) eqn:E; [apply Qcle_refl|].
  apply Qc_leb_gt in E. by apply Qclt_le_weak.
Qed.
Lemma Qc_max_cases (a b : Qc) : Qc_max a b = a \/ Qc_max a b = b.
Proof. unfold Qc_max. destruct (Qc_leb a b); auto. Qed.

(** The lower corner is below the start and every point, and its height is
    the start's or a point's. *)
Lemma corner_fold_min_y (l : list RealPoint) (mn mx : RealPoint) :
  let r := fst (fold_left corner_step l (mn, mx)) in
  py r <= py mn
  /\ (forall q, q ∈ l -> py r <= py q)
  /\ (py r = py mn \/ exists q, q ∈ l /\ py q = py r).
Proof.
  revert mn mx. induction l as [|p l IH]; intros mn mx r.
  - split; [apply Qcle_refl|]. split; [by intros q Hq%elem_of_nil|by left].
  - unfold r. rewrite fold_left_step.
    destruct (corner_step (mn, mx) p) as [mn' mx'] eqn:E.
    destruct (IH mn' mx') as (Hle & Hall & Hatt).
    set (r' := fst (fold_left corner_step l (mn', mx'))) in *.
    assert (Hstep : py mn' = Qc_min (py mn) (py p)).
    { unfold corner_step in E. by injection E as <- <-. }
    rewrite Hstep in Hle, Hatt.
    split; [eapply Qcle_trans; [exact Hle|apply Qc_min_le_l]|]. split.
    + intros q [->|Hq]%elem_of_cons; [|by apply Hall].
      eapply Qcle_trans; [exact Hle|apply Qc_min_le_r].
    + destruct Hatt as [Heq|(q & Hq & Heq)].
      * destruct (Qc_min_cases (py mn) (py p)) as [Hm|Hm]; rewrite Hm in Heq.
        -- by left.
        -- right. exists p. split; [by left|done].
      * right. exists q. split; [by right|done].
Qed.

Lemma corner_fold_max_y (l : list RealPoint) (mn mx : RealPoint) :
  let r := snd (fold_left corner_step l (mn, mx)) in
  py mx <= py r
  /\ (forall q, q ∈ l -> py q <= py r)
  /\ (py r = py mx \/ exists q, q ∈ l /\ py q = py r).
Proof.
  revert mn mx. induction l as [|p l IH]; intros mn mx r.
  - split; [apply Qcle_refl|]. split; [by intros q Hq%elem_of_nil|by left].
  - unfold r. rewrite fold_left_step.
    destruct (corner_step (mn, mx) p) as [mn' mx'] eqn:E.
    destruct (IH mn' mx') as (Hle & Hall & Hatt).
    set (r' := snd (fold_left corner_step l (mn', mx'))) in *.
    assert (Hstep : py mx' = Qc_max (py mx) (py p)).
    { unfold corner_step in E. by injection E as <- <-. }
    rewrite Hstep in Hle, Hatt.
    split; [eapply Qcle_trans; [apply Qc_max_ge_l|exact Hle]|]. split.
    + intros q [->|Hq]%elem_of_cons; [|by apply Hall].
      eapply Qcle_trans; [apply Qc_max_ge_r|exact Hle].
    + destruct Hatt as [Heq|(q & Hq & Heq)].
      * destruct (Qc_max_cases (py mx) (py p)) as [Hm|Hm]; rewrite Hm in Heq.
        -- by left.
        -- right. exists p. split; [by left|done].
      * right. exists q. split; [by right|done].
Qed.

(** The heights of the corners of a cloud are its least and greatest
    height. *)
Definition least_height (cloud : list RealPoint) (y : Qc) : Prop :=
  (forall q, q ∈ cloud -> y <= py q) /\ exists q, q ∈ cloud /\ py q = y.
Definition greatest_height (cloud : list RealPoint) (y : Qc) : Prop :=
  (forall q, q ∈ cloud -> py q <= y) /\ exists q, q ∈ cloud /\ py q = y.

Lemma corners_heights (p : RealPoint) (rest : list RealPoint) :
  least_height (p :: rest) (py (fst (corners p rest)))
  /\ greatest_height (p :: rest) (py (snd (corners p rest))).
Proof.
  unfold corners, least_height, greatest_height.
  destruct (corner_fold_min_y rest p p) as (Hle & Hall & Hatt).
  destruct (corner_fold_max_y rest p p) as (Hge & Hall' & Hatt').
  split; split.
  - intros q [->|Hq]%elem_of_cons; [done|by apply Hall].
  - destruct Hatt as [Heq|(q & Hq & Heq)].
    + exists p. split; [by left|done].
    + exists q. split; [by right|done].
  - intros q [->|Hq]%elem_of_cons; [done|by apply Hall'].
  - destruct Hatt' as [Heq|(q & Hq & Heq)].
    + exists p. split; [by left|done].
    + exists q. split; [by right|done].
Qed.

Lemma least_height_unique (cloud : list RealPoint) (y y' : Qc) :
  least_height cloud y -> least_height cloud y' -> y = y'.
Proof.
  intros [Hlb (q & Hq & <-)] [Hlb' (q' & Hq' & <-)].
  apply Qcle_antisym; auto.
Qed.

Lemma greatest_height_unique (cloud : list RealPoint) (y y' : Qc) :
  greatest_height cloud y -> greatest_height cloud y' -> y = y'.
Proof.
  intros [Hub (q & Hq & <-)] [Hub' (q' & Hq' & <-)].
  apply Qcle_antisym; auto.
Qed.
End Corners.

Section ExactCalibration.
Variables (qpi : Qc) (qsqrt qsin qcos : Qc -> Qc).
#[local] Abbreviation Exact := (ExactNumber qpi qsqrt qsin qcos).
#[local] Hint Extern 0 (JSNumber ExNum) => exact Exact : typeclass_instances.

Lemma points_of_finiteCloud (cloud : list RealPoint) :
  points_of (finiteCloud cloud) = map finitePoint cloud.
Proof. apply points_of_positions_of. Qed.

Lemma bbox_step_finite (mn mx p : RealPoint) :
  bbox_step (finitePoint mn, finitePoint mx) (finitePoint p)
  = (finitePoint (fst (corner_step (mn, mx) p)),
     finitePoint (snd (corner_step (mn, mx) p))).
Proof.
  unfold bbox_step, finitePoint, corner_step, Qc_min, Qc_max. simpl.
  unfold Ex_min, Ex_max. simpl.
  repeat match goal with |- context [Qc_leb ?a ?b] => destruct (Qc_leb a b) end; done.
Qed.

Lemma bbox_fold_finite (rest : list RealPoint) (mn mx : RealPoint) :
  fold_left bbox_step (map finitePoint rest) (finitePoint mn, finitePoint mx)
  = (finitePoint (fst (fold_left corner_step rest (mn, mx))),
     finitePoint (snd (fold_left corner_step rest (mn, mx)))).
Proof.
  revert mn mx. induction rest as [|p rest IH]; intros mn mx; [done|].
  simpl map. rewrite !fold_left_step, bbox_step_finite.
  destruct (corner_step (mn, mx) p) as [mn' mx'] eqn:E. simpl. apply IH.
Qed.

Lemma bbox_first_step (p : RealPoint) :
  bbox_step (mkVector3 Infinity Infinity Infinity,
             mkVector3 (neg Infinity) (neg Infinity) (neg Infinity)) (finitePoint p)
  = (finitePoint p, finitePoint p).
Proof. done. Qed.

(** The bounding box of a cloud that is not empty. *)
Lemma computeBoundingBox_finite (p : RealPoint) (rest : list RealPoint) :
  let mn := fst (corners p rest) in
  let mx := snd (corners p rest) in
  computeBoundingBox (finiteCloud (p :: rest))
  = mkBoundingBox (finitePoint mn) (finitePoint mx)
      (finitePoint (((px mn + px mx) / Q2Qc 2)%Qc, ((py mn + py mx) / Q2Qc 2)%Qc,
                    ((pz mn + pz mx) / Q2Qc 2)%Qc))
      (finitePoint ((px mx - px mn)%Qc, (py mx - py mn)%Qc, (pz mx - pz mn)%Qc)).
Proof.
  intros mn mx. unfold computeBoundingBox.
  rewrite points_of_finiteCloud. simpl map.
  rewrite fold_left_step, bbox_first_step, bbox_fold_finite.
  fold (corners p rest). fold mn mx.
  unfold finitePoint. simpl. unfold Ex_div, Ex_sub. simpl.
  replace (Q2Qc 2 ?= 0)%Qc with Gt by done.
  done.
Qed.
(** The target height 1.70, and pass 2 on the rationals. *)
Definition targetHeight : Qc := Q2Qc (170 # Pos.of_nat (10 ^ 2)).

Definition normalizeReal (mn mx : RealPoint) (q : RealPoint) : RealPoint :=
  let s := (targetHeight / (py mx - py mn))%Qc in
  (((px q - (px mn + px mx) / Q2Qc 2) * s)%Qc,
   ((py q - py mn) * s)%Qc,
   ((pz q - (pz mn + pz mx) / Q2Qc 2) * s)%Qc).

Lemma targetHeight_value : targetHeight = Q2Qc (17 # 10).
Proof. qc_compute. Qed.

Lemma targetHeight_pos : (0 < targetHeight)%Qc.
Proof. done. Qed.

Lemma Qc_compare_pos (h : Qc) : (0 < h)%Qc -> (h ?= 0)%Qc = Gt.
Proof. intros H. by apply Qcgt_alt. Qed.

Lemma Ex_div_pos (x h : Qc) : (0 < h)%Qc -> Ex_div (Fin x) (Fin h) = Fin (x / h)%Qc.
Proof. intros H. unfold Ex_div. by rewrite Qc_compare_pos. Qed.

Lemma height_pos (mn mx : RealPoint) : (py mn < py mx)%Qc -> (0 < py mx - py mn)%Qc.
Proof.
  intros H. apply (Qcplus_lt_mono_r _ _ (py mn)).
  replace (py mx - py mn + py mn)%Qc with (py mx) by ring. by rewrite Qcplus_0_l.
Qed.

Lemma scale_pos (mn mx : RealPoint) :
  (py mn < py mx)%Qc -> (0 < targetHeight / (py mx - py mn))%Qc.
Proof.
  intros H. apply Qcmult_pos_pos; [apply targetHeight_pos|].
  apply Qcinv_pos. by apply height_pos.
Qed.

(** Calibration and pass 2 on a cloud with a positive height. *)
Lemma normalizedCloud_finite (p : RealPoint) (rest : list RealPoint) :
  let mn := fst (corners p rest) in
  let mx := snd (corners p rest) in
  (py mn < py mx)%Qc ->
  normalizedCloud (finiteCloud (p :: rest))
  = finiteCloud (map (normalizeReal mn mx) (p :: rest)).
Proof.
  intros mn mx Hh. unfold normalizedCloud. cbv zeta.
  rewrite computeBoundingBox_finite. fold mn mx.
  unfold computeAdaptiveScale, normalizePositions. cbn [scaleFactor bb_size].
  rewrite points_of_finiteCloud.
  change (vy (finitePoint ?q)) with (Fin (py q)). cbn [py fst snd].
  change (dec 170 2) with (Fin targetHeight).
  rewrite Ex_div_pos by (by apply height_pos).
  unfold finiteCloud. apply (f_equal positions_of).
  rewrite !map_map. apply map_ext. intros q.
  unfold normalizePoint, normalizeReal, finitePoint. done.
Qed.

Lemma normalized_heights (p : RealPoint) (rest : list RealPoint) :
  let mn := fst (corners p rest) in
  let mx := snd (corners p rest) in
  (py mn < py mx)%Qc ->
  least_height (map (normalizeReal mn mx) (p :: rest)) 0%Qc
  /\ greatest_height (map (normalizeReal mn mx) (p :: rest)) targetHeight.
Proof.
  intros mn mx Hh.
  destruct (corners_heights p rest) as [[Hlb (qa & Hqa & Ha)] [Hub (qb & Hqb & Hb)]].
  fold mn in Hlb, Ha. fold mx in Hub, Hb.
  pose proof (scale_pos mn mx Hh) as Hs.
  assert (Hne : (py mx - py mn)%Qc <> 0%Qc).
  { intros H0. pose proof (height_pos mn mx Hh) as Hp. rewrite H0 in Hp.
    by apply Qclt_not_eq in Hp. }
  split; split.
  - intros q' (q & -> & Hq)%list_elem_of_fmap. unfold normalizeReal. cbn [py fst snd].
    apply Qcmult_nonneg_nonneg; [|by apply Qclt_le_weak].
    apply (Qcplus_le_mono_r _ _ (py mn)).
    replace (py q - py mn + py mn)%Qc with (py q) by ring.
    rewrite Qcplus_0_l. by apply Hlb.
  - exists (normalizeReal mn mx qa). split; [by apply list_elem_of_fmap_2|].
    unfold normalizeReal. cbn [py fst snd]. rewrite Ha. ring.
  - intros q' (q & -> & Hq)%list_elem_of_fmap. unfold normalizeReal. cbn [py fst snd].
    rewrite <- (Qcmult_div_r targetHeight (py mx - py mn)) at 2 by done.
    apply Qcmult_le_mono_nonneg_r; [by apply Qclt_le_weak|].
    apply Qcplus_le_mono_r. by apply Hub.
  - exists (normalizeReal mn mx qb). split; [by apply list_elem_of_fmap_2|].
    unfold normalizeReal. cbn [py fst snd]. rewrite Hb. by apply Qcmult_div_r.
Qed.

(** A cloud with two points at different heights. *)
Definition spans_a_height (cloud : list RealPoint) : Prop :=
  exists a b, a ∈ cloud /\ b ∈ cloud /\ (py a < py b)%Qc.

Lemma spans_corners (cloud : list RealPoint) :
  spans_a_height cloud ->
  exists p rest, cloud = p :: rest
    /\ (py (fst (corners p rest)) < py (snd (corners p rest)))%Qc.
Proof.
  intros (a & b & Ha & Hb & Hab).
  destruct cloud as [|p rest]; [by apply elem_of_nil in Ha|].
  exists p, rest. split; [done|].
  destruct (corners_heights p rest) as [[Hlb _] [Hub _]].
  apply Qcle_lt_trans with (py a); [by apply Hlb|].
  apply Qclt_le_trans with (py b); [exact Hab|by apply Hub].
Qed.

(** C6.  In a cloud whose heights span an interval [minY < maxY], pass 2
    sends the height [y] of every point to [(y - minY) * (1.70 / (maxY -
    minY))]: a point at the greatest raw height lands at 1.70 and a point
    at the least raw height at 0. *)
Theorem calibration_sends_max_to_target_and_min_to_floor
    (cloud : list RealPoint) (i : nat) (p : RealPoint)
    (Hspan : spans_a_height cloud) (Hp : cloud !! i = Some p) :
  let normalized := points_of (rig_positions (rig (finiteCloud cloud))) in
  exists minY maxY : Qc,
    least_height cloud minY /\ greatest_height cloud maxY
    /\ vy <$> normalized !! i
       = Some (Fin ((py p - minY) * (Q2Qc (17 # 10) / (maxY - minY)))%Qc)
    /\ (py p = maxY -> vy <$> normalized !! i = Some (Fin (Q2Qc (17 # 10))))
    /\ (py p = minY -> vy <$> normalized !! i = Some (Fin 0%Qc)).
Proof.
  intros normalized.
  destruct (spans_corners cloud Hspan) as (p0 & rest & -> & Hh).
  set (mn := fst (corners p0 rest)) in *. set (mx := snd (corners p0 rest)) in *.
  destruct (corners_heights p0 rest) as [Hmin Hmax]. fold mn in Hmin. fold mx in Hmax.
  exists (py mn), (py mx). split; [done|]. split; [done|].
  assert (Hi : vy <$> normalized !! i
               = Some (Fin ((py p - py mn) * (Q2Qc (17 # 10) / (py mx - py mn)))%Qc)).
  { unfold normalized. rewrite rig_positions_eq, normalizedCloud_finite by done.
    rewrite points_of_finiteCloud, !list_lookup_fmap, Hp. fold mn mx.
    change (vy <$> (finitePoint <$> (normalizeReal mn mx <$> Some p)))
      with (Some (Fin (py (normalizeReal mn mx p)))).
    unfold normalizeReal. cbn [py fst snd]. by rewrite targetHeight_value. }
  assert (Hne : (py mx - py mn)%Qc <> 0%Qc).
  { intros H0. pose proof (height_pos mn mx Hh) as Hpos. rewrite H0 in Hpos.
    by apply Qclt_not_eq in Hpos. }
  split; [exact Hi|]. split.
  - intros Hpy. rewrite Hi, Hpy. do 2 f_equal. by apply Qcmult_div_r.
  - intros Hpy. rewrite Hi, Hpy. do 2 f_equal. ring.
Qed.

(** C7.  For a cloud with a positive height, the bounding box of the
    normalized positions has height 1.70, the target, so calibrating the
    normalized positions again gives the scale factor 1. *)
Theorem calibration_of_normalized_cloud_is_neutral
    (cloud : list RealPoint) (Hspan : spans_a_height cloud) :
  let normalized := rig_positions (rig (finiteCloud cloud)) in
  let bbox := computeBoundingBox normalized in
  vy (bb_min bbox) = Fin 0%Qc
  /\ vy (bb_max bbox) = Fin (Q2Qc (17 # 10))
  /\ vy (bb_size bbox) = Fin (Q2Qc (17 # 10))
  /\ scaleFactor (computeAdaptiveScale bbox (dec 170 2)) = Fin 1%Qc.
Proof.
  intros normalized bbox.
  destruct (spans_corners cloud Hspan) as (p0 & rest & -> & Hh).
  set (mn := fst (corners p0 rest)) in *. set (mx := snd (corners p0 rest)) in *.
  destruct (normalized_heights p0 rest Hh) as [Hmin Hmax]. fold mn mx in Hmin, Hmax.
  assert (Hbox : bbox = computeBoundingBox
                          (finiteCloud (map (normalizeReal mn mx) (p0 :: rest)))).
  { unfold bbox, normalized. by rewrite rig_positions_eq, normalizedCloud_finite. }
  change (map (normalizeReal mn mx) (p0 :: rest))
    with (normalizeReal mn mx p0 :: map (normalizeReal mn mx) rest) in Hbox, Hmin, Hmax.
  rewrite computeBoundingBox_finite in Hbox.
  destruct (corners_heights (normalizeReal mn mx p0) (map (normalizeReal mn mx) rest))
    as [Hmin' Hmax'].
  pose proof (least_height_unique _ _ _ Hmin' Hmin) as E0.
  pose proof (greatest_height_unique _ _ _ Hmax' Hmax) as E1.
  rewrite Hbox. cbn [bb_min bb_max bb_size]. unfold computeAdaptiveScale.
  cbn [scaleFactor bb_size].
  change (vy (finitePoint ?q)) with (Fin (py q)). cbn [py fst snd].
  rewrite E0, E1, targetHeight_value.
  replace (Q2Qc (17 # 10) - 0)%Qc with (Q2Qc (17 # 10)) by ring.
  split; [done|]. split; [done|]. split; [done|].
  vm_compute. fin_compute.
Qed.
End ExactCalibration.

(* ===================================================================== *)
(** * Exact arithmetic: bone detection is total *)
(* ===================================================================== *)

(** The least radius of each bone. *)
Definition minRadius (boneIdx : Z) : Qc :=
  if (boneIdx =? 0)%Z then Q2Qc (12 # 100)
  else if (boneIdx =? 3)%Z then Q2Qc (14 # 100)
  else if (boneIdx =? 9)%Z then Q2Qc (15 # 100)
  else if (boneIdx =? 12)%Z then Q2Qc (6 # 100)
  else if (boneIdx =? 15)%Z then Q2Qc (10 # 100)
  else if (boneIdx =? 22)%Z then Q2Qc (4 # 100)
  else Q2Qc (6 # 100).

(** A vector whose three coordinates are finite. *)
Definition FinitePoint (v : Vector3 ExNum) : Prop := exists q, v = finitePoint q.

Definition real_add (a b : RealPoint) : RealPoint :=
  ((px a + px b)%Qc, (py a + py b)%Qc, (pz a + pz b)%Qc).

Definition real_coord (axis : Axis) (q : RealPoint) : Qc :=
  match axis with AxisX => px q | AxisY => py q | AxisZ => pz q end.

Section ExactDetection.
Variables (qpi : Qc) (qsqrt qsin qcos : Qc -> Qc).
#[local] Abbreviation Exact := (ExactNumber qpi qsqrt qsin qcos).
#[local] Hint Extern 0 (JSNumber ExNum) => exact Exact : typeclass_instances.

Lemma Forall_FinitePoint_map (l : list RealPoint) : Forall FinitePoint (map finitePoint l).
Proof. apply Forall_fmap, Forall_forall. intros q _. by exists q. Qed.

Lemma FinitePoint_list (pts : list (Vector3 ExNum)) :
  Forall FinitePoint pts -> exists l, pts = map finitePoint l.
Proof.
  induction 1 as [|v pts [q ->] _ [l ->]]; [by exists []|]. by exists (q :: l).
Qed.

Lemma Forall_sort_insert {A : Type} (P : A -> Prop) (cmp : A -> A -> ExNum)
    (x : A) (l : list A) :
  P x -> Forall P l -> Forall P (sort_insert cmp x l).
Proof.
  intros Hx. induction 1 as [|e l He Hl IH]; simpl; [by constructor|].
  case_match; constructor; auto.
Qed.

Lemma Forall_Array_sort {A : Type} (P : A -> Prop) (cmp : A -> A -> ExNum) (l : list A) :
  Forall P l -> Forall P (Array_sort cmp l).
Proof.
  induction 1 as [|x l Hx Hl IH]; simpl; [constructor|]. by apply Forall_sort_insert.
Qed.

Lemma Forall_list_filter {A : Type} (P : A -> Prop) (f : A -> bool) (l : list A) :
  Forall P l -> Forall P (List.filter f l).
Proof.
  induction 1 as [|x l Hx Hl IH]; simpl; [constructor|].
  destruct (f x); [by constructor|done].
Qed.

Lemma ofZ_length_pos {A : Type} (l : list A) :
  l <> [] ->
  exists n : Qc, ofZ (array_length l) = Fin n /\ (0 < n)%Qc.
Proof.
  intros Hne. exists (Q2Qc (inject_Z (array_length l))). split; [reflexivity|].
  apply Qclt_alt. unfold Qccompare. cbn [this Q2Qc].
  rewrite <- Qred_compare. unfold Qcompare. cbn [Qnum Qden inject_Z].
  apply Z.compare_lt_iff. unfold array_length. destruct l; [done|]. simpl length. lia.
Qed.

Lemma fold_Vector3_add_finite (l : list RealPoint) (a : RealPoint) :
  fold_left Vector3_add (map finitePoint l) (finitePoint a)
  = finitePoint (fold_left real_add l a).
Proof.
  revert a. induction l as [|q l IH]; intros a; [done|].
  simpl map. rewrite !fold_left_step. by rewrite <- IH.
Qed.

(** The centroid of finite points is finite. *)
Lemma computeCentroid_finite (l : list RealPoint) :
  FinitePoint (computeCentroid (map finitePoint l)).
Proof.
  unfold computeCentroid.
  destruct (array_length (map finitePoint l) =? 0)%Z eqn:E.
  - by exists (0%Qc, 0%Qc, 0%Qc).
  - assert (Hne : map finitePoint l <> []).
    { intros H0. rewrite H0 in E. done. }
    destruct (ofZ_length_pos _ Hne) as (n & -> & Hn).
    change (mkVector3 (lit 0) (lit 0) (lit 0)) with (finitePoint (0%Qc, 0%Qc, 0%Qc)).
    rewrite fold_Vector3_add_finite.
    set (s := fold_left real_add l _).
    unfold Vector3_divideScalar, Vector3_multiplyScalar.
    change (div (lit 1) (Fin n)) with (Ex_div (Fin 1%Qc) (Fin n)).
    rewrite Ex_div_pos by done.
    by exists ((px s * (1 / n))%Qc, (py s * (1 / n))%Qc, (pz s * (1 / n))%Qc).
Qed.

Lemma fold_sum_finite (axis : Axis) (l : list RealPoint) (a : Qc) :
  fold_left (fun sum p => add sum (coord axis p)) (map finitePoint l) (Fin a)
  = Fin (fold_left (fun sum q => sum + real_coord axis q)%Qc l a).
Proof.
  revert a. induction l as [|q l IH]; intros a; [done|].
  simpl map. rewrite !fold_left_step. rewrite <- IH. by destruct axis.
Qed.

Lemma fold_squares_finite (axis : Axis) (mean : Qc) (l : list RealPoint) (a : Qc) :
  (0 <= a)%Qc ->
  exists v, (0 <= v)%Qc /\
    fold_left (fun sum p => add sum (sq (sub (coord axis p) (Fin mean))))
              (map finitePoint l) (Fin a) = Fin v.
Proof.
  revert a. induction l as [|q l IH]; intros a Ha; [by exists a|].
  simpl map. rewrite fold_left_step.
  set (d := (real_coord axis q - mean)%Qc).
  assert (Hstep : add (Fin a) (sq (sub (coord axis (finitePoint q)) (Fin mean)))
                  = Fin (a + d * d)%Qc) by (by destruct axis).
  rewrite Hstep. apply IH.
  apply Qcplus_nonneg_nonneg; [done|].
  destruct (Qclt_le_dec d 0) as [Hneg|Hpos].
  - replace (d * d)%Qc with ((- d) * (- d))%Qc by ring.
    assert (0 <= - d)%Qc.
    { apply Qclt_le_weak in Hneg. apply Qcopp_le_compat in Hneg.
      by replace (- 0)%Qc with 0%Qc in Hneg by ring. }
    by apply Qcmult_nonneg_nonneg.
  - by apply Qcmult_nonneg_nonneg.
Qed.

(** The spread of finite points is a finite number: no division by zero,
    no square root of a negative number. *)
Lemma computeStdDev_finite (l : list RealPoint) (axis : Axis) :
  exists r, computeStdDev (map finitePoint l) axis = Fin r.
Proof.
  unfold computeStdDev.
  destruct (array_length (map finitePoint l) =? 0)%Z eqn:E; [by eexists|].
  assert (Hne : map finitePoint l <> []).
  { intros H0. rewrite H0 in E. done. }
  destruct (ofZ_length_pos _ Hne) as (n & -> & Hn). cbv zeta.
  change (lit 0) with (Fin 0%Qc).
  rewrite fold_sum_finite.
  change (div (Fin ?s) (Fin n)) with (Ex_div (Fin s) (Fin n)).
  rewrite Ex_div_pos by done.
  destruct (fold_squares_finite axis
              (fold_left (fun sum q => sum + real_coord axis q)%Qc l 0%Qc / n)%Qc
              l 0%Qc (Qcle_refl 0)) as (v & Hv & ->).
  change (div (Fin v) (Fin n)) with (Ex_div (Fin v) (Fin n)).
  rewrite Ex_div_pos by done.
  change (Math_sqrt (Fin ?x)) with (Ex_sqrt qsqrt (Fin x)). unfold Ex_sqrt.
  assert (Hnn : (0 <= v / n)%Qc).
  { apply Qcmult_nonneg_nonneg; [done|]. by apply Qclt_le_weak, Qcinv_pos. }
  apply Qc_ltb_ge in Hnn. rewrite Hnn. by eexists.
Qed.

Lemma Ex_max_finite (a b : Qc) : Ex_max (Fin a) (Fin b) = Fin (Qc_max a b).
Proof. unfold Ex_max, Qc_max. simpl. by destruct (Qc_leb a b). Qed.

(** A trunk bone: finite centroid, radius at least the floor. *)
Lemma bandBone_finite (pts : list (Vector3 ExNum)) (minY maxY : ExNum) (floor : Qc) :
  Forall FinitePoint pts ->
  FinitePoint (position (bandBone pts minY maxY (Fin floor)))
  /\ exists r, radius (bandBone pts minY maxY (Fin floor)) = Fin r /\ (floor <= r)%Qc.
Proof.
  intros Hpts. unfold bandBone. cbn [position radius].
  destruct (FinitePoint_list (getPointsInRange pts minY maxY)) as [l ->].
  { by apply Forall_list_filter. }
  split; [apply computeCentroid_finite|].
  destruct (computeStdDev_finite l AxisX) as [r ->].
  change (Math_max (Fin r) (Fin floor)) with (Ex_max (Fin r) (Fin floor)).
  rewrite Ex_max_finite. eexists. split; [done|]. apply Qc_max_ge_r.
Qed.
Lemma jawBone_finite (pts : list (Vector3 ExNum)) (neckCenter : Vector3 ExNum) :
  Forall FinitePoint pts -> FinitePoint neckCenter ->
  FinitePoint (position (jawBone pts neckCenter))
  /\ radius (jawBone pts neckCenter) = Fin (minRadius 22).
Proof.
  intros Hpts [c ->]. unfold jawBone. cbv zeta.
  destruct (FinitePoint_list (jawCandidates pts (finitePoint c))) as [l Hl].
  { unfold jawCandidates. cbv zeta.
    by apply Forall_take, Forall_Array_sort, Forall_list_filter. }
  rewrite Hl. case_match.
  - split; [|reflexivity].
    by exists (px c, (py c + Q2Qc (5 # 100))%Qc, (pz c + Q2Qc (8 # 100))%Qc).
  - split; [apply computeCentroid_finite|reflexivity].
Qed.

Lemma shoulders_finite (pts : list (Vector3 ExNum)) (shoulderHeight : ExNum) :
  Forall FinitePoint pts ->
  FinitePoint (computeCentroid (leftShoulderPoints (shoulderPoints pts shoulderHeight)))
  /\ FinitePoint (computeCentroid (rightShoulderPoints (shoulderPoints pts shoulderHeight))).
Proof.
  intros Hpts.
  assert (Hs : Forall FinitePoint (shoulderPoints pts shoulderHeight)).
  { unfold shoulderPoints. by apply Forall_Array_sort, Forall_list_filter. }
  split.
  - destruct (FinitePoint_list (leftShoulderPoints (shoulderPoints pts shoulderHeight)))
      as [l ->]; [by apply Forall_drop|]. apply computeCentroid_finite.
  - destruct (FinitePoint_list (rightShoulderPoints (shoulderPoints pts shoulderHeight)))
      as [l ->]; [by apply Forall_take|]. apply computeCentroid_finite.
Qed.

(** The eight entries of the result, in the order of their keys. *)
Lemma detectBonePositions_entries (positions : list ExNum) (bbox : BoundingBox ExNum) :
  let points := points_of positions in
  let height := vy (bb_size bbox) in
  let band lo hi r := bandBone points (mul (dec lo 2) height) (mul (dec hi 2) height) (dec r 2) in
  let sortedByX := shoulderPoints points (vy (position (band 75 88 15))) in
  detectBonePositions positions bbox
  = [(0, band 50 65 12); (3, band 60 75 14); (9, band 75 88 15); (12, band 88 93 6);
     (15, bandBone points (mul (dec 90 2) height) (mul (dec 10 1) height) (dec 10 2));
     (16, mkBonePosition (computeCentroid (leftShoulderPoints sortedByX)) (dec 6 2));
     (17, mkBonePosition (computeCentroid (rightShoulderPoints sortedByX)) (dec 6 2));
     (22, jawBone points (position (band 88 93 6)))]%Z.
Proof. reflexivity. Qed.

(** What the claim asks of a detected bone. *)
Definition well_detected (entry : Z * BonePosition ExNum) : Prop :=
  let '(boneIdx, b) := entry in
  FinitePoint (position b)
  /\ exists r : Qc,
       radius b = Fin r /\ (0 < r)%Qc /\ (minRadius boneIdx <= r)%Qc
       /\ (boneIdx ∈ [16; 17; 22]%Z -> r = minRadius boneIdx).

Lemma well_detected_band (boneIdx : Z) (pts : list (Vector3 ExNum)) (minY maxY : ExNum) :
  Forall FinitePoint pts -> boneIdx ∉ [16; 17; 22]%Z -> (0 < minRadius boneIdx)%Qc ->
  well_detected (boneIdx, bandBone pts minY maxY (Fin (minRadius boneIdx))).
Proof.
  intros Hpts Hidx Hpos.
  destruct (bandBone_finite pts minY maxY (minRadius boneIdx) Hpts) as [Hc (r & Hr & Hle)].
  split; [done|]. exists r. split; [done|]. split; [|split; [done|done]].
  by eapply Qclt_le_trans.
Qed.

(** On points with finite coordinates every detected bone is as the claim
    asks. *)
Lemma detectBonePositions_finite_points (positions : list ExNum) (bbox : BoundingBox ExNum) :
  Forall FinitePoint (points_of positions) ->
  Forall well_detected (detectBonePositions positions bbox).
Proof.
  intros Hpts. rewrite detectBonePositions_entries. cbv zeta.
  set (pts := points_of positions) in *.
  set (h := vy (bb_size bbox)).
  assert (Hband : forall k lo hi r, dec r 2 = Fin (minRadius k) ->
            k ∉ [16; 17; 22]%Z -> (0 < minRadius k)%Qc ->
            well_detected (k, bandBone pts (mul lo h) (mul hi h) (dec r 2))).
  { intros k lo hi r -> Hk Hpos. by apply well_detected_band. }
  assert (Hnot : forall k : Z, k <> 16%Z -> k <> 17%Z -> k <> 22%Z -> k ∉ [16; 17; 22]%Z).
  { intros k ? ? ? Hin. repeat (apply elem_of_cons in Hin as [Hin|Hin]; [done|]).
    by apply elem_of_nil in Hin. }
  destruct (bandBone_finite pts (mul (dec 88 2) h) (mul (dec 93 2) h) (minRadius 12) Hpts)
    as [Hneck _].
  destruct (jawBone_finite pts _ Hpts Hneck) as [Hjaw Hjawr].
  destruct (shoulders_finite pts
              (vy (position (bandBone pts (mul (dec 75 2) h) (mul (dec 88 2) h)
                               (dec 15 2)))) Hpts) as [Hleft Hright].
  repeat apply Forall_cons_2; try apply Forall_nil_2.
  - by apply Hband; [reflexivity|apply Hnot|].
  - by apply Hband; [reflexivity|apply Hnot|].
  - by apply Hband; [reflexivity|apply Hnot|].
  - by apply Hband; [reflexivity|apply Hnot|].
  - by apply (Hband 15%Z (dec 90 2) (dec 10 1) 10%Z); [reflexivity|apply Hnot|].
  - split; [exact Hleft|]. exists (minRadius 16). by repeat split.
  - split; [exact Hright|]. exists (minRadius 17). by repeat split.
  - split; [exact Hjaw|]. exists (minRadius 22). by repeat split.
Qed.

(** Bone detection in exact arithmetic, where no sum overflows and no
    coordinate is NaN or infinite: on a cloud of real coordinates, and
    whatever bounding box it is given, it returns the eight bones 0, 3, 9,
    12, 15, 16, 17, 22, each with a finite centroid and a finite radius
    that is strictly
    positive and at least the bone's minimum (0.12 hips, 0.14 spine1, 0.15
    chest, 0.06 neck, 0.10 head; exactly 0.06 for the shoulders and 0.04
    for the jaw).  A band that selects no point has centroid (0, 0, 0) and
    standard deviation 0.1: nothing is divided by zero. *)
Lemma detectBonePositions_exact (cloud : list RealPoint) (bbox : BoundingBox ExNum) :
  let result := detectBonePositions (finiteCloud cloud) bbox in
  map fst result = BONES
  /\ Forall well_detected result
  /\ computeCentroid [] = mkVector3 (Fin 0%Qc) (Fin 0%Qc) (Fin 0%Qc)
  /\ (forall axis, computeStdDev [] axis = Fin (Q2Qc (1 # 10)))
  /\ forall minY maxY floor,
       getPointsInRange (points_of (finiteCloud cloud)) minY maxY = [] ->
       bandBone (points_of (finiteCloud cloud)) minY maxY (Fin floor)
       = mkBonePosition (mkVector3 (Fin 0%Qc) (Fin 0%Qc) (Fin 0%Qc))
                        (Fin (Qc_max (Q2Qc (1 # 10)) floor)).
Proof.
  intros result.
  assert (Hpts : Forall FinitePoint (points_of (finiteCloud cloud))).
  { rewrite points_of_finiteCloud. apply Forall_FinitePoint_map. }
  split; [apply detectBonePositions_keys|]. split; [|split; [done|split]].
  - by apply detectBonePositions_finite_points.
  - intros axis. unfold computeStdDev. simpl. fin_compute.
  - intros minY maxY floor Hempty. unfold bandBone. rewrite Hempty.
    change (Math_max (computeStdDev [] AxisX) (Fin floor))
      with (Ex_max (Fin (Q2Qc (1 # 10))) (Fin floor)).
    by rewrite Ex_max_finite.
Qed.
End ExactDetection.

(* ===================================================================== *)
(** * Exact arithmetic: sums, minima and maxima do not depend on order *)
(* ===================================================================== *)

Section ExactAlgebra.
Local Open Scope Qc_scope.

Lemma Qc_min_glb (x a b : Qc) : x <= Qc_min a b <-> x <= a /\ x <= b.
Proof.
  split.
  - intros H. split; (apply Qcle_trans with (Qc_min a b); [done|]).
    + apply Qc_min_le_l.
    + apply Qc_min_le_r.
  - intros [Ha Hb]. by destruct (Qc_min_cases a b) as [->| ->].
Qed.

Lemma Qc_max_lub (x a b : Qc) : Qc_max a b <= x <-> a <= x /\ b <= x.
Proof.
  split.
  - intros H. split; (apply Qcle_trans with (Qc_max a b); [|done]).
    + apply Qc_max_ge_l.
    + apply Qc_max_ge_r.
  - intros [Ha Hb]. by destruct (Qc_max_cases a b) as [->| ->].
Qed.

Lemma Qc_min_comm (a b : Qc) : Qc_min a b = Qc_min b a.
Proof.
  apply Qcle_antisym; apply Qc_min_glb; split;
    auto using Qc_min_le_l, Qc_min_le_r.
Qed.

Lemma Qc_min_assoc (a b c : Qc) : Qc_min (Qc_min a b) c = Qc_min a (Qc_min b c).
Proof.
  apply Qcle_antisym; repeat (apply Qc_min_glb; split).
  - eapply Qcle_trans; [apply Qc_min_le_l|apply Qc_min_le_l].
  - eapply Qcle_trans; [apply Qc_min_le_l|apply Qc_min_le_r].
  - apply Qc_min_le_r.
  - apply Qc_min_le_l.
  - eapply Qcle_trans; [apply Qc_min_le_r|apply Qc_min_le_l].
  - eapply Qcle_trans; [apply Qc_min_le_r|apply Qc_min_le_r].
Qed.

Lemma Qc_max_comm (a b : Qc) : Qc_max a b = Qc_max b a.
Proof.
  apply Qcle_antisym; apply Qc_max_lub; split;
    auto using Qc_max_ge_l, Qc_max_ge_r.
Qed.

Lemma Qc_max_assoc (a b c : Qc) : Qc_max (Qc_max a b) c = Qc_max a (Qc_max b c).
Proof.
  apply Qcle_antisym; repeat (apply Qc_max_lub; split).
  - apply Qc_max_ge_l.
  - eapply Qcle_trans; [apply Qc_max_ge_l|apply Qc_max_ge_r].
  - eapply Qcle_trans; [apply Qc_max_ge_r|apply Qc_max_ge_r].
  - eapply Qcle_trans; [apply Qc_max_ge_l|apply Qc_max_ge_l].
  - eapply Qcle_trans; [apply Qc_max_ge_r|apply Qc_max_ge_l].
  - apply Qc_max_ge_r.
Qed.

Lemma Ex_min_finite (a b : Qc) : Ex_min (Fin a) (Fin b) = Fin (Qc_min a b).
Proof. unfold Ex_min, Qc_min. simpl. by destruct (Qc_leb a b). Qed.

Lemma Ex_add_comm (a b : ExNum) : Ex_add a b = Ex_add b a.
Proof. destruct a, b; simpl; try done. f_equal. ring. Qed.

Lemma Ex_add_assoc (a b c : ExNum) : Ex_add (Ex_add a b) c = Ex_add a (Ex_add b c).
Proof. destruct a, b, c; simpl; try done. f_equal. ring. Qed.

Lemma Ex_min_max_mixed (a : Qc) :
  (Ex_min (Fin a) PInf = Fin a /\ Ex_min PInf (Fin a) = Fin a
   /\ Ex_min (Fin a) NInf = NInf /\ Ex_min NInf (Fin a) = NInf)
  /\ (Ex_max (Fin a) PInf = PInf /\ Ex_max PInf (Fin a) = PInf
      /\ Ex_max (Fin a) NInf = Fin a /\ Ex_max NInf (Fin a) = Fin a).
Proof. done. Qed.

Ltac ex_min_max :=
  repeat first
    [ rewrite Ex_min_finite | rewrite Ex_max_finite
    | rewrite (proj1 (proj1 (Ex_min_max_mixed _)))
    | rewrite (proj1 (proj2 (proj1 (Ex_min_max_mixed _))))
    | rewrite (proj1 (proj2 (proj2 (proj1 (Ex_min_max_mixed _)))))
    | rewrite (proj2 (proj2 (proj2 (proj1 (Ex_min_max_mixed _)))))
    | rewrite (proj1 (proj2 (Ex_min_max_mixed _)))
    | rewrite (proj1 (proj2 (proj2 (Ex_min_max_mixed _))))
    | rewrite (proj1 (proj2 (proj2 (proj2 (Ex_min_max_mixed _)))))
    | rewrite (proj2 (proj2 (proj2 (proj2 (Ex_min_max_mixed _))))) ].

Lemma Ex_min_comm (a b : ExNum) : Ex_min a b = Ex_min b a.
Proof.
  destruct a, b; try done. rewrite !Ex_min_finite. f_equal. apply Qc_min_comm.
Qed.

Lemma Ex_min_assoc (a b c : ExNum) : Ex_min (Ex_min a b) c = Ex_min a (Ex_min b c).
Proof.
  destruct a as [a| | |], b as [b| | |], c as [c| | |]; try done; ex_min_max; try done.
  f_equal. apply Qc_min_assoc.
Qed.

Lemma Ex_max_comm (a b : ExNum) : Ex_max a b = Ex_max b a.
Proof.
  destruct a, b; try done. rewrite !Ex_max_finite. f_equal. apply Qc_max_comm.
Qed.

Lemma Ex_max_assoc (a b c : ExNum) : Ex_max (Ex_max a b) c = Ex_max a (Ex_max b c).
Proof.
  destruct a as [a| | |], b as [b| | |], c as [c| | |]; try done; ex_min_max; try done.
  f_equal. apply Qc_max_assoc.
Qed.

(** A loop whose rounds can be exchanged computes the same from a permuted
    list. *)
Lemma fold_left_Permutation {A B : Type} (f : A -> B -> A) (l l' : list B) (a : A) :
  (forall a x y, f (f a x) y = f (f a y) x) ->
  l ≡ₚ l' -> fold_left f l a = fold_left f l' a.
Proof.
  intros Hf Hperm. revert a.
  induction Hperm as [|x l l' _ IH|x y l|l l' l'' _ IH1 _ IH2]; intros a.
  - done.
  - rewrite !fold_left_step. apply IH.
  - rewrite !fold_left_step. by rewrite Hf.
  - by rewrite IH1.
Qed.

Lemma list_filter_Permutation {A : Type} (f : A -> bool) (l l' : list A) :
  l ≡ₚ l' -> List.filter f l ≡ₚ List.filter f l'.
Proof.
  induction 1 as [|x l l' _ IH|x y l|l l' l'' _ IH1 _ IH2]; simpl.
  - done.
  - destruct (f x); [by constructor|done].
  - destruct (f x), (f y); try done. apply perm_swap.
  - by etrans.
Qed.
End ExactAlgebra.

(* ===================================================================== *)
(** * Exact arithmetic: sorting by a key without ties *)
(* ===================================================================== *)

Section ExactSort.
Variables (qpi : Qc) (qsqrt qsin qcos : Qc -> Qc).
#[local] Abbreviation Exact := (ExactNumber qpi qsqrt qsin qcos).
#[local] Hint Extern 0 (JSNumber ExNum) => exact Exact : typeclass_instances.

Context {A : Type} (key : A -> ExNum).

(** The comparator [(a, b) => key(a) - key(b)]. *)
Definition byKey (a b : A) : ExNum := sub (key a) (key b).

(** [a] has a smaller finite key than [b]. *)
Definition key_lt (a b : A) : Prop :=
  exists qa qb, key a = Fin qa /\ key b = Fin qb /\ (qa < qb)%Qc.

Definition finite_key (a : A) : Prop := exists q, key a = Fin q.

Lemma byKey_negative (a b : A) (qa qb : Qc) :
  key a = Fin qa -> key b = Fin qb ->
  ltb (byKey a b) (lit 0) = Qc_ltb qa qb.
Proof.
  intros Ha Hb. unfold byKey. rewrite Ha, Hb.
  change (ltb (sub (Fin qa) (Fin qb)) (lit 0)) with (Qc_ltb (qa - qb) 0).
  destruct (Qc_ltb qa qb) eqn:E.
  - apply Qc_ltb_lt. apply Qc_ltb_lt in E.
    apply (Qcplus_lt_mono_r _ _ qb).
    replace (qa - qb + qb)%Qc with qa by ring. by rewrite Qcplus_0_l.
  - apply Qc_ltb_ge. apply Qc_ltb_ge in E.
    apply (Qcplus_le_mono_r _ _ qb).
    replace (qa - qb + qb)%Qc with qa by ring. by rewrite Qcplus_0_l.
Qed.

Lemma sort_insert_Permutation (x : A) (l : list A) :
  sort_insert byKey x l ≡ₚ x :: l.
Proof.
  induction l as [|e l IH]; simpl; [done|].
  case_match; [|done]. rewrite IH. apply perm_swap.
Qed.

Lemma Array_sort_Permutation (l : list A) : Array_sort byKey l ≡ₚ l.
Proof.
  induction l as [|x l IH]; simpl; [done|].
  rewrite sort_insert_Permutation. by constructor.
Qed.

Lemma key_lt_trans (a b c : A) : key_lt a b -> key_lt b c -> key_lt a c.
Proof.
  intros (qa & qb & Ha & Hb & Hab) (qb' & qc & Hb' & Hc & Hbc).
  rewrite Hb in Hb'. injection Hb' as <-.
  exists qa, qc. split; [done|]. split; [done|]. by eapply Qclt_trans.
Qed.

Lemma sort_insert_sorted (x : A) (l : list A) :
  finite_key x -> Forall finite_key l -> key x ∉ map key l ->
  StronglySorted key_lt l -> StronglySorted key_lt (sort_insert byKey x l).
Proof.
  intros [qx Hx] Hfin Hnot Hsorted.
  induction Hsorted as [|e l Hl IH He]; cbn [sort_insert].
  - repeat constructor.
  - apply Forall_cons in Hfin as [[qe Hqe] Hfin].
    apply not_elem_of_cons in Hnot as [Hne Hnot].
    rewrite (byKey_negative e x qe qx) by done.
    destruct (Qc_ltb qe qx) eqn:E.
    + apply Qc_ltb_lt in E. constructor; [by apply IH|].
      rewrite sort_insert_Permutation. constructor; [|done].
      by exists qe, qx.
    + apply Qc_ltb_ge in E.
      assert (Hlt : key_lt x e).
      { exists qx, qe. split; [done|]. split; [done|].
        destruct (Qcle_lt_or_eq _ _ E) as [Hlt|Heq]; [done|].
        destruct Hne. by rewrite Hx, Hqe, Heq. }
      constructor; [by constructor|]. constructor; [done|].
      eapply Forall_impl; [exact He|]. intros y Hy. by eapply key_lt_trans.
Qed.

Lemma Array_sort_sorted (l : list A) :
  Forall finite_key l -> NoDup (map key l) ->
  StronglySorted key_lt (Array_sort byKey l).
Proof.
  induction l as [|x l IH]; intros Hfin Hnd; simpl; [constructor|].
  apply Forall_cons in Hfin as [Hx Hfin]. apply NoDup_cons in Hnd as [Hnot Hnd].
  apply sort_insert_sorted; [done| | |by apply IH].
  - by rewrite Array_sort_Permutation.
  - by rewrite Array_sort_Permutation.
Qed.

(** Without ties, the sorted array does not depend on the order of the
    input. *)
Lemma Array_sort_unique (l l' : list A) :
  Forall finite_key l -> NoDup (map key l) -> l ≡ₚ l' ->
  Array_sort byKey l = Array_sort byKey l'.
Proof.
  intros Hfin Hnd Hperm.
  apply (StronglySorted_unique_strong key_lt).
  - intros a b _ _ (qa & qb & Ha & Hb & Hab) (qb' & qa' & Hb' & Ha' & Hba).
    rewrite Ha in Ha'. rewrite Hb in Hb'. injection Ha' as <-. injection Hb' as <-.
    destruct (Qclt_not_le _ _ Hab). by apply Qclt_le_weak.
  - by apply Array_sort_sorted.
  - apply Array_sort_sorted; by rewrite <- Hperm.
  - by rewrite !Array_sort_Permutation.
Qed.
End ExactSort.

(* ===================================================================== *)
(** * Exact arithmetic: what rigging keeps when the points are permuted *)
(* ===================================================================== *)

Section ExactOrder.
Variables (qpi : Qc) (qsqrt qsin qcos : Qc -> Qc).
#[local] Abbreviation Exact := (ExactNumber qpi qsqrt qsin qcos).
#[local] Hint Extern 0 (JSNumber ExNum) => exact Exact : typeclass_instances.

Lemma bbox_step_exchange (mm : Vector3 ExNum * Vector3 ExNum) (x y : Vector3 ExNum) :
  bbox_step (bbox_step mm x) y = bbox_step (bbox_step mm y) x.
Proof.
  destruct mm as [mn mx]. unfold bbox_step. cbn [vx vy vz].
  change (@Math_min ExNum Exact) with Ex_min. change (@Math_max ExNum Exact) with Ex_max.
  rewrite !Ex_min_assoc, !Ex_max_assoc.
  by rewrite (Ex_min_comm (vx x)), (Ex_min_comm (vy x)), (Ex_min_comm (vz x)),
    (Ex_max_comm (vx x)), (Ex_max_comm (vy x)), (Ex_max_comm (vz x)).
Qed.

Lemma computeBoundingBox_Permutation (a b : list ExNum) :
  points_of a ≡ₚ points_of b -> computeBoundingBox a = computeBoundingBox b.
Proof.
  intros Hperm. unfold computeBoundingBox.
  by rewrite (fold_left_Permutation bbox_step _ _ _ bbox_step_exchange Hperm).
Qed.

Lemma Vector3_add_exchange (a x y : Vector3 ExNum) :
  Vector3_add (Vector3_add a x) y = Vector3_add (Vector3_add a y) x.
Proof.
  unfold Vector3_add. cbn [vx vy vz]. change (@add ExNum Exact) with Ex_add.
  rewrite !Ex_add_assoc.
  by rewrite (Ex_add_comm (vx x)), (Ex_add_comm (vy x)), (Ex_add_comm (vz x)).
Qed.

Lemma array_length_Permutation {A : Type} (l l' : list A) :
  l ≡ₚ l' -> array_length l = array_length l'.
Proof. intros H. unfold array_length. by rewrite H. Qed.

Lemma computeCentroid_Permutation (pts pts' : list (Vector3 ExNum)) :
  pts ≡ₚ pts' -> computeCentroid pts = computeCentroid pts'.
Proof.
  intros Hperm. unfold computeCentroid.
  rewrite (array_length_Permutation _ _ Hperm).
  by rewrite (fold_left_Permutation Vector3_add _ _ _ Vector3_add_exchange Hperm).
Qed.

Lemma sum_exchange (f : Vector3 ExNum -> ExNum) (s : ExNum) (x y : Vector3 ExNum) :
  add (add s (f x)) (f y) = add (add s (f y)) (f x).
Proof.
  change (@add ExNum Exact) with Ex_add.
  by rewrite !Ex_add_assoc, (Ex_add_comm (f x)).
Qed.

Lemma computeStdDev_Permutation (pts pts' : list (Vector3 ExNum)) (axis : Axis) :
  pts ≡ₚ pts' -> computeStdDev pts axis = computeStdDev pts' axis.
Proof.
  intros Hperm. unfold computeStdDev.
  rewrite (array_length_Permutation _ _ Hperm). cbv zeta.
  rewrite (fold_left_Permutation (fun sum p => add sum (coord axis p)) _ _ _
             (sum_exchange (coord axis)) Hperm).
  match goal with
  | |- context [fold_left ?f pts ?a] =>
      rewrite (fold_left_Permutation f pts pts' a); [done| |done]
  end.
  intros s x y. apply (sum_exchange (fun p => sq (sub (coord axis p) _))).
Qed.

Lemma getPointsInRange_Permutation (pts pts' : list (Vector3 ExNum)) (minY maxY : ExNum) :
  pts ≡ₚ pts' -> getPointsInRange pts minY maxY ≡ₚ getPointsInRange pts' minY maxY.
Proof. apply list_filter_Permutation. Qed.

Lemma bandBone_Permutation (pts pts' : list (Vector3 ExNum)) (minY maxY r : ExNum) :
  pts ≡ₚ pts' -> bandBone pts minY maxY r = bandBone pts' minY maxY r.
Proof.
  intros Hperm. unfold bandBone.
  pose proof (getPointsInRange_Permutation _ _ minY maxY Hperm) as Hband.
  by rewrite (computeCentroid_Permutation _ _ Hband),
    (computeStdDev_Permutation _ _ AxisX Hband).
Qed.

(** A cloud is either finite throughout, or has no height at all (NaN),
    in which case no band selects a point. *)
Definition no_height (pts : list (Vector3 ExNum)) : Prop :=
  Forall (fun p => vy p = Nan) pts.

Lemma getPointsInRange_no_height (pts : list (Vector3 ExNum)) (minY maxY : ExNum) :
  no_height pts -> getPointsInRange pts minY maxY = [].
Proof.
  unfold getPointsInRange.
  induction 1 as [|p pts Hp _ IH]; [done|]. simpl. rewrite Hp.
  change (leb minY Nan) with (Ex_leb minY Nan).
  replace (Ex_leb minY Nan) with false by (by destruct minY). done.
Qed.

Lemma jawRegionPoints_no_height (pts : list (Vector3 ExNum)) (neckCenter : Vector3 ExNum) :
  no_height pts -> jawRegionPoints pts neckCenter = [].
Proof.
  unfold jawRegionPoints.
  induction 1 as [|p pts Hp _ IH]; [done|]. simpl. rewrite Hp.
  change (leb (vy neckCenter) Nan) with (Ex_leb (vy neckCenter) Nan).
  replace (Ex_leb (vy neckCenter) Nan) with false by (by destruct (vy neckCenter)). done.
Qed.

Lemma finite_key_vy (pts : list (Vector3 ExNum)) :
  Forall FinitePoint pts -> Forall (finite_key vy) pts.
Proof. intros H. eapply Forall_impl; [exact H|]. intros p [q ->]. by exists (py q). Qed.

Lemma finite_key_vx (pts : list (Vector3 ExNum)) :
  Forall FinitePoint pts -> Forall (finite_key vx) pts.
Proof. intros H. eapply Forall_impl; [exact H|]. intros p [q ->]. by exists (px q). Qed.

(** The jaw cluster does not depend on the order of the points when no two
    points of the jaw region have the same height. *)
Lemma jawBone_Permutation (pts pts' : list (Vector3 ExNum)) (neckCenter : Vector3 ExNum) :
  pts ≡ₚ pts' ->
  Forall FinitePoint pts \/ no_height pts ->
  NoDup (map vy (jawRegionPoints pts neckCenter)) ->
  jawBone pts neckCenter = jawBone pts' neckCenter.
Proof.
  intros Hperm Hcases Hnd. unfold jawBone, jawCandidates. cbv zeta.
  assert (Hsort : Array_sort (fun a b => sub (vy a) (vy b)) (jawRegionPoints pts neckCenter)
                  = Array_sort (fun a b => sub (vy a) (vy b))
                      (jawRegionPoints pts' neckCenter)).
  { destruct Hcases as [Hfin|Hnan].
    - apply (Array_sort_unique qpi qsqrt qsin qcos vy); [|done|].
      + by apply finite_key_vy, Forall_list_filter.
      + by apply list_filter_Permutation.
    - rewrite !jawRegionPoints_no_height; [done| |done].
      unfold no_height. by rewrite <- Hperm. }
  by rewrite Hsort.
Qed.

(** Nor do the shoulder clusters when no two points of the shoulder band
    have the same X. *)
Lemma shoulderPoints_Permutation (pts pts' : list (Vector3 ExNum)) (shoulderHeight : ExNum) :
  pts ≡ₚ pts' ->
  Forall FinitePoint pts \/ no_height pts ->
  NoDup (map vx (getPointsInRange pts (sub shoulderHeight (dec 5 2))
                   (add shoulderHeight (dec 5 2)))) ->
  shoulderPoints pts shoulderHeight = shoulderPoints pts' shoulderHeight.
Proof.
  intros Hperm Hcases Hnd. unfold shoulderPoints.
  destruct Hcases as [Hfin|Hnan].
  - apply (Array_sort_unique qpi qsqrt qsin qcos vx); [|done|].
    + by apply finite_key_vx, Forall_list_filter.
    + by apply getPointsInRange_Permutation.
  - rewrite !getPointsInRange_no_height; [done| |done].
    unfold no_height. by rewrite <- Hperm.
Qed.
Lemma detectBonePositions_Permutation (a b : list ExNum) (bbox : BoundingBox ExNum) :
  let pts := points_of a in
  let height := vy (bb_size bbox) in
  let neck := bandBone pts (mul (dec 88 2) height) (mul (dec 93 2) height) (dec 6 2) in
  let chest := bandBone pts (mul (dec 75 2) height) (mul (dec 88 2) height) (dec 15 2) in
  pts ≡ₚ points_of b ->
  Forall FinitePoint pts \/ no_height pts ->
  NoDup (map vy (jawRegionPoints pts (position neck))) ->
  NoDup (map vx (getPointsInRange pts (sub (vy (position chest)) (dec 5 2))
                   (add (vy (position chest)) (dec 5 2)))) ->
  detectBonePositions a bbox = detectBonePositions b bbox.
Proof.
  intros pts height neck chest Hperm Hcases Hjaw Hshoulder.
  rewrite !(detectBonePositions_entries qpi qsqrt qsin qcos). cbv zeta.
  fold pts height. set (pts' := points_of b) in *.
  fold neck chest.
  rewrite (jawBone_Permutation pts pts' (position neck) Hperm Hcases Hjaw).
  rewrite (shoulderPoints_Permutation pts pts' (vy (position chest)) Hperm Hcases Hshoulder).
  unfold neck, chest.
  by rewrite !(bandBone_Permutation pts pts' _ _ _ Hperm).
Qed.

(** The points that the jaw sort and the shoulder sort receive. *)
Definition jawSortInput (cloud : list RealPoint) : list (Vector3 ExNum) :=
  let normalizedPositions := normalizedCloud (finiteCloud cloud) in
  let points := points_of normalizedPositions in
  let height := vy (bb_size (computeBoundingBox normalizedPositions)) in
  let neck := bandBone points (mul (dec 88 2) height) (mul (dec 93 2) height) (dec 6 2) in
  jawRegionPoints points (position neck).

Definition shoulderSortInput (cloud : list RealPoint) : list (Vector3 ExNum) :=
  let normalizedPositions := normalizedCloud (finiteCloud cloud) in
  let points := points_of normalizedPositions in
  let height := vy (bb_size (computeBoundingBox normalizedPositions)) in
  let chest := bandBone points (mul (dec 75 2) height) (mul (dec 88 2) height) (dec 15 2) in
  getPointsInRange points (sub (vy (position chest)) (dec 5 2))
                          (add (vy (position chest)) (dec 5 2)).

(** The bone that rigging gives a point, and the list of the points with
    their bones. *)
Definition assignment (cloud : list RealPoint) : list (RealPoint * Z) :=
  zip cloud (rig_bones (rig (finiteCloud cloud))).

Lemma normalized_cases (cloud : list RealPoint) :
  let pts := points_of (normalizedCloud (finiteCloud cloud)) in
  Forall FinitePoint pts \/ no_height pts.
Proof.
  intros pts. destruct cloud as [|p rest]; [left; constructor|].
  set (mn := fst (corners p rest)). set (mx := snd (corners p rest)).
  destruct (corners_heights p rest) as [[Hlb (qa & Hqa & Ha)] [Hub (qb & Hqb & Hb)]].
  fold mn in Hlb, Ha. fold mx in Hub, Hb.
  assert (Hle : (py mn <= py mx)%Qc).
  { apply Qcle_trans with (py qa); [by apply Hlb|by apply Hub]. }
  destruct (Qcle_lt_or_eq _ _ Hle) as [Hlt|Heq].
  - left. unfold pts.
    rewrite (normalizedCloud_finite qpi qsqrt qsin qcos) by done.
    rewrite (points_of_finiteCloud qpi qsqrt qsin qcos). apply Forall_FinitePoint_map.
  - right. unfold pts, finiteCloud. rewrite points_of_normalizedCloud.
    fold (finiteCloud (p :: rest)).
    rewrite (computeBoundingBox_finite qpi qsqrt qsin qcos). fold mn mx.
    unfold no_height. apply Forall_fmap, Forall_fmap, Forall_forall. intros q Hq.
    unfold computeAdaptiveScale, normalizePoint, finitePoint.
    cbn [scaleFactor bb_size bb_min vy py fst snd compose].
    change (fround ?x) with x.
    replace (py mx - py mn)%Qc with 0%Qc by (rewrite Heq; ring).
    change (div (dec 170 2) (Fin 0%Qc)) with PInf.
    assert (Hq0 : (py q - py mn)%Qc = 0%Qc).
    { assert (py q = py mn) as ->; [|ring].
      apply Qcle_antisym; [rewrite Heq; by apply Hub|by apply Hlb]. }
    change (sub (Fin (py q)) (Fin (py mn))) with (Fin (py q - py mn)%Qc).
    by rewrite Hq0.
Qed.

(** A cloud without height selects nothing, as the empty cloud does. *)
Lemma detectBonePositions_no_height (positions : list ExNum) (bbox : BoundingBox ExNum) :
  no_height (points_of positions) ->
  detectBonePositions positions bbox = detectBonePositions [] bbox.
Proof.
  intros Hno. rewrite !(detectBonePositions_entries qpi qsqrt qsin qcos). cbv zeta.
  unfold bandBone, shoulderPoints, jawBone, jawCandidates. cbv zeta.
  rewrite !(getPointsInRange_no_height (points_of positions)) by done.
  rewrite !(jawRegionPoints_no_height (points_of positions)) by done.
  reflexivity.
Qed.

Lemma assignment_fmap (cloud : list RealPoint) (g : RealPoint -> Z) :
  rig_bones (rig (finiteCloud cloud)) = map g cloud ->
  assignment cloud = map (fun q => (q, g q)) cloud.
Proof.
  intros Hg. unfold assignment. rewrite Hg. clear Hg.
  induction cloud as [|q cloud IH]; [done|]. simpl. by rewrite IH.
Qed.

(** Were the arithmetic exact, ties in the two sorts would be all that
    makes rigging read the order of the points: when no two points that
    enter the jaw sort have the same height and no two points that enter
    the shoulder sort have the same X, the bone of a point is a function of
    the point alone, the same function for a cloud and for every
    permutation of it.  (Binary64 rounds the sums of bone detection in the
    order of the points; see [detectBonePositions_rounds_in_point_order].) *)
Lemma rig_exact_without_ties_is_order_independent (cloud cloud' : list RealPoint)
    (Hperm : cloud ≡ₚ cloud')
    (Hjaw : NoDup (map vy (jawSortInput cloud)))
    (Hshoulder : NoDup (map vx (shoulderSortInput cloud))) :
  (exists g : RealPoint -> Z,
      rig_bones (rig (finiteCloud cloud)) = map g cloud
      /\ rig_bones (rig (finiteCloud cloud')) = map g cloud')
  /\ assignment cloud ≡ₚ assignment cloud'.
Proof.
  set (raw := finiteCloud cloud). set (raw' := finiteCloud cloud').
  assert (Hraw : points_of raw ≡ₚ points_of raw').
  { unfold raw, raw'. rewrite !(points_of_finiteCloud qpi qsqrt qsin qcos).
    by apply Permutation_map. }
  pose proof (computeBoundingBox_Permutation raw raw' Hraw) as Hbox.
  set (N := normalizePoint (computeBoundingBox raw)
              (scaleFactor (computeAdaptiveScale (computeBoundingBox raw) (dec 170 2)))).
  assert (Hpts : points_of (normalizedCloud raw) = map N (map finitePoint cloud)).
  { unfold raw, finiteCloud. by rewrite points_of_normalizedCloud. }
  assert (Hpts' : points_of (normalizedCloud raw') = map N (map finitePoint cloud')).
  { unfold N. rewrite Hbox. unfold raw', finiteCloud. by rewrite points_of_normalizedCloud. }
  assert (Hnorm : points_of (normalizedCloud raw) ≡ₚ points_of (normalizedCloud raw')).
  { rewrite Hpts, Hpts'. by do 2 apply Permutation_map. }
  assert (Htps : cloudTemplates (normalizedCloud raw) = cloudTemplates (normalizedCloud raw')).
  { unfold cloudTemplates. cbv zeta.
    rewrite <- (computeBoundingBox_Permutation _ _ Hnorm).
    f_equal.
    exact (detectBonePositions_Permutation _ (normalizedCloud raw') _ Hnorm
             (normalized_cases cloud) Hjaw Hshoulder). }
  set (g := fun q => bestBone (cloudTemplates (normalizedCloud raw)) (N (finitePoint q))).
  assert (Hg : rig_bones (rig raw) = map g cloud).
  { by rewrite rig_bones_eq, Hpts, !map_map. }
  assert (Hg' : rig_bones (rig raw') = map g cloud').
  { rewrite rig_bones_eq, Hpts', <- Htps. by rewrite !map_map. }
  split; [by exists g|].
  rewrite (assignment_fmap cloud g Hg), (assignment_fmap cloud' g Hg').
  by apply Permutation_map.
Qed.
End ExactOrder.

(* ===================================================================== *)
(** * Binary64: how the floats are ordered, [Math.min] and [Math.max] *)
(* ===================================================================== *)

(** A key for the floating-point numbers other than NaN, ordered
    lexicographically as the comparisons order the numbers; the two zeros
    share a key. *)
Definition SFkey (f : spec_float) : option (Z * Z * Z) :=
  match f with
  | S754_nan => None
  | S754_infinity true => Some (-2, 0, 0)
  | S754_infinity false => Some (2, 0, 0)
  | S754_zero _ => Some (0, 0, 0)
  | S754_finite true m e => Some (-1, - e, Z.neg m)
  | S754_finite false m e => Some (1, e, Z.pos m)
  end.

Definition lex3 (a b : Z * Z * Z) : comparison :=
  let '(a1, a2, a3) := a in
  let '(b1, b2, b3) := b in
  match a1 ?= b1 with
  | Eq => match a2 ?= b2 with
          | Eq => a3 ?= b3
          | c => c
          end
  | c => c
  end.

Definition lexlt (a b : Z * Z * Z) : Prop :=
  let '(a1, a2, a3) := a in
  let '(b1, b2, b3) := b in
  a1 < b1 \/ (a1 = b1 /\ (a2 < b2 \/ (a2 = b2 /\ a3 < b3))).

Lemma lex3_spec (a b : Z * Z * Z) :
  match lex3 a b with
  | Lt => lexlt a b
  | Eq => a = b
  | Gt => lexlt b a
  end.
Proof.
  destruct a as [[a1 a2] a3], b as [[b1 b2] b3]. unfold lex3, lexlt.
  destruct (Z.compare_spec a1 b1); [|lia|lia].
  destruct (Z.compare_spec a2 b2); [|lia|lia].
  destruct (Z.compare_spec a3 b3); [congruence|lia|lia].
Qed.

Lemma lexlt_irrefl (a : Z * Z * Z) : ~ lexlt a a.
Proof. destruct a as [[a1 a2] a3]. unfold lexlt. lia. Qed.

Lemma lexlt_trans (a b c : Z * Z * Z) : lexlt a b -> lexlt b c -> lexlt a c.
Proof.
  destruct a as [[a1 a2] a3], b as [[b1 b2] b3], c as [[c1 c2] c3]. unfold lexlt. lia.
Qed.

Lemma lexlt_asym (a b : Z * Z * Z) : lexlt a b -> lexlt b a -> False.
Proof. intros H1 H2. exact (lexlt_irrefl a (lexlt_trans a b a H1 H2)). Qed.

Lemma lex3_Lt (a b : Z * Z * Z) : lex3 a b = Lt <-> lexlt a b.
Proof.
  pose proof (lex3_spec a b) as H. split.
  - intros E. by rewrite E in H.
  - intros Hlt. destruct (lex3 a b); [|done|].
    + subst b. by destruct (lexlt_irrefl a).
    + by destruct (lexlt_asym a b).
Qed.

Lemma lex3_Eq (a b : Z * Z * Z) : lex3 a b = Eq <-> a = b.
Proof.
  pose proof (lex3_spec a b) as H. split.
  - intros E. by rewrite E in H.
  - intros ->. destruct (lex3 b b) eqn:E; [done| |]; by destruct (lexlt_irrefl b).
Qed.

Lemma SFcompare_key (f1 f2 : spec_float) :
  SFcompare f1 f2
  = match SFkey f1, SFkey f2 with
    | Some a, Some b => Some (lex3 a b)
    | _, _ => None
    end.
Proof.
  destruct f1 as [s1|s1| |s1 m1 e1], f2 as [s2|s2| |s2 m2 e2];
    try (destruct s1); try (destruct s2); try reflexivity.
  - cbn [SFcompare SFkey lex3 Z.compare]. rewrite Z.compare_opp.
    rewrite (Z.compare_antisym e1 e2).
    destruct (e1 ?= e2)%Z; reflexivity.
Qed.

(** The key of a float, and the sign of a zero. *)
Definition fkey (x : float) : option (Z * Z * Z) := SFkey (Prim2SF x).
Definition zsign (x : float) : Z :=
  match Prim2SF x with S754_zero true => -1 | _ => 0 end.

Lemma F64_isNaN_None (x : float) : F64_isNaN x = true <-> fkey x = None.
Proof.
  unfold F64_isNaN, fkey. rewrite FloatAxioms.eqb_spec. unfold SFeqb.
  rewrite SFcompare_key. destruct (SFkey (Prim2SF x)) as [a|]; [|done].
  rewrite (proj2 (lex3_Eq a a) eq_refl). done.
Qed.

Lemma F64_isNaN_Some (x : float) (a : Z * Z * Z) : fkey x = Some a -> F64_isNaN x = false.
Proof.
  intros Ha. destruct (F64_isNaN x) eqn:E; [|done].
  apply F64_isNaN_None in E. congruence.
Qed.

Lemma F64_nan_unique (x : float) : fkey x = None -> x = nan.
Proof.
  unfold fkey. intros H. rewrite <- (FloatAxioms.SF2Prim_Prim2SF x).
  destruct (Prim2SF x) as [s|s| |s m e]; try (destruct s); try discriminate H.
  reflexivity.
Qed.

Lemma ltb_key (x y : float) (a b : Z * Z * Z) :
  fkey x = Some a -> fkey y = Some b -> (PrimFloat.ltb x y = true <-> lexlt a b).
Proof.
  unfold fkey. intros Ha Hb. rewrite FloatAxioms.ltb_spec. unfold SFltb.
  rewrite SFcompare_key, Ha, Hb. rewrite <- lex3_Lt. by destruct (lex3 a b).
Qed.

Lemma leb_key (x y : float) (a b : Z * Z * Z) :
  fkey x = Some a -> fkey y = Some b ->
  (PrimFloat.leb x y = true <-> lexlt a b \/ a = b).
Proof.
  unfold fkey. intros Ha Hb. rewrite FloatAxioms.leb_spec. unfold SFleb.
  rewrite SFcompare_key, Ha, Hb. rewrite <- lex3_Lt, <- lex3_Eq.
  destruct (lex3 a b); intuition congruence.
Qed.

(** Floats with the same key are the same float or the two zeros. *)
Lemma fkey_inj (x y : float) (a : Z * Z * Z) :
  fkey x = Some a -> fkey y = Some a -> zsign x = zsign y -> x = y.
Proof.
  unfold fkey, zsign. intros Hx Hy Hz. apply FloatAxioms.Prim2SF_inj.
  destruct (Prim2SF x) as [sx|sx| |sx mx ex], (Prim2SF y) as [sy|sy| |sy my ey];
    try (destruct sx); try (destruct sy);
    cbn [SFkey] in Hx, Hy; try discriminate Hx; try discriminate Hz;
    try (rewrite <- Hx in Hy; discriminate Hy); try reflexivity.
  - rewrite <- Hx in Hy. injection Hy as He Hm. f_equal; [congruence|lia].
  - rewrite <- Hx in Hy. injection Hy as He Hm. f_equal; [congruence|lia].
Qed.

(** The order in which [Math.min] and [Math.max] hold the floats: that of
    the comparisons, with -0 below +0. *)
Definition rle (x y : float) : Prop :=
  exists a b, fkey x = Some a /\ fkey y = Some b
              /\ (lexlt a b \/ (a = b /\ zsign x <= zsign y)).

Lemma rle_refl (x : float) (a : Z * Z * Z) : fkey x = Some a -> rle x x.
Proof. intros Ha. exists a, a. split; [done|]. split; [done|]. right. split; [done|lia]. Qed.

Lemma rle_trans (x y z : float) : rle x y -> rle y z -> rle x z.
Proof.
  intros (a & b & Ha & Hb & Hab) (b' & c & Hb' & Hc & Hbc).
  rewrite Hb in Hb'. injection Hb' as <-.
  exists a, c. split; [done|]. split; [done|].
  destruct Hab as [Hab|[-> Hz]], Hbc as [Hbc|[-> Hz']].
  - left. by eapply lexlt_trans.
  - by left.
  - by left.
  - right. split; [done|lia].
Qed.

Lemma rle_antisym (x y : float) : rle x y -> rle y x -> x = y.
Proof.
  intros (a & b & Ha & Hb & Hab) (b' & a' & Hb' & Ha' & Hba).
  rewrite Hb in Hb'. injection Hb' as <-. rewrite Ha in Ha'. injection Ha' as <-.
  destruct Hab as [Hab|[-> Hz]], Hba as [Hba|[E Hz']].
  - by destruct (lexlt_asym a b).
  - subst. by destruct (lexlt_irrefl a).
  - by destruct (lexlt_irrefl b).
  - apply (fkey_inj x y b); [done|done|lia].
Qed.

Lemma zsign_range (x : float) : -1 <= zsign x <= 0.
Proof. unfold zsign. destruct (Prim2SF x) as [s|s| |s m e]; try destruct s; lia. Qed.

(** A float whose key is that of the zeros is one of the two zeros. *)
Lemma zero_key (x : float) :
  fkey x = Some (0, 0, 0) ->
  (x = PrimFloat.zero /\ zsign x = 0) \/ (x = PrimFloat.opp PrimFloat.zero /\ zsign x = -1).
Proof.
  unfold fkey, zsign. intros H.
  rewrite <- (FloatAxioms.SF2Prim_Prim2SF x).
  destruct (Prim2SF x) as [s|s| |s m e]; try (destruct s); try discriminate H.
  - right. split; reflexivity.
  - left. split; reflexivity.
Qed.

Lemma nonzero_key (x : float) (a : Z * Z * Z) :
  fkey x = Some a -> a <> (0, 0, 0) -> zsign x = 0.
Proof.
  unfold fkey, zsign. intros H Ha.
  destruct (Prim2SF x) as [s|s| |s m e]; try (destruct s); cbn [SFkey] in H;
    try done; congruence.
Qed.

(** [Math.min] and [Math.max] of two numbers: the lesser and the greater
    in that order. *)
Lemma F64_min_spec (x y : float) (a b : Z * Z * Z) :
  fkey x = Some a -> fkey y = Some b ->
  (F64_min x y = x /\ rle x y) \/ (F64_min x y = y /\ rle y x).
Proof.
  intros Ha Hb. unfold F64_min.
  rewrite (F64_isNaN_Some x a Ha), (F64_isNaN_Some y b Hb).
  destruct (PrimFloat.ltb x y) eqn:Exy.
  { left. split; [done|]. exists a, b. split; [done|]. split; [done|].
    left. by apply (ltb_key x y a b). }
  destruct (PrimFloat.ltb y x) eqn:Eyx.
  { right. split; [done|]. exists b, a. split; [done|]. split; [done|].
    left. by apply (ltb_key y x b a). }
  assert (Hab : a = b).
  { pose proof (lex3_spec a b) as H. destruct (lex3 a b); [done| |].
    - apply (ltb_key x y a b Ha Hb) in H. congruence.
    - apply (ltb_key y x b a Hb Ha) in H. congruence. }
  subst b.
  destruct (decide (a = (0, 0, 0))) as [->|Hnz].
  - destruct (zero_key x Ha) as [[-> Hzx]|[-> Hzx]].
    + right. split; [reflexivity|]. exists (0, 0, 0), (0, 0, 0).
      split; [done|]. split; [done|]. right. split; [done|].
      pose proof (zsign_range y). lia.
    + left. split; [reflexivity|]. exists (0, 0, 0), (0, 0, 0).
      split; [done|]. split; [done|]. right. split; [done|].
      pose proof (zsign_range y). lia.
  - assert (x = y) as <-.
    { apply (fkey_inj x y a Ha Hb).
      by rewrite (nonzero_key x a Ha Hnz), (nonzero_key y a Hb Hnz). }
    left. split; [by destruct (PrimFloat.ltb (PrimFloat.div _ _) _)|by eapply rle_refl].
Qed.

Lemma F64_max_spec (x y : float) (a b : Z * Z * Z) :
  fkey x = Some a -> fkey y = Some b ->
  (F64_max x y = x /\ rle y x) \/ (F64_max x y = y /\ rle x y).
Proof.
  intros Ha Hb. unfold F64_max.
  rewrite (F64_isNaN_Some x a Ha), (F64_isNaN_Some y b Hb).
  destruct (PrimFloat.ltb x y) eqn:Exy.
  { right. split; [done|]. exists a, b. split; [done|]. split; [done|].
    left. by apply (ltb_key x y a b). }
  destruct (PrimFloat.ltb y x) eqn:Eyx.
  { left. split; [done|]. exists b, a. split; [done|]. split; [done|].
    left. by apply (ltb_key y x b a). }
  assert (Hab : a = b).
  { pose proof (lex3_spec a b) as H. destruct (lex3 a b); [done| |].
    - apply (ltb_key x y a b Ha Hb) in H. congruence.
    - apply (ltb_key y x b a Hb Ha) in H. congruence. }
  subst b.
  destruct (decide (a = (0, 0, 0))) as [->|Hnz].
  - destruct (zero_key x Ha) as [[-> Hzx]|[-> Hzx]].
    + left. split; [reflexivity|]. exists (0, 0, 0), (0, 0, 0).
      split; [done|]. split; [done|]. right. split; [done|].
      pose proof (zsign_range y). lia.
    + right. split; [reflexivity|]. exists (0, 0, 0), (0, 0, 0).
      split; [done|]. split; [done|]. right. split; [done|].
      pose proof (zsign_range y). lia.
  - assert (x = y) as <-.
    { apply (fkey_inj x y a Ha Hb).
      by rewrite (nonzero_key x a Ha Hnz), (nonzero_key y a Hb Hnz). }
    left. split; [by destruct (PrimFloat.ltb (PrimFloat.div _ _) _)|by eapply rle_refl].
Qed.

Lemma F64_min_nan (x y : float) :
  fkey x = None \/ fkey y = None -> F64_min x y = nan.
Proof.
  intros H. unfold F64_min.
  destruct (fkey x) as [a|] eqn:Ha.
  - destruct H as [H|H]; [done|].
    rewrite (F64_isNaN_Some x a Ha), (proj2 (F64_isNaN_None y) H).
    by apply F64_nan_unique.
  - rewrite (proj2 (F64_isNaN_None x) Ha). by apply F64_nan_unique.
Qed.

Lemma F64_max_nan (x y : float) :
  fkey x = None \/ fkey y = None -> F64_max x y = nan.
Proof.
  intros H. unfold F64_max.
  destruct (fkey x) as [a|] eqn:Ha.
  - destruct H as [H|H]; [done|].
    rewrite (F64_isNaN_Some x a Ha), (proj2 (F64_isNaN_None y) H).
    by apply F64_nan_unique.
  - rewrite (proj2 (F64_isNaN_None x) Ha). by apply F64_nan_unique.
Qed.

Lemma fkey_nan : fkey nan = None.
Proof. reflexivity. Qed.

(** The minimum of three numbers does not depend on which two are
    compared first. *)
Lemma F64_min_exchange (s x y : float) :
  F64_min (F64_min s x) y = F64_min (F64_min s y) x.
Proof.
  destruct (fkey s) as [ks|] eqn:Hs;
    [|rewrite !(F64_min_nan s) by auto; by rewrite !(F64_min_nan nan) by auto].
  destruct (fkey x) as [kx|] eqn:Hx.
  2:{ rewrite (F64_min_nan s x), (F64_min_nan nan y), (F64_min_nan _ x) by auto. done. }
  destruct (fkey y) as [ky|] eqn:Hy.
  2:{ rewrite (F64_min_nan _ y), (F64_min_nan s y), (F64_min_nan nan x) by auto. done. }
  assert (H3 : forall p q r kp kq kr, fkey p = Some kp -> fkey q = Some kq -> fkey r = Some kr ->
            let m := F64_min (F64_min p q) r in
            (m = p \/ m = q \/ m = r) /\ rle m p /\ rle m q /\ rle m r).
  { intros p q r kp kq kr Hp Hq Hr m. unfold m.
    destruct (F64_min_spec p q kp kq Hp Hq) as [[E1 L1]|[E1 L1]]; rewrite E1.
    - destruct (F64_min_spec p r kp kr Hp Hr) as [[E2 L2]|[E2 L2]]; rewrite E2.
      + split; [auto|]. split; [by eapply rle_refl|]. done.
      + split; [auto|]. split; [done|]. split; [by eapply rle_trans|by eapply rle_refl].
    - destruct (F64_min_spec q r kq kr Hq Hr) as [[E2 L2]|[E2 L2]]; rewrite E2.
      + split; [auto|]. split; [done|]. split; [by eapply rle_refl|done].
      + split; [auto|]. split; [by eapply rle_trans|]. split; [done|by eapply rle_refl]. }
  destruct (H3 s x y ks kx ky Hs Hx Hy) as (Hin & Ls & Lx & Ly).
  destruct (H3 s y x ks ky kx Hs Hy Hx) as (Hin' & Ls' & Ly' & Lx').
  apply rle_antisym.
  - destruct Hin' as [-> | [-> | ->]]; done.
  - destruct Hin as [-> | [-> | ->]]; done.
Qed.

Lemma F64_max_exchange (s x y : float) :
  F64_max (F64_max s x) y = F64_max (F64_max s y) x.
Proof.
  destruct (fkey s) as [ks|] eqn:Hs;
    [|rewrite !(F64_max_nan s) by auto; by rewrite !(F64_max_nan nan) by auto].
  destruct (fkey x) as [kx|] eqn:Hx.
  2:{ rewrite (F64_max_nan s x), (F64_max_nan nan y), (F64_max_nan _ x) by auto. done. }
  destruct (fkey y) as [ky|] eqn:Hy.
  2:{ rewrite (F64_max_nan _ y), (F64_max_nan s y), (F64_max_nan nan x) by auto. done. }
  assert (H3 : forall p q r kp kq kr, fkey p = Some kp -> fkey q = Some kq -> fkey r = Some kr ->
            let m := F64_max (F64_max p q) r in
            (m = p \/ m = q \/ m = r) /\ rle p m /\ rle q m /\ rle r m).
  { intros p q r kp kq kr Hp Hq Hr m. unfold m.
    destruct (F64_max_spec p q kp kq Hp Hq) as [[E1 L1]|[E1 L1]]; rewrite E1.
    - destruct (F64_max_spec p r kp kr Hp Hr) as [[E2 L2]|[E2 L2]]; rewrite E2.
      + split; [auto|]. split; [by eapply rle_refl|]. done.
      + split; [auto|]. split; [done|]. split; [by eapply rle_trans|by eapply rle_refl].
    - destruct (F64_max_spec q r kq kr Hq Hr) as [[E2 L2]|[E2 L2]]; rewrite E2.
      + split; [auto|]. split; [done|]. split; [by eapply rle_refl|done].
      + split; [auto|]. split; [by eapply rle_trans|]. split; [done|by eapply rle_refl]. }
  destruct (H3 s x y ks kx ky Hs Hx Hy) as (Hin & Ls & Lx & Ly).
  destruct (H3 s y x ks ky kx Hs Hy Hx) as (Hin' & Ls' & Ly' & Lx').
  apply rle_antisym.
  - destruct Hin as [-> | [-> | ->]]; done.
  - destruct Hin' as [-> | [-> | ->]]; done.
Qed.




(* ===================================================================== *)
(** * Binary64: bone detection *)
(* ===================================================================== *)

Section Binary64Detection.
Variables (fsin fcos : float -> float).
#[local] Abbreviation F64 := (F64Number fsin fcos).
#[local] Hint Extern 0 (JSNumber float) => exact F64 : typeclass_instances.



End Binary64Detection.

(* ===================================================================== *)
(** * Binary64: what of rigging depends on the order of the points *)
(* ===================================================================== *)

Section Binary64Order.
Variables (fsin fcos : float -> float).
#[local] Abbreviation F64 := (F64Number fsin fcos).
#[local] Hint Extern 0 (JSNumber float) => exact F64 : typeclass_instances.

Lemma F64_bbox_step_exchange (mm : Vector3 float * Vector3 float) (x y : Vector3 float) :
  bbox_step (bbox_step mm x) y = bbox_step (bbox_step mm y) x.
Proof.
  destruct mm as [mn mx]. unfold bbox_step. cbn [vx vy vz].
  change (@Math_min float F64) with F64_min. change (@Math_max float F64) with F64_max.
  by rewrite (F64_min_exchange (vx mn)), (F64_min_exchange (vy mn)),
    (F64_min_exchange (vz mn)), (F64_max_exchange (vx mx)), (F64_max_exchange (vy mx)),
    (F64_max_exchange (vz mx)).
Qed.

(** The bounding box is the same for every order of the points, with NaN,
    infinite and zero coordinates of either sign among them. *)
Lemma F64_computeBoundingBox_Permutation (a b : list float) :
  points_of a ≡ₚ points_of b -> computeBoundingBox a = computeBoundingBox b.
Proof.
  intros Hperm. unfold computeBoundingBox.
  by rewrite (fold_left_Permutation bbox_step _ _ _ F64_bbox_step_exchange Hperm).
Qed.

Lemma zip_map_graph {A B : Type} (g : A -> B) (l : list A) :
  zip l (map g l) = map (fun a => (a, g a)) l.
Proof. induction l as [|a l IH]; [done|]. simpl. by rewrite IH. Qed.

(** C2, amended.  In binary64, for a cloud and a permutation of it:
    calibration gives the same bounding box and scale factor, each point
    gets the same normalized coordinates (one function of the point for
    both orders), and the normalized cloud has the same bounding box.
    When bone detection returns the same eight bone positions for both
    orders, the bone of a point is one function of the point for both
    orders, so permuting the cloud permutes the assignment with it.  Bone
    detection itself is the one stage that reads the order of the points:
    its stable sorts keep tied points in input order and its sums are
    rounded in the order of the points. *)
Theorem rig_depends_on_order_only_through_detection (cloud cloud' : list (Vector3 float))
    (Hperm : cloud ≡ₚ cloud') :
  let raw := positions_of cloud in
  let raw' := positions_of cloud' in
  let detected (r : Rigged float) :=
    detectBonePositions (rig_positions r) (computeBoundingBox (rig_positions r)) in
  rig_bbox (rig raw') = rig_bbox (rig raw)
  /\ rig_scaleInfo (rig raw') = rig_scaleInfo (rig raw)
  /\ (exists N : Vector3 float -> Vector3 float,
        points_of (rig_positions (rig raw)) = map N cloud
        /\ points_of (rig_positions (rig raw')) = map N cloud')
  /\ computeBoundingBox (rig_positions (rig raw'))
     = computeBoundingBox (rig_positions (rig raw))
  /\ (detected (rig raw') = detected (rig raw) ->
      (exists g : Vector3 float -> Z,
          rig_bones (rig raw) = map g cloud /\ rig_bones (rig raw') = map g cloud')
      /\ zip cloud (rig_bones (rig raw)) ≡ₚ zip cloud' (rig_bones (rig raw'))).
Proof.
  intros raw raw' detected.
  assert (Hraw : points_of raw ≡ₚ points_of raw').
  { unfold raw, raw'. by rewrite !points_of_positions_of. }
  pose proof (F64_computeBoundingBox_Permutation raw raw' Hraw) as Hbox.
  set (N := normalizePoint (computeBoundingBox raw)
              (scaleFactor (computeAdaptiveScale (computeBoundingBox raw) (dec 170 2)))).
  assert (Hpts : points_of (normalizedCloud raw) = map N cloud).
  { unfold raw. by rewrite points_of_normalizedCloud. }
  assert (Hpts' : points_of (normalizedCloud raw') = map N cloud').
  { unfold N. rewrite Hbox. unfold raw'. by rewrite points_of_normalizedCloud. }
  assert (Hnorm : points_of (normalizedCloud raw') ≡ₚ points_of (normalizedCloud raw)).
  { rewrite Hpts, Hpts'. by apply Permutation_map. }
  split; [unfold rig; cbn [rig_bbox]; by rewrite Hbox|].
  split; [unfold rig; cbn [rig_scaleInfo]; by rewrite Hbox|].
  split; [by exists N|].
  rewrite !rig_positions_eq.
  split; [by apply F64_computeBoundingBox_Permutation|].
  unfold detected. rewrite !rig_positions_eq. intros Hdetect.
  assert (Htps : cloudTemplates (normalizedCloud raw') = cloudTemplates (normalizedCloud raw)).
  { unfold cloudTemplates. cbv zeta. by rewrite Hdetect. }
  set (g := fun p => bestBone (cloudTemplates (normalizedCloud raw)) (N p)).
  assert (Hg : rig_bones (rig raw) = map g cloud).
  { by rewrite rig_bones_eq, Hpts, map_map. }
  assert (Hg' : rig_bones (rig raw') = map g cloud').
  { rewrite rig_bones_eq, Hpts', Htps. by rewrite map_map. }
  split; [by exists g|].
  rewrite Hg, Hg', !zip_map_graph. by apply Permutation_map.
Qed.
End Binary64Order.

(* ===================================================================== *)
(** * Binary64: the bounding box is tight *)
(* ===================================================================== *)

Lemma rle_leb (x y : float) : rle x y -> PrimFloat.leb x y = true.
Proof.
  intros (a & b & Ha & Hb & H). apply (leb_key x y a b Ha Hb).
  destruct H as [H|[H _]]; auto.
Qed.

Lemma fkey_range (x : float) (a : Z * Z * Z) :
  fkey x = Some a ->
  (lexlt a (2, 0, 0) \/ x = infinity) /\ (lexlt (-2, 0, 0) a \/ x = neg_infinity).
Proof.
  unfold fkey. intros H.
  rewrite <- (FloatAxioms.SF2Prim_Prim2SF x).
  destruct (Prim2SF x) as [s|s| |s m e]; try (destruct s); cbn [SFkey] in H;
    try discriminate H; injection H as <-; unfold lexlt;
    (split; [first [by right | left; lia] | first [by right | left; lia]]).
Qed.

Lemma rle_infinity (x : float) (a : Z * Z * Z) : fkey x = Some a -> rle x infinity.
Proof.
  intros Ha. exists a, (2, 0, 0). split; [done|]. split; [done|].
  destruct (fkey_range x a Ha) as [[H| ->] _]; [by left|].
  right. injection Ha as <-. split; [done|]. reflexivity.
Qed.

Lemma rle_neg_infinity (x : float) (a : Z * Z * Z) : fkey x = Some a -> rle neg_infinity x.
Proof.
  intros Ha. exists (-2, 0, 0), a. split; [done|]. split; [done|].
  destruct (fkey_range x a Ha) as [_ [H| ->]]; [by left|].
  right. injection Ha as <-. split; [done|]. reflexivity.
Qed.

Lemma rle_fkey_l (x y : float) : rle x y -> exists a, fkey x = Some a.
Proof. intros (a & b & Ha & _). by exists a. Qed.

(** A number: not NaN. *)
Definition is_number (x : float) : Prop := F64_isNaN x = false.

Lemma is_number_fkey (x : float) : is_number x <-> exists a, fkey x = Some a.
Proof.
  unfold is_number. split.
  - intros H. destruct (fkey x) as [a|] eqn:Ha; [by exists a|].
    apply F64_isNaN_None in Ha. congruence.
  - intros [a Ha]. by eapply F64_isNaN_Some.
Qed.

(** The running minimum of a loop over numbers: below its start value and
    below every number seen, and one of them. *)
Lemma fold_min_numbers (xs : list float) (s : float) :
  is_number s -> Forall is_number xs ->
  let m := fold_left F64_min xs s in
  (m = s \/ m ∈ xs) /\ rle m s /\ Forall (rle m) xs.
Proof.
  intros Hs Hxs. revert s Hs.
  induction Hxs as [|x xs Hx _ IH]; intros s Hs; cbn [fold_left].
  - apply is_number_fkey in Hs as [a Ha].
    split; [by left|]. split; [by eapply rle_refl|constructor].
  - apply is_number_fkey in Hs as [a Ha]. apply is_number_fkey in Hx as [b Hb].
    destruct (F64_min_spec s x a b Ha Hb) as [[E L]|[E L]]; rewrite E.
    + destruct (IH s) as (Hin & Hle & Hall); [by apply is_number_fkey; exists a|].
      split; [destruct Hin; [by left|right; by right]|].
      split; [done|]. constructor; [by eapply rle_trans|done].
    + destruct (IH x) as (Hin & Hle & Hall); [by apply is_number_fkey; exists b|].
      split; [right; destruct Hin as [->|Hin]; [by left|by right]|].
      split; [by eapply rle_trans|]. by constructor.
Qed.

Lemma fold_max_numbers (xs : list float) (s : float) :
  is_number s -> Forall is_number xs ->
  let m := fold_left F64_max xs s in
  (m = s \/ m ∈ xs) /\ rle s m /\ Forall (fun x => rle x m) xs.
Proof.
  intros Hs Hxs. revert s Hs.
  induction Hxs as [|x xs Hx _ IH]; intros s Hs; cbn [fold_left].
  - apply is_number_fkey in Hs as [a Ha].
    split; [by left|]. split; [by eapply rle_refl|constructor].
  - apply is_number_fkey in Hs as [a Ha]. apply is_number_fkey in Hx as [b Hb].
    destruct (F64_max_spec s x a b Ha Hb) as [[E L]|[E L]]; rewrite E.
    + destruct (IH s) as (Hin & Hle & Hall); [by apply is_number_fkey; exists a|].
      split; [destruct Hin; [by left|right; by right]|].
      split; [done|]. constructor; [by eapply rle_trans|done].
    + destruct (IH x) as (Hin & Hle & Hall); [by apply is_number_fkey; exists b|].
      split; [right; destruct Hin as [->|Hin]; [by left|by right]|].
      split; [by eapply rle_trans|]. by constructor.
Qed.

(** Started from [Infinity], the minimum of a loop over at least one
    number is one of the numbers. *)
Lemma fold_min_attained (xs : list float) :
  Forall is_number xs -> xs <> [] -> fold_left F64_min xs infinity ∈ xs.
Proof.
  intros Hxs Hne.
  destruct (fold_min_numbers xs infinity eq_refl Hxs) as ([E|Hin] & _ & Hall); [|done].
  destruct xs as [|x xs]; [done|].
  apply Forall_cons in Hxs as [Hx _]. apply Forall_cons in Hall as [Hle _].
  apply is_number_fkey in Hx as [a Ha].
  rewrite E in Hle. rewrite E.
  rewrite (rle_antisym infinity x Hle (rle_infinity x a Ha)). by left.
Qed.

Lemma fold_max_attained (xs : list float) :
  Forall is_number xs -> xs <> [] -> fold_left F64_max xs neg_infinity ∈ xs.
Proof.
  intros Hxs Hne.
  destruct (fold_max_numbers xs neg_infinity eq_refl Hxs) as ([E|Hin] & _ & Hall); [|done].
  destruct xs as [|x xs]; [done|].
  apply Forall_cons in Hxs as [Hx _]. apply Forall_cons in Hall as [Hle _].
  apply is_number_fkey in Hx as [a Ha].
  rewrite E in Hle. rewrite E.
  rewrite <- (rle_antisym x neg_infinity Hle (rle_neg_infinity x a Ha)). by left.
Qed.

(** NaN, once met, stays. *)
Lemma fold_min_nan (xs : list float) (s : float) :
  F64_isNaN s = true \/ Exists (fun x => F64_isNaN x = true) xs ->
  fold_left F64_min xs s = nan.
Proof.
  revert s. induction xs as [|x xs IH]; intros s H; cbn [fold_left].
  - destruct H as [H|H]; [|by apply Exists_nil in H].
    by apply F64_nan_unique, F64_isNaN_None.
  - apply IH. destruct H as [H|H].
    + left. rewrite (F64_min_nan s x); [done|left; by apply F64_isNaN_None].
    + apply Exists_cons in H as [H|H]; [|by right].
      left. rewrite (F64_min_nan s x); [done|right; by apply F64_isNaN_None].
Qed.

Lemma fold_max_nan (xs : list float) (s : float) :
  F64_isNaN s = true \/ Exists (fun x => F64_isNaN x = true) xs ->
  fold_left F64_max xs s = nan.
Proof.
  revert s. induction xs as [|x xs IH]; intros s H; cbn [fold_left].
  - destruct H as [H|H]; [|by apply Exists_nil in H].
    by apply F64_nan_unique, F64_isNaN_None.
  - apply IH. destruct H as [H|H].
    + left. rewrite (F64_max_nan s x); [done|left; by apply F64_isNaN_None].
    + apply Exists_cons in H as [H|H]; [|by right].
      left. rewrite (F64_max_nan s x); [done|right; by apply F64_isNaN_None].
Qed.

Section Binary64Box.
Variables (fsin fcos : float -> float).
#[local] Abbreviation F64 := (F64Number fsin fcos).
#[local] Hint Extern 0 (JSNumber float) => exact F64 : typeclass_instances.

(** The loop of [computeBoundingBox], one axis at a time. *)
Lemma bbox_fold_axis (axis : Axis) (pts : list (Vector3 float)) (mn mx : Vector3 float) :
  coord axis (fst (fold_left bbox_step pts (mn, mx)))
  = fold_left F64_min (map (coord axis) pts) (coord axis mn)
  /\ coord axis (snd (fold_left bbox_step pts (mn, mx)))
     = fold_left F64_max (map (coord axis) pts) (coord axis mx).
Proof.
  revert mn mx. induction pts as [|p pts IH]; intros mn mx; [done|].
  cbn [fold_left map]. unfold bbox_step at 2. unfold bbox_step at 3.
  destruct (IH (mkVector3 (Math_min (vx mn) (vx p)) (Math_min (vy mn) (vy p))
                          (Math_min (vz mn) (vz p)))
               (mkVector3 (Math_max (vx mx) (vx p)) (Math_max (vy mx) (vy p))
                          (Math_max (vz mx) (vz p)))) as [-> ->].
  by destruct axis.
Qed.

Lemma computeBoundingBox_axis (axis : Axis) (cloud : list (Vector3 float)) :
  let bbox := computeBoundingBox (positions_of cloud) in
  coord axis (bb_min bbox) = fold_left F64_min (map (coord axis) cloud) infinity
  /\ coord axis (bb_max bbox) = fold_left F64_max (map (coord axis) cloud) neg_infinity
  /\ coord axis (bb_size bbox)
     = PrimFloat.sub (coord axis (bb_max bbox)) (coord axis (bb_min bbox))
  /\ coord axis (bb_center bbox)
     = PrimFloat.div (PrimFloat.add (coord axis (bb_min bbox)) (coord axis (bb_max bbox)))
                     (lit 2).
Proof.
  cbv zeta. unfold computeBoundingBox. rewrite points_of_positions_of.
  pose proof (bbox_fold_axis axis cloud
                (mkVector3 Infinity Infinity Infinity)
                (mkVector3 (neg Infinity) (neg Infinity) (neg Infinity))) as [Hmin Hmax].
  destruct (fold_left bbox_step cloud _) as [mn mx]. cbn [fst snd] in Hmin, Hmax.
  cbn [bb_min bb_max bb_size bb_center].
  split; [rewrite Hmin; by destruct axis|].
  split; [rewrite Hmax; by destruct axis|].
  split; by destruct axis.
Qed.

(** The bounding box in binary64, axis by axis.  When every coordinate of
    the cloud on the axis is a number (the infinities and both zeros
    included), the box encloses every point, and its two faces pass through
    points of the cloud when the cloud is not empty; when a coordinate on
    the axis is NaN, both faces are NaN.  The box of the empty cloud runs
    from [Infinity] to [-Infinity].  Size and centre are the difference and
    the mean of the faces. *)
Theorem computeBoundingBox_is_tight (cloud : list (Vector3 float)) (axis : Axis) :
  let bbox := computeBoundingBox (positions_of cloud) in
  let lo := coord axis (bb_min bbox) in
  let hi := coord axis (bb_max bbox) in
  (Forall (fun p => F64_isNaN (coord axis p) = false) cloud ->
     Forall (fun p => PrimFloat.leb lo (coord axis p) = true
                      /\ PrimFloat.leb (coord axis p) hi = true) cloud
     /\ (cloud <> [] ->
           (exists p, p ∈ cloud /\ coord axis p = lo)
           /\ (exists p, p ∈ cloud /\ coord axis p = hi)))
  /\ (Exists (fun p => F64_isNaN (coord axis p) = true) cloud ->
        F64_isNaN lo = true /\ F64_isNaN hi = true)
  /\ (cloud = [] -> lo = infinity /\ hi = neg_infinity)
  /\ coord axis (bb_size bbox) = PrimFloat.sub hi lo
  /\ coord axis (bb_center bbox) = PrimFloat.div (PrimFloat.add lo hi) (lit 2).
Proof.
  intros bbox lo hi.
  destruct (computeBoundingBox_axis axis cloud) as (Hlo & Hhi & Hsize & Hcenter).
  fold bbox in Hlo, Hhi, Hsize, Hcenter. fold lo in Hlo, Hsize, Hcenter.
  fold hi in Hhi, Hsize, Hcenter.
  split; [|split; [|split; [|done]]].
  - intros Hnum.
    assert (Hxs : Forall is_number (map (coord axis) cloud)) by by apply Forall_fmap.
    destruct (fold_min_numbers _ infinity eq_refl Hxs) as (_ & _ & Hmin).
    destruct (fold_max_numbers _ neg_infinity eq_refl Hxs) as (_ & _ & Hmax).
    rewrite <- Hlo in Hmin. rewrite <- Hhi in Hmax.
    split.
    + apply Forall_forall. intros p Hp.
      assert (Hin : coord axis p ∈ map (coord axis) cloud).
      { apply list_elem_of_fmap. by exists p. }
      split; apply rle_leb.
      * exact (proj1 (Forall_forall _ _) Hmin _ Hin).
      * exact (proj1 (Forall_forall _ _) Hmax _ Hin).
    + intros Hne.
      assert (Hne' : map (coord axis) cloud <> []) by by destruct cloud.
      pose proof (fold_min_attained _ Hxs Hne') as Hamin.
      pose proof (fold_max_attained _ Hxs Hne') as Hamax.
      rewrite <- Hlo in Hamin. rewrite <- Hhi in Hamax.
      apply list_elem_of_fmap in Hamin as (p & Ep & Hp).
      apply list_elem_of_fmap in Hamax as (q & Eq & Hq).
      split; [by exists p|by exists q].
  - intros Hnan.
    assert (Hxs : Exists (fun x => F64_isNaN x = true) (map (coord axis) cloud)).
    { apply Exists_exists in Hnan as (p & Hp & Hpn). apply Exists_exists.
      exists (coord axis p). split; [|done]. apply list_elem_of_fmap. by exists p. }
    rewrite Hlo, Hhi, fold_min_nan, fold_max_nan by (by right). done.
  - intros ->. by rewrite Hlo, Hhi.
Qed.
End Binary64Box.

(* ===================================================================== *)
(** * The loader: template points, the reads of the data, defaults *)
(* ===================================================================== *)

Section LoaderFacts.
Context {num : Type} `{!JSNumber num}.

Lemma length_bind_const {A B : Type} (f : A -> list B) (l : list A) (k : nat) :
  (forall a, length (f a) = k) -> length (l ≫= f) = (length l * k)%nat.
Proof.
  intros Hf. induction l as [|a l IH]; [done|].
  rewrite bind_cons, length_app, Hf, IH. simpl. lia.
Qed.

Lemma length_upto (density : Z) : length (upto density) = S (Z.to_nat density).
Proof. unfold upto. by rewrite length_map, length_seq. Qed.

Lemma length_addSphere (boneIdx : Z) (center : Vector3 num) (r : num) (density : Z) :
  length (addSphere boneIdx center r density)
  = (S (Z.to_nat density) * S (Z.to_nat density))%nat.
Proof.
  unfold addSphere. destruct (boneIdx =? 22)%Z.
  - rewrite (length_bind_const _ _ (S (Z.to_nat density))), length_upto; [done|].
    intros i. rewrite (length_bind_const _ _ 1%nat), length_upto; [lia|done].
  - rewrite (length_bind_const _ _ (S (Z.to_nat density))), length_upto; [done|].
    intros i. rewrite (length_bind_const _ _ 1%nat), length_upto; [lia|done].
Qed.

Lemma map_replicate_const {A B : Type} (f : A -> B) (b : B) (l : list A) :
  Forall (fun a => f a = b) l -> map f l = replicate (length l) b.
Proof. induction 1 as [|a l Ha _ IH]; [done|]. simpl. by rewrite Ha, IH. Qed.

(** How many template points a bone gets: a grid of [(density + 1)^2]. *)
Definition templateCount (boneIdx : Z) : nat :=
  if (boneIdx =? 22)%Z then 81 else if (boneIdx =? 15)%Z then 36 else 25.

Lemma bones_of_addSphere (boneIdx : Z) (b : BonePosition num) :
  map bone (addSphere boneIdx (position b) (radius b)
              (if (boneIdx =? 22)%Z then 8 else if (boneIdx =? 15)%Z then 5 else 4))
  = replicate (templateCount boneIdx) boneIdx.
Proof.
  rewrite (map_replicate_const bone boneIdx) by apply addSphere_bone.
  rewrite length_addSphere. unfold templateCount.
  by destruct (boneIdx =? 22)%Z, (boneIdx =? 15)%Z.
Qed.

Lemma bones_of_generateTemplatePoints (bonePositions : IntObject (BonePosition num)) :
  map bone (generateTemplatePoints bonePositions)
  = concat (map (fun k => replicate (templateCount k) k) (map fst bonePositions)).
Proof.
  unfold generateTemplatePoints, Object_entries.
  induction bonePositions as [|[k b] rest IH]; [done|].
  rewrite bind_cons, map_app, IH. simpl. by rewrite bones_of_addSphere.
Qed.

Lemma bones_of_cloudTemplates (normalizedPositions : list num) :
  map bone (cloudTemplates normalizedPositions)
  = replicate 25 0 ++ replicate 25 3 ++ replicate 25 9 ++ replicate 25 12
    ++ replicate 36 15 ++ replicate 25 16 ++ replicate 25 17 ++ replicate 81 22.
Proof.
  unfold cloudTemplates. cbv zeta.
  rewrite bones_of_generateTemplatePoints, detectBonePositions_keys. reflexivity.
Qed.

Lemma length_cloudTemplates (normalizedPositions : list num) :
  length (cloudTemplates normalizedPositions) = 267%nat.
Proof.
  rewrite <- (length_map bone), bones_of_cloudTemplates. reflexivity.
Qed.

(** The template set of [load] does not depend on the cloud in its size or
    its order: 267 points, grouped by bone in ascending order of the bone
    index, 25 for each of the hips, spine1, chest, neck and the two
    shoulders, 36 for the head and 81 for the jaw.  (The nearest-template
    search keeps the first of several nearest points, so a tie between
    bones goes to the lower index.) *)
Theorem cloudTemplates_layout (normalizedPositions : list num) :
  map bone (cloudTemplates normalizedPositions)
  = replicate 25 0 ++ replicate 25 3 ++ replicate 25 9 ++ replicate 25 12
    ++ replicate 36 15 ++ replicate 25 16 ++ replicate 25 17 ++ replicate 81 22
  /\ length (cloudTemplates normalizedPositions) = 267%nat.
Proof.
  split; [apply bones_of_cloudTemplates|apply length_cloudTemplates].
Qed.

(* --------------------------------------------------------------------- *)
(** ** What the header declares and what [load] reads *)

Definition headerText_of (buffer : list byte) : string :=
  TextDecoder_decode (ArrayBuffer_slice buffer 0 5000).

(** The vertex count of the header, when it has the token. *)
Definition declaredVertexCount (buffer : list byte) : option Z :=
  parseInt <$> match_vertex (headerText_of buffer).

(** Where the [DataView] of the vertex data starts. *)
Definition dataOffset (buffer : list byte) : Z :=
  indexOf "end_header" (headerText_of buffer) + 10 + 1.

(** The bytes of one vertex. *)
Definition strideOf (buffer : list byte) : Z :=
  array_length (header_props (headerText_of buffer)) * 4.

(** The position of property [name] in a vertex, or -1. *)
Definition propIndex (buffer : list byte) (name : string) : Z :=
  Array_indexOf name (header_props (headerText_of buffer)).

Lemma for_each_Ok_inv {A B : Type} (body : A -> result B) (l : list A) (bs : list B) :
  for_each body l = Ok bs -> Forall2 (fun a b => body a = Ok b) l bs.
Proof.
  revert bs. induction l as [|a l IH]; intros bs; simpl.
  - intros [= <-]. constructor.
  - destruct (body a) as [b|] eqn:Hb; [|done].
    destruct (for_each body l) as [bs'|]; [|done].
    intros [= <-]. constructor; [done|by apply IH].
Qed.

Lemma for_each_Throw_inv {A B : Type} (body : A -> result B) (l : list A) (e : JSError) :
  for_each body l = Throw e -> exists a, a ∈ l /\ body a = Throw e.
Proof.
  induction l as [|a l IH]; simpl; [done|].
  destruct (body a) as [b|e'] eqn:Hb.
  - destruct (for_each body l) as [bs'|e'']; [done|].
    intros [= <-]. destruct IH as (a' & Ha' & He); [done|].
    exists a'. split; [by right|done].
  - intros [= <-]. exists a. split; [by left|done].
Qed.

(** A successful [load], taken apart. *)
Lemma load_inv (buffer : list byte) (data : PLYData num) :
  load buffer = Ok data ->
  exists (n : Z) (view : list byte) (rawPoints : list (Vector3 num))
         (attrs : list (list num * list num)),
    declaredVertexCount buffer = Some n
    /\ DataView buffer (dataOffset buffer) = Ok view
    /\ for_each (readPosition view (header_props (headerText_of buffer)) (strideOf buffer))
                (rows n) = Ok rawPoints
    /\ for_each (readAttributes view (header_props (headerText_of buffer)) (strideOf buffer)
                   (scaleFactor (rig_scaleInfo (rig (positions_of rawPoints)))))
                (rows n) = Ok attrs
    /\ positions data = rig_positions (rig (positions_of rawPoints))
    /\ colors data = concat (map fst attrs)
    /\ scales data = concat (map snd attrs)
    /\ boneIndices data
       = concat (map (fun b => [ofZ b; lit 0; lit 0; lit 0])
                    (rig_bones (rig (positions_of rawPoints))))
    /\ boneWeights data
       = concat (map (fun _ : Z => [lit 1; lit 0; lit 0; lit 0])
                    (rig_bones (rig (positions_of rawPoints)))).
Proof.
  unfold load, declaredVertexCount, dataOffset, strideOf. fold (headerText_of buffer).
  destruct (match_vertex (headerText_of buffer)) as [digits|]; [|done].
  replace (indexOf "end_header" (headerText_of buffer) + 10 + 1)
    with (indexOf "end_header" (headerText_of buffer) + 10 + 1) by done.
  destruct (DataView _ _) as [view|] eqn:Hview; [|done]. cbn [mbind result_bind].
  destruct (for_each (readPosition _ _ _) _) as [rawPoints|] eqn:Hraw; [|done].
  cbn [mbind result_bind].
  match goal with
  | |- context [for_each (readAttributes ?v ?p ?st ?sc) ?rs] =>
      destruct (for_each (readAttributes v p st sc) rs) as [attrs|] eqn:Hattrs; [|done]
  end.
  cbn [mbind result_bind]. intros [= <-].
  exists (parseInt digits), view, rawPoints, attrs. by repeat split.
Qed.

Lemma length_concat_const {A : Type} (ls : list (list A)) (k : nat) :
  Forall (fun l => length l = k) ls -> length (concat ls) = (k * length ls)%nat.
Proof.
  induction 1 as [|l ls Hl _ IH]; [done|]. simpl. rewrite length_app, Hl, IH. lia.
Qed.

Lemma readAttributes_lengths (view : list byte) (props : list string) (stride : Z)
    (scale : num) (i : Z) (a : list num * list num) :
  readAttributes view props stride scale i = Ok a ->
  length (fst a) = 3%nat /\ length (snd a) = 3%nat.
Proof.
  unfold readAttributes.
  destruct (readProp _ _ _ "f_dc_0"); cbn [mbind result_bind]; [|done].
  destruct (readProp _ _ _ "f_dc_1"); cbn [mbind result_bind]; [|done].
  destruct (readProp _ _ _ "f_dc_2"); cbn [mbind result_bind]; [|done].
  destruct (readProp _ _ _ "scale_0"); cbn [mbind result_bind]; [|done].
  destruct (readProp _ _ _ "scale_1"); cbn [mbind result_bind]; [|done].
  destruct (readProp _ _ _ "scale_2"); cbn [mbind result_bind]; [|done].
  by intros [= <-].
Qed.

(** A loaded cloud has as many points as the header declares: that many
    positions, colours and scales of three numbers, bone indices and
    weights of four. *)
Theorem load_has_the_declared_vertex_count (buffer : list byte) (data : PLYData num)
    (Hload : load buffer = Ok data) :
  exists n : Z,
    declaredVertexCount buffer = Some n
    /\ length (positions data) = (3 * Z.to_nat n)%nat
    /\ length (colors data) = (3 * Z.to_nat n)%nat
    /\ length (scales data) = (3 * Z.to_nat n)%nat
    /\ length (boneIndices data) = (4 * Z.to_nat n)%nat
    /\ length (boneWeights data) = (4 * Z.to_nat n)%nat.
Proof.
  destruct (load_inv _ _ Hload)
    as (n & view & rawPoints & attrs & Hn & _ & Hraw & Hattrs & Hp & Hc & Hs & Hi & Hw).
  exists n. split; [done|].
  pose proof (for_each_length _ _ _ Hraw) as Lraw. rewrite length_rows in Lraw.
  pose proof (for_each_length _ _ _ Hattrs) as Lattrs. rewrite length_rows in Lattrs.
  apply for_each_Ok_inv in Hattrs.
  assert (Hfst : Forall (fun l : list num => length l = 3%nat) (map fst attrs)).
  { apply Forall_fmap, Forall_forall. intros a Ha.
    apply (Forall2_Forall_r _ (fun a => exists i, readAttributes view
             (header_props (headerText_of buffer)) (strideOf buffer)
             (scaleFactor (rig_scaleInfo (rig (positions_of rawPoints)))) i = Ok a))
      in Hattrs.
    - rewrite Forall_forall in Hattrs. destruct (Hattrs a Ha) as [i Hi'].
      by apply readAttributes_lengths in Hi' as [? _].
    - apply Forall_forall. intros i _ b Hb. by exists i. }
  assert (Hsnd : Forall (fun l : list num => length l = 3%nat) (map snd attrs)).
  { apply Forall_fmap, Forall_forall. intros a Ha.
    apply (Forall2_Forall_r _ (fun a => exists i, readAttributes view
             (header_props (headerText_of buffer)) (strideOf buffer)
             (scaleFactor (rig_scaleInfo (rig (positions_of rawPoints)))) i = Ok a))
      in Hattrs.
    - rewrite Forall_forall in Hattrs. destruct (Hattrs a Ha) as [i Hi'].
      by apply readAttributes_lengths in Hi' as [_ ?].
    - apply Forall_forall. intros i _ b Hb. by exists i. }
  assert (Hfour : forall f : Z -> list num, (forall b, length (f b) = 4%nat) ->
            length (concat (map f (rig_bones (rig (positions_of rawPoints)))))
            = (4 * Z.to_nat n)%nat).
  { intros f Hf. rewrite (length_concat_const _ 4).
    - by rewrite length_map, length_rig_bones, Lraw.
    - apply Forall_fmap, Forall_forall. intros b _. apply Hf. }
  split; [by rewrite Hp, length_rig_positions, Lraw|].
  split; [by rewrite Hc, (length_concat_const _ 3), length_map, Lattrs|].
  split; [by rewrite Hs, (length_concat_const _ 3), length_map, Lattrs|].
  split; [rewrite Hi; by apply Hfour|rewrite Hw; by apply Hfour].
Qed.

Lemma getFloat32_Ok_inv (view : list byte) (byteOffset : Z) (x : num) :
  getFloat32 view byteOffset = Ok x ->
  0 <= byteOffset /\ byteOffset + 4 <= array_length view.
Proof.
  unfold getFloat32.
  destruct (Z.ltb_spec byteOffset 0); [done|].
  destruct (Z.ltb_spec (array_length view) (byteOffset + 4)); [done|]. lia.
Qed.

Lemma getFloat32_Throw_inv (view : list byte) (byteOffset : Z) (e : JSError) :
  getFloat32 view byteOffset = Throw e -> e = RangeError.
Proof.
  unfold getFloat32. destruct (_ || _); [|done]. by intros [= <-].
Qed.

Lemma readPosition_Ok_inv (view : list byte) (props : list string) (stride i : Z)
    (p : Vector3 num) (name : string) :
  readPosition view props stride i = Ok p ->
  name ∈ ["x"; "y"; "z"]%string ->
  0 <= i * stride + Array_indexOf name props * 4
  /\ i * stride + Array_indexOf name props * 4 + 4 <= array_length view.
Proof.
  unfold readPosition. cbv zeta.
  destruct (getFloat32 view (i * stride + Array_indexOf "x" props * 4)) as [x|] eqn:Hx;
    cbn [mbind result_bind]; [|done].
  destruct (getFloat32 view (i * stride + Array_indexOf "y" props * 4)) as [y|] eqn:Hy;
    cbn [mbind result_bind]; [|done].
  destruct (getFloat32 view (i * stride + Array_indexOf "z" props * 4)) as [z|] eqn:Hz;
    cbn [mbind result_bind]; [|done].
  intros _ Hname.
  repeat (apply elem_of_cons in Hname as [->|Hname];
          [by eapply getFloat32_Ok_inv|]).
  by apply elem_of_nil in Hname.
Qed.

Lemma readPosition_Throw_inv (view : list byte) (props : list string) (stride i : Z)
    (e : JSError) :
  readPosition view props stride i = Throw e -> e = RangeError.
Proof.
  unfold readPosition. cbv zeta.
  destruct (getFloat32 view (i * stride + Array_indexOf "x" props * 4)) eqn:Hx;
    cbn [mbind result_bind]; [|intros [= <-]; by eapply getFloat32_Throw_inv].
  destruct (getFloat32 view (i * stride + Array_indexOf "y" props * 4)) eqn:Hy;
    cbn [mbind result_bind]; [|intros [= <-]; by eapply getFloat32_Throw_inv].
  destruct (getFloat32 view (i * stride + Array_indexOf "z" props * 4)) eqn:Hz;
    cbn [mbind result_bind]; [done|intros [= <-]; by eapply getFloat32_Throw_inv].
Qed.

Lemma readProp_Throw_inv (view : list byte) (props : list string) (b : Z) (n : string)
    (e : JSError) :
  readProp view props b n = Throw e -> e = RangeError.
Proof.
  unfold readProp. cbv zeta. destruct (_ =? _)%Z; [done|]. apply getFloat32_Throw_inv.
Qed.

Lemma readAttributes_Throw_inv (view : list byte) (props : list string) (stride : Z)
    (scale : num) (i : Z) (e : JSError) :
  readAttributes view props stride scale i = Throw e -> e = RangeError.
Proof.
  unfold readAttributes. cbv zeta.
  destruct (readProp _ _ _ "f_dc_0") eqn:H0; cbn [mbind result_bind];
    [|intros [= <-]; by eapply readProp_Throw_inv].
  destruct (readProp _ _ _ "f_dc_1") eqn:H1; cbn [mbind result_bind];
    [|intros [= <-]; by eapply readProp_Throw_inv].
  destruct (readProp _ _ _ "f_dc_2") eqn:H2; cbn [mbind result_bind];
    [|intros [= <-]; by eapply readProp_Throw_inv].
  destruct (readProp _ _ _ "scale_0") eqn:H3; cbn [mbind result_bind];
    [|intros [= <-]; by eapply readProp_Throw_inv].
  destruct (readProp _ _ _ "scale_1") eqn:H4; cbn [mbind result_bind];
    [|intros [= <-]; by eapply readProp_Throw_inv].
  destruct (readProp _ _ _ "scale_2") eqn:H5; cbn [mbind result_bind];
    [done|intros [= <-]; by eapply readProp_Throw_inv].
Qed.

(** Once the header has its vertex count, the only exception of [load] is
    the [RangeError] of a read outside the buffer. *)
Lemma load_Throw_inv (buffer : list byte) (n : Z) (e : JSError) :
  declaredVertexCount buffer = Some n ->
  load (num := num) buffer = Throw e -> e = RangeError.
Proof.
  unfold load, declaredVertexCount. fold (headerText_of buffer).
  destruct (match_vertex (headerText_of buffer)) as [digits|]; [|done]. intros _.
  destruct (DataView _ _) as [view|] eqn:Hview; cbn [mbind result_bind].
  - destruct (for_each (readPosition _ _ _) _) as [rawPoints|] eqn:Hraw;
      cbn [mbind result_bind].
    + match goal with
      | |- context [for_each (readAttributes ?v ?p ?st ?sc) ?rs] =>
          destruct (for_each (readAttributes v p st sc) rs) as [attrs|] eqn:Hattrs
      end; cbn [mbind result_bind]; [done|].
      intros [= <-]. apply for_each_Throw_inv in Hattrs as (i & _ & Hi).
      by eapply readAttributes_Throw_inv.
    + intros [= <-]. apply for_each_Throw_inv in Hraw as (i & _ & Hi).
      by eapply readPosition_Throw_inv.
  - intros [= <-]. unfold DataView in Hview.
    destruct (_ <? _)%Z; [by injection Hview|done].
Qed.

Lemma indexOf_lower (needle s : string) : -1 <= indexOf needle s.
Proof.
  induction s as [|c s IH]; simpl.
  - destruct (startsWith needle ""); lia.
  - destruct (startsWith needle (String c s)); [lia|].
    destruct (Z.ltb_spec (indexOf needle s) 0); lia.
Qed.

Lemma elem_of_rows (n i : Z) : 0 <= i < n -> i ∈ rows n.
Proof.
  intros Hi. unfold rows. apply list_elem_of_fmap. exists (Z.to_nat i).
  split; [lia|]. apply elem_of_seq. lia.
Qed.

(** The reads of a successful [load] were inside the buffer: the three
    coordinates are properties of the header and the last vertex ends
    before the buffer does. *)
Lemma load_reads_inside (buffer : list byte) (data : PLYData num) (n : Z) (name : string) :
  load buffer = Ok data ->
  declaredVertexCount buffer = Some n -> 1 <= n ->
  name ∈ ["x"; "y"; "z"]%string ->
  0 <= propIndex buffer name
  /\ dataOffset buffer + (n - 1) * strideOf buffer + 4 * propIndex buffer name + 4
     <= array_length buffer.
Proof.
  intros Hload Hn Hpos Hname.
  destruct (load_inv _ _ Hload) as (n' & view & rawPoints & attrs & Hn' & Hview & Hraw & _).
  assert (n' = n) as -> by congruence.
  apply for_each_Ok_inv in Hraw.
  assert (Hrow : forall i, 0 <= i < n ->
            0 <= i * strideOf buffer + propIndex buffer name * 4
            /\ i * strideOf buffer + propIndex buffer name * 4 + 4 <= array_length view).
  { intros i Hi. apply elem_of_rows in Hi.
    assert (Hall : Forall (fun i => exists p,
              readPosition view (header_props (headerText_of buffer)) (strideOf buffer) i
              = Ok p) (rows n)).
    { eapply Forall2_Forall_l; [exact Hraw|].
      apply Forall_forall. intros p _ i' Hi'. by exists p. }
    rewrite Forall_forall in Hall. destruct (Hall i Hi) as [p Hp].
    by eapply readPosition_Ok_inv. }
  assert (Hlen : array_length view = array_length buffer - dataOffset buffer).
  { unfold DataView in Hview.
    destruct (Z.ltb_spec (array_length buffer) (dataOffset buffer)); [done|].
    injection Hview as <-. unfold array_length in *. rewrite length_drop.
    pose proof (indexOf_lower "end_header" (headerText_of buffer)).
    unfold dataOffset in *. lia. }
  destruct (Hrow 0) as [H0 _]; [lia|].
  destruct (Hrow (n - 1)) as [_ Hlast]; [lia|].
  split; [lia|]. rewrite Hlen in Hlast. lia.
Qed.

(** A file that is cut short, or whose header declares vertices without a
    [property float] line for one of x, y, z, does not load: [load] throws
    a [RangeError] (it returns no partial point set) and [loadAssets]
    reports failure, leaving the instance as it was.  The file is taken to
    begin with 5000 bytes of ASCII, or to be all ASCII when shorter, so
    that the text index of [end_header] is its byte offset. *)
Theorem load_of_truncated_file_fails (buffer : list byte) (n : Z) (name : string)
    (Hascii : Forall (fun b => (Byte.to_N b < 128)%N) (ArrayBuffer_slice buffer 0 5000))
    (Hn : declaredVertexCount buffer = Some n) (Hpos : 1 <= n)
    (Hname : name ∈ ["x"; "y"; "z"]%string)
    (Hshort : propIndex buffer name = -1
              \/ array_length buffer
                 < dataOffset buffer + (n - 1) * strideOf buffer
                   + 4 * propIndex buffer name + 4) :
  load (num := num) buffer = Throw RangeError
  /\ forall (g : GVRM num) (env : Assets num),
       fetchPly env = Ok buffer -> loadAssets g env = (g, false).
Proof.
  assert (Hload : load (num := num) buffer = Throw RangeError).
  { destruct (load (num := num) buffer) as [data|e] eqn:Hload.
    - destruct (load_reads_inside buffer data n name Hload Hn Hpos Hname). lia.
    - f_equal. by eapply load_Throw_inv. }
  split; [exact Hload|].
  intros g env Hfetch. unfold loadAssets, loadAssets_try.
  rewrite Hfetch. cbn [mbind result_bind]. by rewrite Hload.
Qed.


End LoaderFacts.

(* ===================================================================== *)
(** * Worked examples *)
(* ===================================================================== *)

#[global] Instance ExNum_eq_dec : EqDecision ExNum.
Proof. solve_decision. Defined.

#[local] Existing Instance Exact12.

(** Binary64 for the examples that call neither sine nor cosine. *)
Definition F64_no_trig : JSNumber float := F64Number (fun _ => nan) (fun _ => nan).

(** The four bytes of a 32-bit pattern, little-endian. *)
Definition le32 (bits : Z) : list byte :=
  map (fun k => default x00 (Byte.of_N (Z.to_N (Z.land (Z.shiftr bits (8 * k)) 255))))
      [0; 1; 2; 3].

(** A file of four vertices with the properties x, y, z, at the heights
    0, 0.6, 1.2 and 1.8 (as float32: 0x3F19999A, 0x3F99999A, 0x3FE66666). *)
Definition scenario_header : string :=
  "ply
format binary_little_endian 1.0
element vertex 4
property float x
property float y
property float z
end_header
".

Definition scenario_bits : list Z :=
  [0; 0; 0;  0; 0x3F19999A; 0;  0; 0x3F99999A; 0;  0; 0x3FE66666; 0].

Definition scenario_ply : list byte :=
  list_byte_of_string scenario_header ++ concat (map le32 scenario_bits).

(** The same file without the [element vertex] line. *)
Definition headless_ply : list byte :=
  list_byte_of_string "ply
format binary_little_endian 1.0
property float x
property float y
property float z
end_header
" ++ concat (map le32 scenario_bits).

(** The cloud of the scenario with the heights as exact decimals. *)
Definition scenario_cloud : list RealPoint :=
  [(0, 0, 0); (0, Q2Qc (6 # 10), 0); (0, Q2Qc (12 # 10), 0); (0, Q2Qc (18 # 10), 0)]%Qc.

(** Five points at chest height with the same X, between a foot and a
    crown; in the second cloud the first and the last of the five have
    changed places. *)
Definition tied_cloud : list RealPoint :=
  [(0, 0, 0); (0, Q2Qc (17 # 10), 0);
   (0, Q2Qc (14 # 10), Q2Qc (-2)); (0, Q2Qc (14 # 10), Q2Qc (-1));
   (0, Q2Qc (14 # 10), 0);
   (0, Q2Qc (14 # 10), Q2Qc 1); (0, Q2Qc (14 # 10), Q2Qc 2)]%Qc.

Definition tied_cloud_swapped : list RealPoint :=
  [(0, 0, 0); (0, Q2Qc (17 # 10), 0);
   (0, Q2Qc (14 # 10), Q2Qc 2); (0, Q2Qc (14 # 10), Q2Qc (-1));
   (0, Q2Qc (14 # 10), 0);
   (0, Q2Qc (14 # 10), Q2Qc 1); (0, Q2Qc (14 # 10), Q2Qc (-2))]%Qc.

(** The same seven points with five different X at chest height, and the
    cloud read backwards. *)
Definition untied_cloud : list RealPoint :=
  [(0, 0, 0); (0, Q2Qc (17 # 10), 0);
   (Q2Qc (-2 # 10), Q2Qc (14 # 10), Q2Qc (-2)); (Q2Qc (-1 # 10), Q2Qc (14 # 10), Q2Qc (-1));
   (0, Q2Qc (14 # 10), 0);
   (Q2Qc (1 # 10), Q2Qc (14 # 10), Q2Qc 1); (Q2Qc (2 # 10), Q2Qc (14 # 10), Q2Qc 2)]%Qc.

(** A viewer of two vertices whose latent buffer holds NaN and both
    infinities and stops short of the second vertex. *)
Definition poisoned_viewer : GSViewer float :=
  mkGSViewer 2 ([nan; infinity; neg_infinity; 0.5] ++ replicate 36 0.25)%float ∅ [].

(** A header without the [element vertex] line, and a file made of that
    header followed by sixteen bytes that spell [element vertex 0]. *)
Definition tokenless_header : string :=
  "ply
format binary_little_endian 1.0
property float x
property float y
property float z
end_header
".

Definition stray_token_ply : list byte :=
  list_byte_of_string tokenless_header ++ list_byte_of_string "element vertex 0".

(** Binary64 stand-ins for [Math.sin] and [Math.cos], to run the rigging in
    binary64: the Taylor series, summed in doubles. *)
Fixpoint F64_taylor (n : nat) (x2 term : float) (i : Z) : float :=
  match n with
  | O => PrimFloat.zero
  | S n' =>
      PrimFloat.add term
        (F64_taylor n' x2
           (PrimFloat.div (PrimFloat.mul (PrimFloat.opp term) x2)
              (F64_of_Z ((i + 1) * (i + 2)))) (i + 2))
  end.
Definition F64_sin (x : float) : float := F64_taylor 16 (PrimFloat.mul x x) x 1.
Definition F64_cos (x : float) : float :=
  F64_taylor 16 (PrimFloat.mul x x) PrimFloat.one 0.
Definition F64_taylor_trig : JSNumber float := F64Number F64_sin F64_cos.

(** A figure of seventeen points, as float32 values: the seven points of
    [untied_cloud] (0.1 is 0x3DCCCCCD, 0.2 is 0x3E4CCCCD, 1.4 is 0x3FB33333
    and 1.7 is 0x3FD9999A), four points of a neck at height 1.5, and six
    points of a chin at the heights 1.53, 1.54, ..., 1.58, 0.3 to the
    front. *)
Definition figure_bits : list Z :=
  [0; 0; 0;  0; 0x3FD9999A; 0;
   0xBE4CCCCD; 0x3FB33333; 0xC0000000;  0xBDCCCCCD; 0x3FB33333; 0xBF800000;
   0; 0x3FB33333; 0;
   0x3DCCCCCD; 0x3FB33333; 0x3F800000;  0x3E4CCCCD; 0x3FB33333; 0x40000000;
   0; 0x3FC00000; 0;  0; 0x3FC00000; 0;  0; 0x3FC00000; 0;  0; 0x3FC00000; 0;
   0; 0x3FC3D70A; 0x3E99999A;  0; 0x3FC51EB8; 0x3E99999A;  0; 0x3FC66666; 0x3E99999A;
   0; 0x3FC7AE14; 0x3E99999A;  0; 0x3FC8F5C3; 0x3E99999A;  0; 0x3FCA3D71; 0x3E99999A].

Definition figure_cloud : list (Vector3 float) :=
  points_of (JSNumber0 := F64_taylor_trig) (map F64_of_f32_bits figure_bits).

(** The float32 values of [tied_cloud] and of [tied_cloud_swapped]. *)
Definition tied_bits : list Z :=
  [0; 0; 0;  0; 0x3FD9999A; 0;
   0; 0x3FB33333; 0xC0000000;  0; 0x3FB33333; 0xBF800000;
   0; 0x3FB33333; 0;
   0; 0x3FB33333; 0x3F800000;  0; 0x3FB33333; 0x40000000].

Definition tied_bits_swapped : list Z :=
  [0; 0; 0;  0; 0x3FD9999A; 0;
   0; 0x3FB33333; 0x40000000;  0; 0x3FB33333; 0xBF800000;
   0; 0x3FB33333; 0;
   0; 0x3FB33333; 0x3F800000;  0; 0x3FB33333; 0xC0000000].



(** Five points: a foot, a crown at height 2, and three points at height
    1.2 whose Z are 2^100, 1 and -2^100; in the second cloud the last two
    have changed places.  No two points share an X or a height that a sort
    compares. *)
Definition cancelling_bits : list Z :=
  [0; 0; 0;  0; 0x40000000; 0;
   0; 0x3F99999A; 0x71800000;  0; 0x3F99999A; 0x3F800000;  0; 0x3F99999A; 0xF1800000].

Definition cancelling_bits_swapped : list Z :=
  [0; 0; 0;  0; 0x40000000; 0;
   0; 0x3F99999A; 0x71800000;  0; 0x3F99999A; 0xF1800000;  0; 0x3F99999A; 0x3F800000].

(** The scenario file cut off behind its header: it declares four
    vertices and holds none. *)
Definition truncated_ply : list byte := list_byte_of_string scenario_header.

Definition is_Ok {A : Type} (r : result A) : bool :=
  match r with Ok _ => true | Throw _ => false end.

Lemma scenario_ply_loads : is_Ok (load (JSNumber0 := Exact12) scenario_ply) = true.
Proof. vm_compute. reflexivity. Qed.

(** The scenario file loads, and each of its four points has one bone. *)
Lemma scenario_ply_points_have_one_bone :
  exists data : PLYData ExNum,
    load (JSNumber0 := Exact12) scenario_ply = Ok data
    /\ exists n : nat,
         length (positions data) = (3 * n)%nat
         /\ length (boneIndices data) = (4 * n)%nat
         /\ length (boneWeights data) = (4 * n)%nat
         /\ forall i : nat, (i < n)%nat ->
              exists b : Z,
                b ∈ BONES
                /\ take 4 (drop (4 * i) (boneIndices data))
                   = [ofZ (JSNumber0 := Exact12) b; lit 0; lit 0; lit 0]
                /\ take 4 (drop (4 * i) (boneWeights data)) = [lit 1; lit 0; lit 0; lit 0].
Proof.
  pose proof scenario_ply_loads as Hok.
  destruct (load (JSNumber0 := Exact12) scenario_ply) as [data|e] eqn:Hload.
  - exists data. split; [reflexivity|].
    exact (load_assigns_every_point_one_bone scenario_ply data Hload).
  - discriminate Hok.
Defined.

(** The file without the vertex count does not load. *)
Lemma headless_ply_fails_to_load :
  ~ has_vertex_token (TextDecoder_decode (ArrayBuffer_slice headless_ply 0 5000))
  /\ load (JSNumber0 := Exact12) headless_ply = Throw TypeError
  /\ (forall data : PLYData ExNum, load (JSNumber0 := Exact12) headless_ply <> Ok data)
  /\ forall (g : GVRM ExNum) (env : Assets ExNum),
       fetchPly env = Ok headless_ply -> loadAssets (JSNumber0 := Exact12) g env = (g, false).
Proof.
  assert (Hno : ~ has_vertex_token
                    (TextDecoder_decode (ArrayBuffer_slice headless_ply 0 5000))).
  { apply match_vertex_None. vm_compute. reflexivity. }
  split; [exact Hno|].
  exact (load_without_vertex_count_fails (JSNumber0 := Exact12) headless_ply Hno).
Defined.

Lemma scenario_cloud_spans_a_height : spans_a_height scenario_cloud.
Proof.
  exists (0, 0, 0)%Qc, (0, Q2Qc (18 # 10), 0)%Qc.
  split; [by left|]. split; [do 3 right; by left|]. reflexivity.
Qed.

(** The scenario: the point at height 1.8 lands at 1.70, the points below
    it where the formula puts them. *)
Lemma scenario_top_point_lands_at_target :
  let normalized :=
    points_of (rig_positions (rig (JSNumber0 := Exact12) (finiteCloud scenario_cloud))) in
  exists minY maxY : Qc,
    least_height scenario_cloud minY /\ greatest_height scenario_cloud maxY
    /\ vy <$> normalized !! 3%nat
       = Some (Fin ((Q2Qc (18 # 10) - minY) * (Q2Qc (17 # 10) / (maxY - minY)))%Qc)
    /\ (Q2Qc (18 # 10) = maxY -> vy <$> normalized !! 3%nat = Some (Fin (Q2Qc (17 # 10))))
    /\ (Q2Qc (18 # 10) = minY -> vy <$> normalized !! 3%nat = Some (Fin 0%Qc)).
Proof.
  exact (calibration_sends_max_to_target_and_min_to_floor
           PI_12 sqrt_12 sin_12 cos_12 scenario_cloud 3
           (0, Q2Qc (18 # 10), 0)%Qc scenario_cloud_spans_a_height eq_refl).
Defined.

(** The scenario, calibrated a second time. *)
Lemma scenario_second_calibration_is_neutral :
  let normalized := rig_positions (rig (JSNumber0 := Exact12) (finiteCloud scenario_cloud)) in
  let bbox := computeBoundingBox normalized in
  vy (bb_min bbox) = Fin 0%Qc
  /\ vy (bb_max bbox) = Fin (Q2Qc (17 # 10))
  /\ vy (bb_size bbox) = Fin (Q2Qc (17 # 10))
  /\ scaleFactor (computeAdaptiveScale bbox (dec 170 2)) = Fin 1%Qc.
Proof.
  exact (calibration_of_normalized_cloud_is_neutral
           PI_12 sqrt_12 sin_12 cos_12 scenario_cloud scenario_cloud_spans_a_height).
Defined.

Lemma sin_12_zero : sin_12 0%Qc = 0%Qc.
Proof. qc_compute. Qed.
Lemma cos_12_zero : cos_12 0%Qc = 1%Qc.
Proof. qc_compute. Qed.

(** The first tick of a new manager, one second in. *)
Lemma first_tick_keeps_identity_slots :
  let out := snd (update (JSNumber0 := Exact12) VRMManager_new (Fin 1%Qc)) in
  length out = 1024%nat
  /\ (forall j, (0 <= j < 64)%Z -> j ∉ SOLVED_BONES ->
        slot out j = elements (Matrix4_identity (JSNumber0 := Exact12)))
  /\ slot out 0 = elements (Matrix4_identity (JSNumber0 := Exact12)).
Proof.
  exact (update_unsolved_slots_and_root_are_identity
           PI_12 sqrt_12 sin_12 cos_12 sin_12_zero cos_12_zero
           VRMManager_new (Fin 1%Qc) (reach_new (JSNumber0 := Exact12))).
Defined.

(** Tile 0 of the poisoned viewer, in binary64. *)
Lemma poisoned_viewer_tile_is_finite :
  exists tile,
    geometry (updateLatentTile (JSNumber0 := F64_no_trig) poisoned_viewer 0)
      !! "latentTile"%string = Some (mkBufferAttribute tile 4)
    /\ Z.of_nat (length tile) = (vertexCount poisoned_viewer * 4)%Z
    /\ Forall (fun e => isFinite (JSNumber := F64_no_trig) e = true) tile
    /\ forall k c : nat, (Z.of_nat k < vertexCount poisoned_viewer)%Z -> (c < 4)%nat ->
         let srcIdx := (32 * k + 4 * Z.to_nat 0 + c)%nat in
         exists e, tile !! (4 * k + c)%nat = Some e /\
           match latentData poisoned_viewer !! srcIdx with
           | None => e = lit (JSNumber := F64_no_trig) 0
           | Some value =>
               if isNaN (JSNumber := F64_no_trig) value
                  || negb (isFinite (JSNumber := F64_no_trig) value)
               then e = lit (JSNumber := F64_no_trig) 0 else e = value
           end.
Proof.
  apply (updateLatentTile_tile_is_finite (JSNumber0 := F64_no_trig) poisoned_viewer 0).
  - lia.
  - simpl. lia.
  - reflexivity.
Defined.

(** What the tile of the poisoned viewer holds: zeros for NaN, for the
    infinities and past the end of the buffer. *)
Example poisoned_viewer_tile :
  attr_array <$> geometry (updateLatentTile (JSNumber0 := F64_no_trig) poisoned_viewer 0)
                   !! "latentTile"%string
  = Some [0; 0; 0; 0.5; 0.25; 0.25; 0.25; 0.25]%float
  /\ attr_array <$> geometry (updateLatentTile (JSNumber0 := F64_no_trig) poisoned_viewer 2)
                      !! "latentTile"%string
     = Some [0.25; 0.25; 0.25; 0.25; 0; 0; 0; 0]%float.
Proof. split; vm_compute; reflexivity. Qed.

(** The bone of the point (0, 1.4, -2): 17 where it comes third, 16 where
    it comes last.  (The whole clouds are rigged 22, 15, 17, 17, 9, 9, 16
    and 22, 15, 17, 16, 9, 9, 16.) *)
Lemma tied_cloud_bone :
  rig_bones (rig (JSNumber0 := Exact12) (finiteCloud tied_cloud)) !! 2%nat = Some 17.
Proof. rewrite rig_bones_eq, list_lookup_fmap. vm_compute. reflexivity. Qed.

Lemma tied_cloud_swapped_bone :
  rig_bones (rig (JSNumber0 := Exact12) (finiteCloud tied_cloud_swapped)) !! 6%nat
  = Some 16.
Proof. rewrite rig_bones_eq, list_lookup_fmap. vm_compute. reflexivity. Qed.

Lemma swap_ends_Permutation {A : Type} (a e : A) (mid : list A) :
  a :: mid ++ [e] ≡ₚ e :: mid ++ [a].
Proof.
  rewrite <- !Permutation_cons_append. apply perm_swap.
Qed.

Lemma tied_clouds_Permutation : tied_cloud ≡ₚ tied_cloud_swapped.
Proof.
  unfold tied_cloud, tied_cloud_swapped. do 2 apply perm_skip.
  apply (swap_ends_Permutation _ _ [_; _; _]).
Qed.

(** C2 as the specification words it does not hold.  The five chest-height
    points of [tied_cloud] share their X, so the stable shoulder sort keeps
    them in input order and the two shoulder centroids depend on that
    order: the point (0, 1.4, -2) is given bone 17 when it comes third and
    bone 16 when it comes last, and the two assignments are not
    permutations of each other. *)
Lemma rig_of_tied_cloud_depends_on_order :
  tied_cloud ≡ₚ tied_cloud_swapped
  /\ assignment PI_12 sqrt_12 sin_12 cos_12 tied_cloud !! 2%nat
     = Some ((0, Q2Qc (14 # 10), Q2Qc (-2))%Qc, 17)
  /\ assignment PI_12 sqrt_12 sin_12 cos_12 tied_cloud_swapped !! 6%nat
     = Some ((0, Q2Qc (14 # 10), Q2Qc (-2))%Qc, 16)
  /\ ~ (assignment PI_12 sqrt_12 sin_12 cos_12 tied_cloud
        ≡ₚ assignment PI_12 sqrt_12 sin_12 cos_12 tied_cloud_swapped).
Proof.
  unfold assignment. fold Exact12.
  assert (H2 : zip tied_cloud (rig_bones (rig (finiteCloud tied_cloud))) !! 2%nat
               = Some ((0, Q2Qc (14 # 10), Q2Qc (-2))%Qc, 17)).
  { apply lookup_zip_with_Some. eexists _, _. split; [reflexivity|].
    split; [reflexivity|apply tied_cloud_bone]. }
  assert (H6 : zip tied_cloud_swapped (rig_bones (rig (finiteCloud tied_cloud_swapped)))
                 !! 6%nat
               = Some ((0, Q2Qc (14 # 10), Q2Qc (-2))%Qc, 16)).
  { apply lookup_zip_with_Some. eexists _, _. split; [reflexivity|].
    split; [reflexivity|apply tied_cloud_swapped_bone]. }
  split; [apply tied_clouds_Permutation|]. split; [exact H2|]. split; [exact H6|].
  intros Hperm.
  apply list_elem_of_lookup_2 in H2. rewrite Hperm in H2.
  apply list_elem_of_lookup_1 in H2 as [i Hi].
  apply lookup_zip_with_Some in Hi as (p & b & Hpb & Hp & Hb).
  injection Hpb as <- <-.
  pose proof tied_cloud_swapped_bone as Hb6.
  do 6 (destruct i as [|i]; [discriminate Hp|]).
  destruct i as [|i].
  - rewrite Hb6 in Hb. discriminate Hb.
  - discriminate Hp.
Qed.

(** No point of [untied_cloud] enters the jaw sort, and the five that enter
    the shoulder sort have five different X. *)
Lemma untied_jaw : jawSortInput PI_12 sqrt_12 sin_12 cos_12 untied_cloud = [].
Proof. vm_compute. reflexivity. Qed.

Lemma untied_shoulder_keys :
  map vx (shoulderSortInput PI_12 sqrt_12 sin_12 cos_12 untied_cloud)
  = map (fun q => Fin (Q2Qc q)) [-2 # 10; -1 # 10; 0; 1 # 10; 2 # 10]%Q.
Proof. vm_compute. repeat (f_equal; try fin_compute). Qed.

Lemma untied_jaw_NoDup :
  NoDup (map vy (jawSortInput PI_12 sqrt_12 sin_12 cos_12 untied_cloud)).
Proof. rewrite untied_jaw. constructor. Qed.

Lemma untied_shoulder_NoDup :
  NoDup (map vx (shoulderSortInput PI_12 sqrt_12 sin_12 cos_12 untied_cloud)).
Proof.
  rewrite untied_shoulder_keys. simpl.
  repeat (apply NoDup_cons; split;
          [intros Hin;
           repeat (apply elem_of_cons in Hin as [Hin|Hin]; [discriminate Hin|]);
           by apply elem_of_nil in Hin|]).
  constructor.
Qed.

(** Rigging [untied_cloud] in exact arithmetic and rigging it read
    backwards give every point the same bone. *)
Lemma untied_cloud_exact_rig_is_order_independent :
  (exists g : RealPoint -> Z,
      rig_bones (rig (finiteCloud untied_cloud)) = map g untied_cloud
      /\ rig_bones (rig (finiteCloud (reverse untied_cloud)))
         = map g (reverse untied_cloud))
  /\ assignment PI_12 sqrt_12 sin_12 cos_12 untied_cloud
     ≡ₚ assignment PI_12 sqrt_12 sin_12 cos_12 (reverse untied_cloud).
Proof.
  apply (rig_exact_without_ties_is_order_independent PI_12 sqrt_12 sin_12 cos_12
           untied_cloud (reverse untied_cloud)).
  - symmetry. apply reverse_Permutation.
  - exact untied_jaw_NoDup.
  - exact untied_shoulder_NoDup.
Defined.

#[local] Existing Instance F64_no_trig.

(** The positions of the scenario file as binary64 numbers. *)
Definition scenario_raw : list float := map f32_of_bits scenario_bits.

(** The scenario in binary64, on the float32 values the file holds
    (0.6 is read as 0.60000002384185791): the top point lands at
    1.7000000476837158, the float32 nearest to 1.70, and calibrating the
    result again gives the scale factor 0.99999997195075618. *)
Example scenario_calibration_binary64 :
  let normalized := normalizedCloud scenario_raw in
  let bbox := computeBoundingBox normalized in
  (positions <$> (match load scenario_ply with
                  | Ok data => Some data
                  | Throw _ => None
                  end)) = Some normalized
  /\ map vy (points_of scenario_raw)
     = [0; 0x1.333334p-1; 0x1.333334p+0; 0x1.ccccccp+0]%float
  /\ map vy (points_of normalized)
     = [0; 0x1.222224p-1; 0x1.222224p+0; 0x1.b33334p+0]%float
  /\ vy (bb_size bbox) = 0x1.b33334p+0%float
  /\ scaleFactor (computeAdaptiveScale bbox (dec 170 2)) = 0x1.ffffff0f0f0f8p-1%float.
Proof. vm_compute. repeat split. Qed.

(** C5 as the specification words it does not hold.  The header of
    [stray_token_ply] (the text up to and including [end_header] and its
    line end) has no vertex-count token, yet [load] throws nothing: the
    token is sought in the first 5000 bytes of the file, finds the text in
    the bytes after the header, and the file loads as a cloud of no
    points; [loadAssets] goes on to build the viewer and returns [true]. *)
Lemma load_takes_the_vertex_count_from_the_payload :
  TextDecoder_decode (ArrayBuffer_slice stray_token_ply 0 5000)
  = (tokenless_header ++ "element vertex 0")%string
  /\ (indexOf "end_header" tokenless_header + 10 + 1)%Z
     = Z.of_nat (String.length tokenless_header)
  /\ ~ has_vertex_token tokenless_header
  /\ match load (JSNumber0 := Exact12) stray_token_ply with
     | Ok data =>
         positions data = [] /\ boneIndices data = [] /\ boneWeights data = []
     | Throw _ => False
     end
  /\ snd (loadAssets (JSNumber0 := Exact12)
            (mkGVRM (VRMManager_new (JSNumber0 := Exact12)) None false)
            (mkAssets (Ok stray_token_ply)
               (fun data => Ok (mkGSViewer (array_length (positions data) / 3)
                                  [] ∅ []))
               (Ok tt)))
     = true.
Proof.
  split; [vm_compute; reflexivity|]. split; [vm_compute; reflexivity|].
  split; [apply match_vertex_None; vm_compute; reflexivity|].
  split; [vm_compute; repeat split|]. vm_compute. reflexivity.
Qed.


(** In binary64 the tied clouds are rigged as in exact arithmetic: the
    point (0, 1.4, -2) is given bone 17 where it comes third and bone 16
    where it comes last. *)
Example tied_cloud_binary64 :
  rig_bones (rig (JSNumber0 := F64_taylor_trig) (map F64_of_f32_bits tied_bits))
  = [22; 15; 17; 17; 9; 9; 16]
  /\ rig_bones (rig (JSNumber0 := F64_taylor_trig) (map F64_of_f32_bits tied_bits_swapped))
     = [22; 15; 17; 16; 9; 9; 16].
Proof. split; vm_compute; reflexivity. Qed.

(** Without any tie, bone detection still reads the order of the points:
    the sum of the three Z of the hips band is rounded as it goes, so it is
    0 in one order and 0.85 in the other, and the centroid of the hips
    moves by 0.28. *)
Example detectBonePositions_rounds_in_point_order :
  let hips (bits : list Z) :=
    let normalized := normalizedCloud (JSNumber0 := F64_no_trig) (map F64_of_f32_bits bits) in
    position <$> obj_get 0
      (detectBonePositions (JSNumber0 := F64_no_trig) normalized
         (computeBoundingBox (JSNumber0 := F64_no_trig) normalized)) in
  points_of (JSNumber0 := F64_no_trig) (map F64_of_f32_bits cancelling_bits)
  ≡ₚ points_of (JSNumber0 := F64_no_trig) (map F64_of_f32_bits cancelling_bits_swapped)
  /\ hips cancelling_bits = Some (mkVector3 0 0x1.051eb8p+0 0)%float
  /\ hips cancelling_bits_swapped
     = Some (mkVector3 0 0x1.051eb8p+0 0x1.222222aaaaaaap-2)%float.
Proof.
  split; [|split; vm_compute; reflexivity].
  vm_compute. do 3 apply perm_skip. apply perm_swap.
Qed.

(** The figure in binary64, and the figure read backwards: the jaw sort
    receives five points of five different heights and the shoulder sort
    five points of five different X, bone detection returns the same bone
    positions for both orders, and every point gets the same bone. *)
Lemma figure_rig_is_order_independent :
  let cloud := figure_cloud in
  let cloud' := reverse figure_cloud in
  let r := rig (JSNumber0 := F64_taylor_trig) (positions_of cloud) in
  let r' := rig (JSNumber0 := F64_taylor_trig) (positions_of cloud') in
  let detected (r : Rigged float) :=
    detectBonePositions (JSNumber0 := F64_taylor_trig) (rig_positions r)
      (computeBoundingBox (JSNumber0 := F64_taylor_trig) (rig_positions r)) in
  cloud ≡ₚ cloud'
  /\ detected r' = detected r
  /\ (exists g : Vector3 float -> Z,
         rig_bones r = map g cloud /\ rig_bones r' = map g cloud')
  /\ zip cloud (rig_bones r) ≡ₚ zip cloud' (rig_bones r').
Proof.
  intros cloud cloud' r r' detected.
  assert (Hperm : cloud ≡ₚ cloud') by (symmetry; apply reverse_Permutation).
  assert (Hdetect : detected r' = detected r) by (vm_compute; reflexivity).
  split; [exact Hperm|]. split; [exact Hdetect|].
  exact (proj2 (proj2 (proj2 (proj2
           (rig_depends_on_order_only_through_detection F64_sin F64_cos cloud cloud' Hperm))))
           Hdetect).
Defined.

(** The keys the two sorts compare when the figure is rigged, and the bones
    of its points, in both orders. *)
Example figure_sorts_and_bones :
  let normalized :=
    normalizedCloud (JSNumber0 := F64_taylor_trig) (positions_of figure_cloud) in
  let points := points_of (JSNumber0 := F64_taylor_trig) normalized in
  let height :=
    vy (bb_size (computeBoundingBox (JSNumber0 := F64_taylor_trig) normalized)) in
  let band (lo hi floor : Z) :=
    bandBone (JSNumber0 := F64_taylor_trig) points
      (PrimFloat.mul (dec (JSNumber0 := F64_taylor_trig) lo 2) height)
      (PrimFloat.mul (dec (JSNumber0 := F64_taylor_trig) hi 2) height)
      (dec (JSNumber0 := F64_taylor_trig) floor 2) in
  map vy (jawRegionPoints (JSNumber0 := F64_taylor_trig) points (position (band 88 93 6)))
  = [0x1.8a3d7p+0; 0x1.8cccccp+0; 0x1.8f5c28p+0; 0x1.91eb86p+0; 0x1.947ae2p+0]%float
  /\ map vx (shoulderPoints (JSNumber0 := F64_taylor_trig) points
               (vy (position (band 75 88 15))))
     = [-0x1.99999ap-3; -0x1.99999ap-4; 0; 0x1.99999ap-4; 0x1.99999ap-3]%float
  /\ rig_bones (rig (JSNumber0 := F64_taylor_trig) (positions_of figure_cloud))
     = [0; 9; 17; 17; 9; 22; 16; 9; 9; 9; 9; 22; 22; 22; 22; 22; 22]
  /\ rig_bones (rig (JSNumber0 := F64_taylor_trig) (positions_of (reverse figure_cloud)))
     = [22; 22; 22; 22; 22; 22; 9; 9; 9; 9; 16; 22; 9; 17; 17; 9; 0].
Proof. repeat split; vm_compute; reflexivity. Qed.

(** The scenario file holds the four points its header declares. *)
Lemma scenario_ply_has_four_points :
  exists data : PLYData ExNum,
    load (JSNumber0 := Exact12) scenario_ply = Ok data
    /\ exists n : Z,
         declaredVertexCount scenario_ply = Some n
         /\ length (positions data) = (3 * Z.to_nat n)%nat
         /\ length (colors data) = (3 * Z.to_nat n)%nat
         /\ length (scales data) = (3 * Z.to_nat n)%nat
         /\ length (boneIndices data) = (4 * Z.to_nat n)%nat
         /\ length (boneWeights data) = (4 * Z.to_nat n)%nat.
Proof.
  pose proof scenario_ply_loads as Hok.
  destruct (load (JSNumber0 := Exact12) scenario_ply) as [data|e] eqn:Hload.
  - exists data. split; [reflexivity|].
    exact (load_has_the_declared_vertex_count (JSNumber0 := Exact12) scenario_ply data Hload).
  - discriminate Hok.
Defined.


(** The truncated file does not load. *)
Lemma truncated_ply_fails_to_load :
  Forall (fun b => (Byte.to_N b < 128)%N) (ArrayBuffer_slice truncated_ply 0 5000)
  /\ declaredVertexCount truncated_ply = Some 4
  /\ array_length truncated_ply
     < dataOffset truncated_ply + (4 - 1) * strideOf truncated_ply
       + 4 * propIndex truncated_ply "y" + 4
  /\ load (JSNumber0 := Exact12) truncated_ply = Throw RangeError
  /\ forall (g : GVRM ExNum) (env : Assets ExNum),
       fetchPly env = Ok truncated_ply -> loadAssets (JSNumber0 := Exact12) g env = (g, false).
Proof.
  assert (Hascii : Forall (fun b => (Byte.to_N b < 128)%N)
                     (ArrayBuffer_slice truncated_ply 0 5000)).
  { vm_compute. repeat constructor. }
  assert (Hn : declaredVertexCount truncated_ply = Some 4) by (vm_compute; reflexivity).
  assert (Hshort : array_length truncated_ply
                   < dataOffset truncated_ply + (4 - 1) * strideOf truncated_ply
                     + 4 * propIndex truncated_ply "y" + 4) by (vm_compute; reflexivity).
  split; [exact Hascii|]. split; [exact Hn|]. split; [exact Hshort|].
  apply (load_of_truncated_file_fails (JSNumber0 := Exact12) truncated_ply 4 "y"
           Hascii Hn).
  - lia.
  - right. by left.
  - right. exact Hshort.
Defined.
